(** * WebWatchAgent: watcher, worker and file helpers

    A shallow embedding of the job-processing core of the Web Watcher
    (watcher.js, worker.js, files.js) and the properties its specification
    states about it.

    Conventions of the embedding:
    - JavaScript values are the inductive [JsVal]; numbers are restricted to
      integers ([Z]), which is all the modelled code inspects;
    - strings are [string] (8-bit characters); [toLowerCase] and [trim] act
      on the ASCII range;
    - asynchronous functions run in the monad [M]: explicit world passing
      with a thrown-error outcome; the file system is a finite map from
      paths to files, the rendering engine is an oracle [Env];
    - code that interleaves at [await] points (the watcher's [add] handler,
      the session registry, the limiter) is a step function driven by a
      schedule. *)

From Stdlib Require Import ZArith Lia Bool.
From stdpp Require Import base option list strings gmap.

Set Warnings "-register-all".

Local Open Scope string_scope.
Local Open Scope Z_scope.
Local Open Scope list_scope.

(** ** JavaScript values *)

Module Js.

Inductive JsVal :=
| JUndef
| JNull
| JBool (b : bool)
| JNum (z : Z)
| JStr (s : string)
| JArr (xs : list JsVal)
| JObj (fields : list (string * JsVal)).

(** [!!v] *)
Definition truthy (v : JsVal) : bool :=
  match v with
  | JUndef | JNull => false
  | JBool b => b
  | JNum z => negb (z =? 0)
  | JStr s => negb (String.eqb s "")
  | JArr _ | JObj _ => true
  end.

(** [typeof v] *)
Definition typeof (v : JsVal) : string :=
  match v with
  | JUndef => "undefined"
  | JNull => "object"
  | JBool _ => "boolean"
  | JNum _ => "number"
  | JStr _ => "string"
  | JArr _ | JObj _ => "object"
  end.

Fixpoint assoc (k : string) (fs : list (string * JsVal)) : JsVal :=
  match fs with
  | [] => JUndef
  | (k', v) :: fs' => if String.eqb k k' then v else assoc k fs'
  end.

(** [v?.k]: property read; anything but an object has no own data fields
    of the names the watcher reads. *)
Definition get (v : JsVal) (k : string) : JsVal :=
  match v with
  | JObj fs => assoc k fs
  | _ => JUndef
  end.

(** [a || b] *)
Definition or (a b : JsVal) : JsVal := if truthy a then a else b.

(** [a ?? b] *)
Definition nullish (a b : JsVal) : JsVal :=
  match a with JUndef | JNull => b | _ => a end.

(** [Array.isArray(v)] *)
Definition isArray (v : JsVal) : bool :=
  match v with JArr _ => true | _ => false end.

Definition digit (n : nat) : string :=
  String (Ascii.ascii_of_nat (48 + n)) EmptyString.

Fixpoint dec_digits (fuel n : nat) (acc : string) : string :=
  match fuel with
  | O => acc
  | S fuel' =>
      let acc' := digit (n mod 10) +:+ acc in
      if (n / 10 =? 0)%nat then acc' else dec_digits fuel' (n / 10)%nat acc'
  end.

Definition dec_nat (n : nat) : string := dec_digits (S n) n "".

Definition dec_Z (z : Z) : string :=
  if z <? 0 then "-" +:+ dec_nat (Z.to_nat (- z)) else dec_nat (Z.to_nat z).

Definition join_comma (xs : list string) : string :=
  match xs with
  | [] => ""
  | x :: rest => fold_left (fun acc y => acc +:+ "," +:+ y) rest x
  end.

(** [String(v)] *)
Fixpoint toStr (v : JsVal) : string :=
  match v with
  | JUndef => "undefined"
  | JNull => "null"
  | JBool true => "true"
  | JBool false => "false"
  | JNum z => dec_Z z
  | JStr s => s
  | JArr xs =>
      join_comma
        (map (fun x => match x with JUndef | JNull => "" | _ => toStr x end) xs)
  | JObj _ => "[object Object]"
  end.

End Js.

(** ** String helpers of the JavaScript runtime *)

Module Text.

Definition lower_ascii (c : Ascii.ascii) : Ascii.ascii :=
  let n := Ascii.nat_of_ascii c in
  if ((65 <=? n) && (n <=? 90))%nat then Ascii.ascii_of_nat (n + 32) else c.

(** [s.toLowerCase()] on the ASCII range *)
Fixpoint toLowerCase (s : string) : string :=
  match s with
  | EmptyString => EmptyString
  | String c s' => String (lower_ascii c) (toLowerCase s')
  end.

Fixpoint starts_with (p s : string) : bool :=
  match p, s with
  | EmptyString, _ => true
  | String a p', String b s' => Ascii.eqb a b && starts_with p' s'
  | String _ _, EmptyString => false
  end.

(** [s.includes(p)]; also the meaning of [/p/.test(s)] for a literal [p] *)
Fixpoint includes (p s : string) : bool :=
  starts_with p s ||
  match s with
  | EmptyString => false
  | String _ s' => includes p s'
  end.

(** [/p1|p2|...|pn/.test(s)] for literal alternatives *)
Definition test_any (ps : list string) (s : string) : bool :=
  existsb (fun p => includes p s) ps.

Definition is_space (c : Ascii.ascii) : bool :=
  let n := Ascii.nat_of_ascii c in
  ((n =? 32) || ((9 <=? n) && (n <=? 13)))%nat.

Fixpoint trim_start (s : string) : string :=
  match s with
  | EmptyString => EmptyString
  | String c s' => if is_space c then trim_start s' else s
  end.

Fixpoint trim_end (s : string) : string :=
  match s with
  | EmptyString => EmptyString
  | String c s' =>
      match trim_end s' with
      | EmptyString => if is_space c then EmptyString else String c EmptyString
      | t => String c t
      end
  end.

(** The double quote character, as a string. *)
Definition dq : string := String (Ascii.ascii_of_nat 34) EmptyString.

(** [s.trim()] on ASCII white space *)
Definition trim (s : string) : string := trim_end (trim_start s).

End Text.

(** ** node:path, POSIX flavour *)

Module Path.

Definition slash : Ascii.ascii := Ascii.ascii_of_nat 47.

Fixpoint split_go (cur : string) (s : string) : list string :=
  match s with
  | EmptyString => [String.rev cur]
  | String c s' =>
      if Ascii.eqb c slash then String.rev cur :: split_go "" s'
      else split_go (String c cur) s'
  end.

(** [s.split('/')] *)
Definition split (s : string) : list string := split_go "" s.

Definition unsplit (segs : list string) : string :=
  match segs with
  | [] => ""
  | x :: rest => fold_left (fun acc y => acc +:+ "/" +:+ y) rest x
  end.

(** One segment of [normalizeString]; [acc] is the result so far, last
    segment first. *)
Definition norm_step (allowAboveRoot : bool) (acc : list string) (seg : string)
  : list string :=
  if String.eqb seg "" || String.eqb seg "." then acc
  else if String.eqb seg ".." then
    match acc with
    | [] => if allowAboveRoot then [".."] else []
    | top :: rest =>
        if String.eqb top ".." then (if allowAboveRoot then ".." :: acc else acc)
        else rest
    end
  else seg :: acc.

Definition normalizeString (p : string) (allowAboveRoot : bool) : string :=
  unsplit (rev (fold_left (norm_step allowAboveRoot) (split p) [])).

Definition isAbsolute (p : string) : bool :=
  match p with String c _ => Ascii.eqb c slash | EmptyString => false end.

Fixpoint ends_with_slash (p : string) : bool :=
  match p with
  | EmptyString => false
  | String c EmptyString => Ascii.eqb c slash
  | String _ p' => ends_with_slash p'
  end.

(** [path.normalize(p)] *)
Definition normalize (p : string) : string :=
  if String.eqb p "" then "."
  else
    let abs := isAbsolute p in
    let trailing := ends_with_slash p in
    let q := normalizeString p (negb abs) in
    if String.eqb q "" then
      (if abs then "/" else if trailing then "./" else ".")
    else
      let q' := if trailing then q +:+ "/" else q in
      if abs then "/" +:+ q' else q'.

(** [path.join(a, b)] *)
Definition join (a b : string) : string :=
  if String.eqb a "" then
    (if String.eqb b "" then "." else normalize b)
  else if String.eqb b "" then normalize a
  else normalize (a +:+ "/" +:+ b).

(** [path.resolve(a, b)] for a process whose working directory is [cwd]
    (an absolute path). *)
Definition resolve (cwd a b : string) : string :=
  let joined :=
    if isAbsolute b then b
    else if isAbsolute a then a +:+ "/" +:+ b
    else cwd +:+ "/" +:+ a +:+ "/" +:+ b in
  let q := normalizeString joined false in
  "/" +:+ q.

Fixpoint drop_slashes (r : string) : string :=
  match r with
  | String c r' => if Ascii.eqb c slash then drop_slashes r' else r
  | EmptyString => EmptyString
  end.

Fixpoint take_segment (r : string) : string :=
  match r with
  | String c r' => if Ascii.eqb c slash then "" else String c (take_segment r')
  | EmptyString => ""
  end.

Fixpoint skip_segment (r : string) : string :=
  match r with
  | String c r' => if Ascii.eqb c slash then r else skip_segment r'
  | EmptyString => ""
  end.

(** [path.basename(p)] *)
Definition basename (p : string) : string :=
  String.rev (take_segment (drop_slashes (String.rev p))).

(** [path.dirname(p)] *)
Definition dirname (p : string) : string :=
  if String.eqb p "" then "."
  else
    let r := skip_segment (drop_slashes (String.rev p)) in
    (* [r] is the reversed text up to and including the last separator
       that precedes the final segment *)
    match r with
    | EmptyString => if isAbsolute p then "/" else "."
    | String _ EmptyString => "/"
    | String _ r' => String.rev r'
    end.

End Path.

(** ** The document a page shows *)

Module Dom.

Record Element := mkElement {
  (** matches [button, [role="button"], a, .btn] *)
  el_clickable : bool;
  (** [el.innerText]; [None] where the property is undefined *)
  el_innerText : option string;
  (** [el.textContent] *)
  el_textContent : option string;
  el_attrs : list (string * string);
  el_outerHTML : string;
}.

(** A 2D rendering context: its pixels as (r, g, b, a), and whether the
    canvas is origin-tainted. *)
Record Ctx2d := mkCtx2d {
  cx_tainted : bool;
  cx_pixel : nat -> nat -> Z * Z * Z * Z;
}.

Record Canvas := mkCanvas {
  cv_width : nat;
  cv_height : nat;
  (** [c.getContext('2d')]; [None] for a canvas bound to another context
      type (WebGL) *)
  cv_ctx2d : option Ctx2d;
}.

Record Doc := mkDoc {
  (** all elements, in document order *)
  nodes : list Element;
  (** [Array.from(document.querySelectorAll(sel))]; [None] when [sel] is
      not a valid selector (the call throws) *)
  select : string -> option (list Element);
  (** [document.querySelector('canvas')] *)
  canvas : option Canvas;
}.

Fixpoint attr_lookup (k : string) (attrs : list (string * string)) : option string :=
  match attrs with
  | [] => None
  | (k', v) :: rest => if String.eqb k k' then Some v else attr_lookup k rest
  end.

(** [el.getAttribute(name)] *)
Definition getAttribute (e : Element) (name : string) : option string :=
  attr_lookup name (el_attrs e).

Fixpoint attr_set (k v : string) (attrs : list (string * string))
  : list (string * string) :=
  match attrs with
  | [] => [(k, v)]
  | (k', v') :: rest =>
      if String.eqb k k' then (k, v) :: rest else (k', v') :: attr_set k v rest
  end.

(** [el.setAttribute(name, value)] *)
Definition setAttribute (e : Element) (name value : string) : Element :=
  mkElement (el_clickable e) (el_innerText e) (el_textContent e)
            (attr_set name value (el_attrs e)) (el_outerHTML e).

Definition row (cx : Ctx2d) (w y : nat) : list Z :=
  flat_map (fun x => let '(r, g, b, a) := cx_pixel cx x y in [r; g; b; a]) (seq 0 w).

(** [ctx.getImageData(0, 0, w, h).data]: row-major RGBA bytes; the call
    throws ([None]) on a tainted canvas (SecurityError) and on an empty
    rectangle (IndexSizeError). *)
Definition getImageData (cx : Ctx2d) (w h : nat) : option (list Z) :=
  if cx_tainted cx then None
  else if ((w =? 0) || (h =? 0))%nat then None
  else Some (flat_map (row cx w) (seq 0 h)).

End Dom.

(** ** The world an asynchronous function runs in *)

Module Sys.
Import Js.

(** What a file holds.  [JSON.stringify] and the engine's image encoder are
    kept symbolic: a file written from [JSON.stringify(v, null, 2)] holds
    [DJson v]. *)
Inductive Data :=
| DText (s : string)
| DJson (v : JsVal)
| DImage (of_what : string).

(** [fs.writeFile] is not atomic: between its start and its end the path
    exists with incomplete content. *)
Inductive File :=
| Partial
| Complete (d : Data).

(** Calls into the rendering engine (Puppeteer). *)
Inductive Call :=
| CCreateContext
| CNewPage (ctx : option nat)
| CSetUserAgent (ua : JsVal)
| CSetExtraHTTPHeaders (h : JsVal)
| CSetViewport (v : JsVal)
| CSetDefaultNavigationTimeout (t : JsVal)
| CSetDefaultTimeout (t : JsVal)
| CGoto (url waitUntil timeout : JsVal)
| CSetContent (html waitUntil timeout : JsVal)
| CWaitForSelector (sel timeout : JsVal)
| CClick (sel : JsVal)
| CHover (sel : JsVal)
| CType (sel text delay : JsVal)
| CMouseClick (x y : JsVal)
| CWaitForFunction (fn timeout : JsVal)
| CKeyPress (key delay : JsVal)
| CEvaluate (what : string)
| CContent
| CScreenshot (path : string) (fullPage : bool)
| CElementScreenshot (path : string)
| CClosePage.

Inductive Event :=
| EMkdir (dir : string)
| EWriteOpen (path : string)
| EWriteDone (path : string) (d : Data)
| ERename (src dst : string) (ok : bool)
| EUnlink (path : string) (ok : bool)
| ERead (path : string) (ok : bool)
| ESleep (ms : JsVal)
| ECall (c : Call) (err : option string).

Record World := mkWorld {
  fs : gmap string File;
  (** every event so far, oldest first, each with the file system a
      concurrent reader sees right after it *)
  log : list (Event * gmap string File);
  (** how many identifiers, clock readings and engine calls were consumed *)
  nuuid : nat;
  nclock : nat;
  ncall : nat;
}.

Definition world0 (fs0 : gmap string File) : World :=
  mkWorld fs0 [] 0 0 0.

(** Outcome of an asynchronous function: it resolves with a value, rejects
    with an error, of which only the message is kept
    ([err instanceof Error ? err.message : String(err)]), or is still
    pending when the observer's patience (the fuel of a polling loop) runs
    out. *)
Inductive Res (A : Type) :=
| Ok (a : A)
| Throw (msg : string)
| Hang.
Arguments Ok {A} a.
Arguments Throw {A} msg.
Arguments Hang {A}.

Definition M (A : Type) : Type := World -> Res A * World.

Definition ret {A} (a : A) : M A := fun w => (Ok a, w).
Definition throw {A} (msg : string) : M A := fun w => (Throw msg, w).

Definition bind {A B} (m : M A) (k : A -> M B) : M B :=
  fun w =>
    match m w with
    | (Ok a, w') => k a w'
    | (Throw e, w') => (Throw e, w')
    | (Hang, w') => (Hang, w')
    end.

(** [try { m } catch (err) { h(err) }] *)
Definition try_catch {A} (m : M A) (h : string -> M A) : M A :=
  fun w =>
    match m w with
    | (Ok a, w') => (Ok a, w')
    | (Throw e, w') => h e w'
    | (Hang, w') => (Hang, w')
    end.

(** [try { m } finally { f }] *)
Definition try_finally {A} (m : M A) (f : M unit) : M A :=
  fun w =>
    match m w with
    | (Hang, w') => (Hang, w')
    | (r, w') =>
        match f w' with
        | (Ok _, w'') => (r, w'')
        | (Throw e, w'') => (Throw e, w'')
        | (Hang, w'') => (Hang, w'')
        end
    end.

(** [try { m } catch {}] *)
Definition attempt (m : M unit) : M unit := try_catch m (fun _ => ret tt).

Definition when (b : bool) (m : M unit) : M unit := if b then m else ret tt.

Definition emit (e : Event) (f : gmap string File) : M unit :=
  fun w => (Ok tt, mkWorld f (log w ++ [(e, f)])%list (nuuid w) (nclock w) (ncall w)).

Definition get_fs : M (gmap string File) := fun w => (Ok (fs w), w).

(** [fs.mkdir(dir, { recursive: true })]: directories are implicit in the
    path map, the call only leaves its trace. *)
Definition fs_mkdir (dir : string) : M unit :=
  bind get_fs (fun f => emit (EMkdir dir) f).

(** [fs.writeFile(path, data)] *)
Definition fs_writeFile (path : string) (d : Data) : M unit :=
  bind get_fs (fun f =>
  bind (emit (EWriteOpen path) (<[path := Partial]> f)) (fun _ =>
  bind get_fs (fun f' =>
  emit (EWriteDone path d) (<[path := Complete d]> f')))).

(** [fs.rename(src, dst)]: fails with ENOENT when [src] does not exist. *)
Definition fs_rename (src dst : string) : M unit :=
  bind get_fs (fun f =>
  match f !! src with
  | Some x =>
      emit (ERename src dst true) (<[dst := x]> (delete src f))
  | None =>
      bind (emit (ERename src dst false) f) (fun _ =>
      throw "ENOENT: no such file or directory, rename")
  end).

(** [fs.unlink(path)] *)
Definition fs_unlink (path : string) : M unit :=
  bind get_fs (fun f =>
  match f !! path with
  | Some _ => emit (EUnlink path true) (delete path f)
  | None =>
      bind (emit (EUnlink path false) f) (fun _ =>
      throw "ENOENT: no such file or directory, unlink")
  end).

(** [fs.readFile(path, 'utf8')] *)
Definition fs_readFile (path : string) : M File :=
  bind get_fs (fun f =>
  match f !! path with
  | Some x => bind (emit (ERead path true) f) (fun _ => ret x)
  | None =>
      bind (emit (ERead path false) f) (fun _ =>
      throw "ENOENT: no such file or directory, open")
  end).

(** [new Promise((r) => setTimeout(r, ms))] *)
Definition sleep (ms : JsVal) : M unit :=
  bind get_fs (fun f => emit (ESleep ms) f).

End Sys.

Declare Scope eff_scope.
Delimit Scope eff_scope with eff.
Notation "'let*' x ':=' m 'in' k" := (Sys.bind m (fun x => k))
  (at level 10, x pattern, m at level 100, k at level 200) : eff_scope.
Notation "m ';;' k" := (Sys.bind m (fun _ => k))
  (at level 100, k at level 200, right associativity) : eff_scope.

(** ** The environment: identifiers, clock and rendering engine *)

Module Engine.
Import Js Sys.
Local Open Scope eff_scope.

Record Env := mkEnv {
  (** the k-th identifier handed out by [randomUUID()] / [uuidv4()] *)
  env_uuid : nat -> string;
  (** the k-th reading of the clock, in milliseconds *)
  env_now : nat -> Z;
  (** [new Date(t).toISOString()] *)
  env_iso : Z -> string;
  (** outcome of the k-th engine call: [None] resolves, [Some m] rejects
      with [Error(m)] *)
  env_engine : nat -> Call -> option string;
  (** the document at the time of the k-th engine call *)
  env_doc : nat -> Dom.Doc;
  (** [page.content()] at the time of the k-th engine call *)
  env_html : nat -> string;
  (** console and network events the page emits while a job listens *)
  env_console : list JsVal;
  env_network : list JsVal;
}.

Section WithEnv.
Variable env : Env.

Definition randomUUID : M string :=
  fun w => (Ok (env_uuid env (nuuid w)),
            mkWorld (fs w) (log w) (S (nuuid w)) (nclock w) (ncall w)).

(** [Date.now()] *)
Definition now : M Z :=
  fun w => (Ok (env_now env (nclock w)),
            mkWorld (fs w) (log w) (nuuid w) (S (nclock w)) (ncall w)).

(** An awaited engine call. *)
Definition call (c : Call) : M unit :=
  fun w =>
    let r := env_engine env (ncall w) c in
    let w' := mkWorld (fs w) (log w ++ [(ECall c r, fs w)])%list
                      (nuuid w) (nclock w) (S (ncall w)) in
    match r with
    | None => (Ok tt, w')
    | Some m => (Throw m, w')
    end.

(** [page.evaluate(f)]: the call, then [f] run on the document of that
    moment. *)
Definition evaluate {A} (what : string) (f : Dom.Doc -> Res A) : M A :=
  fun w =>
    let d := env_doc env (ncall w) in
    match call (CEvaluate what) w with
    | (Ok _, w') => (f d, w')
    | (Throw m, w') => (Throw m, w')
    | (Hang, w') => (Hang, w')
    end.

(** [page.content()] *)
Definition content : M string :=
  fun w =>
    let h := env_html env (ncall w) in
    match call CContent w with
    | (Ok _, w') => (Ok h, w')
    | (Throw m, w') => (Throw m, w')
    | (Hang, w') => (Hang, w')
    end.

(** [page.screenshot({ path, fullPage })]: the engine renders the image and
    then stores it with a plain [fs.writeFile(path, buffer)]. *)
Definition screenshot (path : string) (fullPage : bool) : M unit :=
  call (CScreenshot path fullPage) ;;
  fs_writeFile path (DImage "page").

(** [el.screenshot({ path })] *)
Definition elementScreenshot (path : string) : M unit :=
  call (CElementScreenshot path) ;;
  fs_writeFile path (DImage "element").

End WithEnv.
End Engine.

(** ** files.js *)

Module Files.
Import Js Sys Engine.
Local Open Scope eff_scope.

(** [ensureDir(dir)] *)
Definition ensureDir (dir : string) : M unit := fs_mkdir dir.

(** [writeFileAtomic(filePath, data)] *)
Definition writeFileAtomic (env : Env) (filePath : string) (data : Data) : M unit :=
  let dir := Path.dirname filePath in
  ensureDir dir ;;
  let base := Path.basename filePath in
  let* u := randomUUID env in
  let tmp := Path.join dir ("." +:+ base +:+ ".tmp-" +:+ u) in
  fs_writeFile tmp data ;;
  fs_rename tmp filePath.

(** [writeJSONAtomic(filePath, obj)] *)
Definition writeJSONAtomic (env : Env) (filePath : string) (obj : JsVal) : M unit :=
  writeFileAtomic env filePath (DJson obj).

(** [readJSON(filePath)]: a file holding [DJson v] is well-formed JSON text
    for [v]; anything else does not parse. *)
Definition readJSON (filePath : string) : M JsVal :=
  let* f := fs_readFile filePath in
  match f with
  | Complete (DJson v) => ret v
  | _ => throw "Unexpected token in JSON"
  end.

(** [safeJoin(baseDir, target)], in a process whose working directory is
    [cwd]. *)
Definition safeJoin (cwd baseDir target : string) : Res string :=
  let resolved := Path.resolve cwd baseDir target in
  let base := Path.resolve cwd baseDir "" in
  if negb (Text.starts_with (base +:+ "/") resolved) && negb (String.eqb resolved base)
  then Throw ("Unsafe path resolution: " +:+ resolved)
  else Ok resolved.

End Files.

(** ** Number coercions of the runtime *)

Module Num.
Import Js.

Definition digit_val (c : Ascii.ascii) : option Z :=
  let n := Ascii.nat_of_ascii c in
  if ((48 <=? n) && (n <=? 57))%nat then Some (Z.of_nat n - 48) else None.

Fixpoint parse_digits (s : string) (acc : Z) : option Z :=
  match s with
  | EmptyString => Some acc
  | String c s' =>
      match digit_val c with
      | Some d => parse_digits s' (10 * acc + d)
      | None => None
      end
  end.

(** [Number(s)] for a string: white space is trimmed, the empty string is
    0, a decimal integer with an optional sign is its value; every other
    text is taken as NaN ([None]). *)
Definition ofString (s : string) : option Z :=
  match Text.trim s with
  | EmptyString => Some 0
  | String c rest =>
      if Ascii.eqb c (Ascii.ascii_of_nat 45) then
        match rest with
        | EmptyString => None
        | _ => option_map Z.opp (parse_digits rest 0)
        end
      else if Ascii.eqb c (Ascii.ascii_of_nat 43) then
        match rest with
        | EmptyString => None
        | _ => parse_digits rest 0
        end
      else parse_digits (String c rest) 0
  end.

(** [Number(v)]; [None] is NaN. *)
Definition toNumber (v : JsVal) : option Z :=
  match v with
  | JUndef => None
  | JNull => Some 0
  | JBool b => Some (if b then 1 else 0)
  | JNum z => Some z
  | JStr s => ofString s
  | JArr _ => ofString (toStr v)
  | JObj _ => None
  end.

(** [x > v] for a number [x] *)
Definition lt_val (v : JsVal) (x : Z) : bool :=
  match toNumber v with
  | Some t => t <? x
  | None => false
  end.

(** [Object.keys(v).length] for a truthy [v] *)
Definition keys_count (v : JsVal) : nat :=
  match v with
  | JObj fs => length fs
  | JArr xs => length xs
  | JStr s => String.length s
  | _ => 0%nat
  end.

(** [a === 'lit'] *)
Definition is_str (a : JsVal) (lit : string) : bool :=
  match a with
  | JStr s => String.eqb s lit
  | _ => false
  end.

(** [String(n).padStart(2, '0')] *)
Definition pad2 (n : nat) : string :=
  let s := dec_nat n in
  if (String.length s <? 2)%nat then "0" +:+ s else s.

End Num.

(** ** worker.js: the functions evaluated inside the page *)

Module PageFns.
Import Js Dom.

(** [a || b] on optional strings *)
Definition or_str (a : option string) (b : string) : string :=
  match a with
  | Some s => if String.eqb s "" then b else s
  | None => b
  end.

(** *** clickMuteHeuristic *)

Definition sound_terms : list string :=
  ["sound"; "audio"; "music"; "zvuk"; "zvuky"; "hudba"].
Definition off_terms : list string :=
  ["no"; "off"; "mute"; "disable"; "bez"; "vyp"].
Definition accept_terms : list string :=
  ["accept"; "ok"; "yes"; "ano"].

(** [score(el)] *)
Definition score (el : Element) : Z :=
  let t := Text.toLowerCase (or_str (el_innerText el) (or_str (el_textContent el) "")) in
  let s := 0 in
  let s := if Text.test_any sound_terms t then s + 2 else s in
  let s := if Text.test_any off_terms t then s + 3 else s in
  let s := if Text.test_any accept_terms t then s - 1 else s in
  s.

(** The candidates with their position in the document. *)
Fixpoint candidates_from (i : nat) (ns : list Element) : list (nat * Element) :=
  match ns with
  | [] => []
  | e :: rest =>
      if el_clickable e then (i, e) :: candidates_from (S i) rest
      else candidates_from (S i) rest
  end.

Definition candidates (d : Doc) : list (nat * Element) :=
  candidates_from 0 (nodes d).

(** The loop over the candidates: [best] and [bestScore]. *)
Fixpoint best_loop (cands : list (nat * Element)) (best : option nat) (bestScore : Z)
  : option nat * Z :=
  match cands with
  | [] => (best, bestScore)
  | (i, el) :: rest =>
      let s := score el in
      if bestScore <? s then best_loop rest (Some i) s
      else best_loop rest best bestScore
  end.

(** The selector the page function returns: the attribute selector for
    data-ww-click equal to 1. *)
Definition mark_selector : string := "[data-ww-click=" +:+ Text.dq +:+ "1" +:+ Text.dq +:+ "]".

Fixpoint update_nth (i : nat) (f : Element -> Element) (ns : list Element)
  : list Element :=
  match ns, i with
  | [], _ => []
  | e :: rest, O => f e :: rest
  | e :: rest, S i' => e :: update_nth i' f rest
  end.

(** The function given to [page.evaluate]: the document after it ran, and
    the selector it returns ([None] for [null]). *)
Definition mute_evaluate (d : Doc) : Doc * option string :=
  match best_loop (candidates d) None 0 with
  | (Some i, bestScore) =>
      if 3 <=? bestScore then
        (mkDoc (update_nth i (fun e => setAttribute e "data-ww-click" "1") (nodes d))
               (select d) (canvas d),
         Some mark_selector)
      else (d, None)
  | (None, _) => (d, None)
  end.

Definition is_marked (e : Element) : bool :=
  match getAttribute e "data-ww-click" with
  | Some v => String.eqb v "1"
  | None => false
  end.

Fixpoint first_marked_from (i : nat) (ns : list Element) : option nat :=
  match ns with
  | [] => None
  | e :: rest => if is_marked e then Some i else first_marked_from (S i) rest
  end.

(** The element [page.click(mark_selector)] acts on: the first element of
    the document matching the selector. *)
Definition click_target (d : Doc) : option nat := first_marked_from 0 (nodes d).

(** The position of the element [clickMuteHeuristic] clicks, if any. *)
Definition mute_clicked (d : Doc) : option nat :=
  match mute_evaluate d with
  | (d', Some _) => click_target d'
  | (_, None) => None
  end.

(** *** waitForCanvasPaint *)

(** The loop over the image data, four bytes a pixel; a read past the end
    is [undefined], which is neither [0] nor [255]. *)
Fixpoint scan_pixels (img : list Z) : bool :=
  match img with
  | [] => false
  | r :: g :: b :: a :: rest =>
      if negb (a =? 0) && negb ((r =? 255) && (g =? 255) && (b =? 255)) then true
      else scan_pixels rest
  | [r; g; b] => negb ((r =? 255) && (g =? 255) && (b =? 255))
  | _ => true
  end.

(** The function given to [page.evaluate]. *)
Definition painted (d : Doc) : bool :=
  match canvas d with
  | None => false
  | Some c =>
      match cv_ctx2d c with
      | None => true
      | Some ctx =>
          let w := Nat.min 64 (cv_width c) in
          let h := Nat.min 64 (cv_height c) in
          match getImageData ctx w h with
          | Some img => scan_pixels img
          | None => true
          end
      end
  end.

(** *** performExtracts *)

Definition text_of (e : Element) : JsVal :=
  JStr (Text.trim (or_str (el_textContent e) "")).

Definition attr_of (name : string) (e : Element) : JsVal :=
  match getAttribute e name with
  | Some v => JStr v
  | None => JNull
  end.

Definition html_of (e : Element) : JsVal := JStr (el_outerHTML e).

(** The shape shared by the text, attr and html page functions. *)
Definition pick (f : Element -> JsVal) (all : bool) (els : list Element) : JsVal :=
  if all then JArr (map f els)
  else match els with
       | [] => JNull
       | el :: _ => f el
       end.

End PageFns.

(** ** worker.js: the job *)

Module Worker.
Import Js Sys Engine Files Num.
Local Open Scope eff_scope.

(** The request [processRequest] receives.  Apart from [id], the fields are
    kept as the values the request file gave: the worker re-checks them. *)
Record RenderRequest := mkReq {
  req_id : string;
  req_op : JsVal;
  req_url : JsVal;
  req_html : JsVal;
  req_viewport : JsVal;
  req_fullPage : JsVal;
  req_waitUntil : JsVal;
  req_timeoutMs : JsVal;
  req_userAgent : JsVal;
  req_extraHeaders : JsVal;
  req_screenshot : JsVal;
  req_htmlOutput : JsVal;
  req_postWaitMs : JsVal;
  req_actions : JsVal;
  req_sessionId : option string;
  req_extract : JsVal;
  req_captureConsole : JsVal;
  req_captureNetwork : JsVal;
  req_screenshotOnEachAction : JsVal;
}.

Definition default_viewport : JsVal :=
  JObj [("width", JNum 1280); ("height", JNum 800); ("deviceScaleFactor", JNum 1)].

(** [obj.k = v] *)
Fixpoint set_assoc (k : string) (v : JsVal) (fs : list (string * JsVal))
  : list (string * JsVal) :=
  match fs with
  | [] => [(k, v)]
  | (k', v') :: rest =>
      if String.eqb k k' then (k, v) :: rest else (k', v') :: set_assoc k v rest
  end.

Definition set_field (obj : JsVal) (k : string) (v : JsVal) : JsVal :=
  match obj with
  | JObj fs => JObj (set_assoc k v fs)
  | _ => obj
  end.

Section WithEnv.
Variable env : Env.

(** *** performExtracts *)

Definition query (what : string) (sel : JsVal) (f : list Dom.Element -> JsVal)
  : M JsVal :=
  evaluate env what (fun d =>
    match Dom.select d (toStr sel) with
    | Some els => Ok (f els)
    | None => Throw "SyntaxError: not a valid selector"
    end).

(** One iteration of the loop: the results after it. *)
Definition extract_one (s : JsVal) (results : list JsVal) : M (list JsVal) :=
  match s with
  | JUndef | JNull => throw "TypeError: Cannot read properties of undefined"
  | _ =>
    let type := get s "type" in
    let selector := get s "selector" in
    if is_str type "text" then
      let* value := query "text" selector (PageFns.pick PageFns.text_of (truthy (get s "all"))) in
      ret (results ++ [JObj [("type", type); ("name", get s "name");
                             ("selector", selector); ("value", value)]])%list
    else if is_str type "attr" then
      let name := get s "name" in
      let* value := query "attr" selector
                          (PageFns.pick (PageFns.attr_of (toStr name)) (truthy (get s "all"))) in
      ret (results ++ [JObj [("type", type); ("key", or (get s "key") name);
                             ("selector", selector); ("value", value)]])%list
    else if is_str type "html" then
      let* value := query "html" selector (PageFns.pick PageFns.html_of (truthy (get s "all"))) in
      ret (results ++ [JObj [("type", type); ("name", get s "name");
                             ("selector", selector); ("value", value)]])%list
    else if is_str type "exists" then
      let* value := query "exists" selector
                          (fun els => JBool (match els with [] => false | _ => true end)) in
      ret (results ++ [JObj [("type", type); ("name", get s "name");
                             ("selector", selector); ("value", value)]])%list
    else ret results
  end.

Fixpoint extract_loop (specs : list JsVal) (results : list JsVal) : M (list JsVal) :=
  match specs with
  | [] => ret results
  | s :: rest =>
      let* results' := extract_one s results in
      extract_loop rest results'
  end.

(** [performExtracts(page, specs)] *)
Definition performExtracts (specs : list JsVal) : M (list JsVal) :=
  extract_loop specs [].

(** *** waitForCanvasPaint *)

(** The body of [for (;;)], at most [fuel] times. *)
Fixpoint paint_loop (fuel : nat) (t0 : Z) (timeoutMs intervalMs : JsVal) : M unit :=
  match fuel with
  | O => fun w => (Hang, w)
  | S fuel' =>
      let* painted := evaluate env "canvasPaint" (fun d => Ok (PageFns.painted d)) in
      if (painted : bool) then ret tt
      else
        let* t := now env in
        if lt_val timeoutMs (t - t0) then throw "waitForCanvasPaint timeout"
        else
          sleep intervalMs ;;
          paint_loop fuel' t0 timeoutMs intervalMs
  end.

(** [waitForCanvasPaint(page, timeoutMs, intervalMs)] *)
Definition waitForCanvasPaint (fuel : nat) (timeoutMs intervalMs : JsVal) : M unit :=
  let* t0 := now env in
  paint_loop fuel t0 timeoutMs intervalMs.

(** *** clickMuteHeuristic *)

Definition clickMuteHeuristic : M unit :=
  let* selector := evaluate env "muteHeuristic"
                            (fun d => Ok (snd (PageFns.mute_evaluate d))) in
  match selector with
  | Some sel => call env (CClick (JStr sel))
  | None => ret tt
  end.

(** *** runActions *)

Definition timeout_of (a : JsVal) : JsVal := nullish (get a "timeoutMs") (JNum 30000).

Definition waitSel (a : JsVal) : M unit :=
  call env (CWaitForSelector (get a "selector") (timeout_of a)).

Definition is_type_of (v : JsVal) (t : string) : bool := String.eqb (typeof v) t.

(** The [if / else if] chain on the action's type. *)
Definition exec_action (fuel : nat) (outDir : string) (i : nat) (a : JsVal) : M unit :=
  let type := get a "type" in
  let sel := get a "selector" in
  if is_str type "waitForSelector" && truthy sel then waitSel a
  else if is_str type "click" && truthy sel then
    waitSel a ;; call env (CClick sel)
  else if is_str type "hover" && truthy sel then
    waitSel a ;; call env (CHover sel)
  else if is_str type "type" && truthy sel && is_type_of (get a "text") "string" then
    waitSel a ;; call env (CType sel (get a "text") (nullish (get a "delay") (JNum 0)))
  else if is_str type "clickAt" && is_type_of (get a "x") "number"
                                && is_type_of (get a "y") "number" then
    call env (CMouseClick (get a "x") (get a "y"))
  else if is_str type "waitForTime" && is_type_of (get a "ms") "number" then
    sleep (get a "ms")
  else if is_str type "waitForFunction" && truthy (get a "fn") then
    call env (CWaitForFunction (get a "fn") (timeout_of a))
  else if is_str type "waitForCanvasPaint" then
    waitForCanvasPaint fuel (nullish (get a "timeoutMs") (JNum 60000))
                            (nullish (get a "intervalMs") (JNum 500))
  else if is_str type "muteHeuristic" then clickMuteHeuristic
  else if is_str type "screenshotElement" && truthy sel then
    (* [page.waitForSelector] resolves with the element handle, so the test
       [if (el)] passes whenever the wait did not throw *)
    waitSel a ;;
    match or (get a "file") (JStr ("step-" +:+ pad2 (i + 1) +:+ "-element.png")) with
    | JStr file => elementScreenshot env (Path.join outDir file)
    | _ => throw "TypeError [ERR_INVALID_ARG_TYPE]: The path argument must be of type string"
    end
  else if is_str type "press" && truthy (get a "key") then
    call env (CKeyPress (get a "key") (nullish (get a "delay") (JNum 0)))
  else ret tt.

(** The per-step snapshot taken when step tracing is on. *)
Definition step_snapshot (outDir : string) (i : nat) (snapAfterEach : bool) : M unit :=
  when snapAfterEach
    (screenshot env (Path.join outDir ("step-" +:+ pad2 (i + 1) +:+ ".png")) true).

(** The loop of [runActions], from index [i]. *)
Fixpoint runActions_from (fuel : nat) (i : nat) (actions : list JsVal)
    (outDir : string) (snapAfterEach : bool) : M unit :=
  match actions with
  | [] => ret tt
  | a :: rest =>
      exec_action fuel outDir i a ;;
      step_snapshot outDir i snapAfterEach ;;
      runActions_from fuel (S i) rest outDir snapAfterEach
  end.

(** [runActions(page, actions, outDir, snapAfterEach)] *)
Definition runActions (fuel : nat) (actions : list JsVal) (outDir : string)
    (snapAfterEach : bool) : M unit :=
  runActions_from fuel 0 actions outDir snapAfterEach.

End WithEnv.
End Worker.

Module Job.
Import Js Sys Engine Files Num Worker.
Local Open Scope eff_scope.

Section WithEnv.
Variable env : Env.

(** [if (Array.isArray(v) && v.length > 0)]: the elements to work on *)
Definition nonempty_array (v : JsVal) : option (list JsVal) :=
  match v with
  | JArr (x :: xs) => Some (x :: xs)
  | _ => None
  end.

(** The statements of the [try] block that follow the creation of the
    page. *)
Definition page_steps (fuel : nat) (req : RenderRequest) (outDir : string) : M unit :=
  when (truthy (req_userAgent req)) (call env (CSetUserAgent (req_userAgent req))) ;;
  when (truthy (req_extraHeaders req) && (0 <? keys_count (req_extraHeaders req))%nat)
       (call env (CSetExtraHTTPHeaders (req_extraHeaders req))) ;;
  let viewport := or (req_viewport req) default_viewport in
  call env (CSetViewport viewport) ;;
  let timeoutMs := nullish (req_timeoutMs req) (JNum 30000) in
  call env (CSetDefaultNavigationTimeout timeoutMs) ;;
  call env (CSetDefaultTimeout timeoutMs) ;;
  let waitUntil := or (req_waitUntil req) (JStr "networkidle2") in
  (if is_str (req_op req) "render_url" then
     if negb (truthy (req_url req)) then throw "url is required for op=render_url"
     else call env (CGoto (req_url req) waitUntil timeoutMs)
   else if is_str (req_op req) "render_html" then
     if negb (truthy (req_html req)) then throw "html is required for op=render_html"
     else call env (CSetContent (req_html req) waitUntil timeoutMs)
   else throw ("Unknown op: " +:+ toStr (req_op req))) ;;
  (match toNumber (req_postWaitMs req) with
   | Some ms =>
       when (truthy (req_postWaitMs req) && (0 <? ms)) (sleep (JNum (Z.min ms (5 * 60000))))
   | None => ret tt
   end) ;;
  (match nonempty_array (req_actions req) with
   | Some actions =>
       runActions env fuel actions outDir (truthy (req_screenshotOnEachAction req))
   | None => ret tt
   end) ;;
  when (truthy (req_htmlOutput req))
       (let* html := content env in
        writeFileAtomic env (Path.join outDir "page.html") (DText html)) ;;
  when (truthy (req_screenshot req))
       (screenshot env (Path.join outDir "screenshot.png") (truthy (req_fullPage req))) ;;
  match nonempty_array (req_extract req) with
  | Some specs =>
      let* extracted := performExtracts env specs in
      writeFileAtomic env (Path.join outDir "extract.json") (DJson (JArr extracted))
  | None => ret tt
  end.

(** [try { page = ...; steps } catch (err) { errorMessage = ... }
     finally { try { await page?.close() } catch {} }]:
    the error message, and whether a page was created.  The [page.on]
    listeners only fill the in-memory event arrays; what they collect is
    [env_console] and [env_network]. *)
Definition job_try (fuel : nat) (req : RenderRequest) (outDir : string)
    (context : option nat) : M (option string * bool) :=
  let* opened := try_catch (call env (CNewPage context) ;; ret None)
                           (fun e => ret (Some e)) in
  match opened with
  | Some e => ret (Some e, false)
  | None =>
      let* errorMessage :=
        try_finally
          (try_catch (page_steps fuel req outDir ;; ret None) (fun e => ret (Some e)))
          (attempt (call env CClosePage)) in
      ret (errorMessage, true)
  end.

(** [if (errorMessage)] *)
Definition error_set (errorMessage : option string) : option string :=
  match errorMessage with
  | Some m => if String.eqb m "" then None else Some m
  | None => None
  end.

Definition meta_started (req : RenderRequest) (startedAt : Z) : JsVal :=
  JObj [("id", JStr (req_id req)); ("op", req_op req);
        ("startedAt", JStr (env_iso env startedAt));
        ("url", req_url req); ("viewport", req_viewport req);
        ("fullPage", req_fullPage req); ("waitUntil", req_waitUntil req);
        ("hadError", JBool false)].

Definition meta_finished (meta : JsVal) (startedAt finishedAt : Z)
    (errorMessage : option string) : JsVal :=
  let m := set_field meta "finishedAt" (JStr (env_iso env finishedAt)) in
  let m := set_field m "durationMs" (JNum (finishedAt - startedAt)) in
  match error_set errorMessage with
  | Some e => set_field (set_field m "hadError" (JBool true)) "errorMessage" (JStr e)
  | None => m
  end.

Definition done_ok : JsVal := JObj [("status", JStr "ok")].
Definition done_error (e : string) : JsVal :=
  JObj [("status", JStr "error"); ("error", JStr e)].

(** The statements of [processRequest] after the [try] statement. *)
Definition finish (req : RenderRequest) (outDir metaPath : string) (meta : JsVal)
    (startedAt : Z) (errorMessage : option string) (listening : bool) : M unit :=
  let* finishedAt := now env in
  writeJSONAtomic env metaPath (meta_finished meta startedAt finishedAt errorMessage) ;;
  let donePath := Path.join outDir "done.json" in
  let consoleEvents :=
    if listening && truthy (req_captureConsole req) then env_console env else [] in
  let networkEvents :=
    if listening && truthy (req_captureNetwork req) then env_network env else [] in
  attempt
    (when (0 <? length consoleEvents)%nat
       (writeFileAtomic env (Path.join outDir "console.log.json") (DJson (JArr consoleEvents))) ;;
     when (0 <? length networkEvents)%nat
       (writeFileAtomic env (Path.join outDir "network.log.json") (DJson (JArr networkEvents)))) ;;
  match error_set errorMessage with
  | Some e =>
      writeJSONAtomic env donePath (done_error e) ;;
      throw e
  | None => writeJSONAtomic env donePath done_ok
  end.

(** [processRequest(browser, req, responsesDir, context)] *)
Definition processRequest (fuel : nat) (req : RenderRequest) (responsesDir : string)
    (context : option nat) : M unit :=
  let id := req_id req in
  let outDir := Path.join responsesDir id in
  ensureDir outDir ;;
  let* startedAt := now env in
  let meta := meta_started req startedAt in
  let metaPath := Path.join outDir "meta.json" in
  writeJSONAtomic env metaPath meta ;;
  let* r := job_try fuel req outDir context in
  finish req outDir metaPath meta startedAt (fst r) (snd r).

End WithEnv.
End Job.

(** ** watcher.js: the limiter *)

Module Limiter.

(** The closure state of [createLimiter(limit)]; tasks are named by
    numbers.  [immediates] counts the [setImmediate(runNext)] callbacks not
    yet run, [running] the tasks whose [fn()] was called and did not settle
    yet, [dispatched] every task ever started, in order. *)
Record State := mkState {
  active : Z;
  queue : list nat;
  immediates : nat;
  running : list nat;
  dispatched : list nat;
  submitted : list nat;
}.

Definition init : State := mkState 0 [] 0 [] [] [].

(** [runNext()] *)
Definition runNext (limit : Z) (s : State) : State :=
  if limit <=? active s then s
  else
    match queue s with
    | [] => s
    | item :: rest =>
        mkState (active s + 1) rest (immediates s)
                (running s ++ [item]) (dispatched s ++ [item]) (submitted s)
    end.

(** [enqueue(fn)] *)
Definition enqueue (fn : nat) (s : State) : State :=
  mkState (active s) (queue s ++ [fn]) (S (immediates s))
          (running s) (dispatched s) (submitted s ++ [fn]).

Fixpoint remove_first (t : nat) (l : list nat) : list nat :=
  match l with
  | [] => []
  | x :: rest => if (x =? t)%nat then rest else x :: remove_first t rest
  end.

Fixpoint mem (t : nat) (l : list nat) : bool :=
  match l with
  | [] => false
  | x :: rest => (x =? t)%nat || mem t rest
  end.

(** The [finally] callback of a task that settled. *)
Definition settled (t : nat) (s : State) : State :=
  mkState (active s - 1) (queue s) (S (immediates s))
          (remove_first t (running s)) (dispatched s) (submitted s).

(** What can happen next: a caller enqueues a task, the event loop runs one
    pending immediate, or a running task settles. *)
Inductive Event :=
| Enqueue (fn : nat)
| Immediate
| Settle (t : nat).

Definition step (limit : Z) (s : State) (e : Event) : State :=
  match e with
  | Enqueue fn => enqueue fn s
  | Immediate =>
      match immediates s with
      | O => s
      | S k =>
          runNext limit (mkState (active s) (queue s) k (running s)
                                 (dispatched s) (submitted s))
      end
  | Settle t => if mem t (running s) then settled t s else s
  end.

Definition run (limit : Z) (es : list Event) : State :=
  fold_left (step limit) es init.

(** What every reachable state of the limiter satisfies: the counter is the
    number of running tasks and within the bound, tasks start in submission
    order, and enough immediates are pending to fill the free slots. *)
Record Inv (limit : Z) (s : State) : Prop := mkInv {
  inv_active : active s = Z.of_nat (length (running s));
  inv_bound : active s <= limit;
  inv_fifo : dispatched s ++ queue s = submitted s;
  inv_wake : Z.min (Z.of_nat (length (queue s))) (limit - active s)
             <= Z.of_nat (immediates s);
}.

End Limiter.

(** ** watcher.js: normalisation, claiming and the session registry *)

Module Watcher.
Import Js Sys Engine Files Num Worker Job.
Local Open Scope eff_scope.

(** The directories of the process: [REQUESTS_DIR], [PROCESSING_DIR] and
    [RESPONSES_DIR] for a working directory [cwd]. *)
Definition REQUESTS_DIR (cwd : string) : string := Path.resolve cwd cwd "requests".
Definition PROCESSING_DIR (cwd : string) : string := Path.join (REQUESTS_DIR cwd) "processing".
Definition RESPONSES_DIR (cwd : string) : string := Path.resolve cwd cwd "responses".

(** [v !== undefined ? !!v : true] *)
Definition flag_default_true (v : JsVal) : JsVal :=
  match v with
  | JUndef => JBool true
  | _ => JBool (truthy v)
  end.

Section WithEnv.
Variable env : Env.

(** [normalizeRequest(raw)] *)
Definition normalizeRequest (raw : JsVal) : M RenderRequest :=
  match raw with
  | JUndef | JNull => throw "TypeError: Cannot read properties of null"
  | _ =>
    let* id :=
      (if truthy (get raw "id") then ret (toStr (get raw "id"))
       else randomUUID env) in
    let op := get raw "op" in
    if negb (is_str op "render_url") && negb (is_str op "render_html") then
      throw ("op must be " +:+ Text.dq +:+ "render_url" +:+ Text.dq +:+ " or "
             +:+ Text.dq +:+ "render_html" +:+ Text.dq)
    else if is_str op "render_url" && negb (truthy (get raw "url")) then
      throw "url is required for op=render_url"
    else if is_str op "render_html" && negb (truthy (get raw "html")) then
      throw "html is required for op=render_html"
    else
      ret {| req_id := id;
             req_op := op;
             req_url := get raw "url";
             req_html := get raw "html";
             req_viewport := or (get raw "viewport") default_viewport;
             req_fullPage := flag_default_true (get raw "fullPage");
             req_waitUntil := or (get raw "waitUntil") (JStr "networkidle2");
             req_timeoutMs := nullish (get raw "timeoutMs") (JNum 30000);
             req_userAgent := get raw "userAgent";
             req_extraHeaders := get raw "extraHeaders";
             req_screenshot := flag_default_true (get raw "screenshot");
             req_htmlOutput := flag_default_true (get raw "htmlOutput");
             req_postWaitMs := get raw "postWaitMs";
             req_actions := if isArray (get raw "actions") then get raw "actions" else JUndef;
             req_sessionId := if truthy (get raw "sessionId")
                              then Some (toStr (get raw "sessionId")) else None;
             req_extract := if isArray (get raw "extract") then get raw "extract" else JUndef;
             req_captureConsole := JBool (truthy (get raw "captureConsole"));
             req_captureNetwork := JBool (truthy (get raw "captureNetwork"));
             req_screenshotOnEachAction := JBool (truthy (get raw "screenshotOnEachAction"));
          |}
  end.

(** A job handed to the limiter: the closure captures the request and the
    claimed path. *)
Record Task := mkTask {
  t_req : RenderRequest;
  t_claimed : string;
}.

(** The state of [main]: the world, the session registry, the number of
    browsing contexts created so far (a context is named by its creation
    number) and the tasks passed to [enqueue], in order. *)
Record Main := mkMain {
  world : World;
  sessionContexts : gmap string nat;
  nctx : nat;
  enqueued : list Task;
  shuttingDown : bool;
}.

Definition main0 (fs0 : gmap string File) : Main :=
  mkMain (world0 fs0) ∅ 0 [] false.

Definition with_world (m : Main) (w : World) : Main :=
  mkMain w (sessionContexts m) (nctx m) (enqueued m) (shuttingDown m).

(** *** The [add] handler, one step per [await] *)

Inductive HState :=
| HRead (filePath : string)
| HRename (filePath : string) (req : RenderRequest) (claimedPath : string)
| HReport (filePath : string) (msg : string)
| HWaiting (task : nat)
| HDone.

(** [watcher.on('add', ...)] up to its first [await] *)
Definition on_add (m : Main) (filePath : string) : HState :=
  if shuttingDown m then HDone else HRead filePath.

(** The [catch] block of the handler: a synthetic error response. *)
Definition report (cwd filePath msg : string) : M unit :=
  attempt
    (let* raw := try_catch (readJSON filePath) (fun _ => ret (JObj [])) in
     let* id := (if truthy (get raw "id") then ret (get raw "id")
                 else let* u := randomUUID env in ret (JStr u)) in
     match id with
     | JStr id =>
         let outDir := Path.join (RESPONSES_DIR cwd) id in
         ensureDir outDir ;;
         let* startedAt := now env in
         let* finishedAt := now env in
         writeJSONAtomic env (Path.join outDir "meta.json")
           (JObj [("id", JStr id); ("op", get raw "op");
                  ("startedAt", JStr (env_iso env startedAt));
                  ("finishedAt", JStr (env_iso env finishedAt));
                  ("durationMs", JNum 0);
                  ("url", get raw "url"); ("viewport", get raw "viewport");
                  ("fullPage", get raw "fullPage"); ("waitUntil", get raw "waitUntil");
                  ("hadError", JBool true); ("errorMessage", JStr msg)]) ;;
         writeJSONAtomic env (Path.join outDir "done.json") (done_error msg)
     | _ => throw "TypeError [ERR_INVALID_ARG_TYPE]: The path argument must be of type string"
     end) ;;
  attempt (fs_unlink filePath).

Definition handler_step (cwd : string) (h : HState) (m : Main) : HState * Main :=
  match h with
  | HRead filePath =>
      match (let* raw := readJSON filePath in normalizeRequest raw) (world m) with
      | (Ok req, w) =>
          (HRename filePath req (Path.join (PROCESSING_DIR cwd) (req_id req +:+ ".json")),
           with_world m w)
      | (Throw msg, w) => (HReport filePath msg, with_world m w)
      | (Hang, w) => (HDone, with_world m w)
      end
  | HRename filePath req claimedPath =>
      let '(_, w) := attempt (fs_rename filePath claimedPath) (world m) in
      (HWaiting (length (enqueued m)),
       mkMain w (sessionContexts m) (nctx m)
              (enqueued m ++ [mkTask req claimedPath]) (shuttingDown m))
  | HReport filePath msg =>
      let '(_, w) := report cwd filePath msg (world m) in
      (HDone, with_world m w)
  | HWaiting _ => (h, m)
  | HDone => (h, m)
  end.

(** *** The task given to the limiter, one step per [await] *)

Inductive TState :=
| TStart
| TCreating (sessionId : string)
| TRun (context : option nat)
| TDone.

Definition session_wanted (req : RenderRequest) : option string :=
  match req_sessionId req with
  | Some s => if String.eqb s "" then None else Some s
  | None => None
  end.

(** The tail of the task once [processRequest] settled or an earlier
    statement threw: the status line, then the [finally] block. *)
Definition task_end (t : Task) : M unit :=
  let* _ := now env in
  attempt (fs_unlink (t_claimed t)).

Definition task_step (fuel : nat) (cwd : string) (t : Task) (ts : TState) (m : Main)
  : TState * Main :=
  match ts with
  | TStart =>
      let '(_, w) := now env (world m) in
      match session_wanted (t_req t) with
      | Some sid =>
          match sessionContexts m !! sid with
          | Some c => (TRun (Some c), with_world m w)
          | None => (TCreating sid, with_world m w)
          end
      | None => (TRun None, with_world m w)
      end
  | TCreating sid =>
      match call env CCreateContext (world m) with
      | (Ok _, w) =>
          let c := nctx m in
          (TRun (Some c),
           mkMain w (<[sid := c]> (sessionContexts m)) (S c) (enqueued m) (shuttingDown m))
      | (_, w) =>
          let '(_, w') := task_end t w in
          (TDone, with_world m w')
      end
  | TRun context =>
      let '(_, w) := processRequest env fuel (t_req t) (RESPONSES_DIR cwd) context (world m) in
      let '(_, w') := task_end t w in
      (TDone, with_world m w')
  | TDone => (ts, m)
  end.

End WithEnv.
End Watcher.

(** ** Interleavings: which pending continuation runs next *)

Module Sched.
Import Sys Engine Worker Watcher.

Section WithEnv.
Variable env : Env.
Variable cwd : string.

(** Resume handler [i]. *)
Definition resume_handler (st : list HState * Main) (i : nat) : list HState * Main :=
  let '(hs, m) := st in
  match hs !! i with
  | Some h => let '(h', m') := handler_step env cwd h m in (<[i := h']> hs, m')
  | None => st
  end.

Definition run_handlers (sched : list nat) (hs : list HState) (m : Main)
  : list HState * Main :=
  fold_left resume_handler sched (hs, m).

(** Resume the task in slot [i]; a slot holds a task and where it stands. *)
Definition resume_task (fuel : nat) (st : list (Task * TState) * Main) (i : nat)
  : list (Task * TState) * Main :=
  let '(ts, m) := st in
  match ts !! i with
  | Some (t, s) => let '(s', m') := task_step env fuel cwd t s m in (<[i := (t, s')]> ts, m')
  | None => st
  end.

Definition run_tasks (fuel : nat) (sched : list nat) (ts : list (Task * TState)) (m : Main)
  : list (Task * TState) * Main :=
  fold_left (resume_task fuel) sched (ts, m).

End WithEnv.
End Sched.

(** ** Small documents, requests and environments used to run the model *)

Module Fixtures.
Import Js Dom Sys Engine Worker.

Definition button (text : string) : Element :=
  mkElement true (Some text) (Some text) [] ("<button>" +:+ text +:+ "</button>").

(** A button that already carries the attribute data-ww-click = 1. *)
Definition marked_button (text : string) : Element :=
  setAttribute (button text) "data-ww-click" "1".

Definition doc_of (ns : list Element) : Doc :=
  mkDoc ns (fun _ => Some []) None.

(** An engine in which every call resolves, showing an empty document; the
    clock advances one second a reading. *)
Definition env0 : Env :=
  mkEnv (fun k => "u" +:+ dec_nat k) (fun k => 1000 * Z.of_nat k) dec_Z
        (fun _ _ => None) (fun _ => doc_of []) (fun _ => "<html></html>") [] [].

(** The document of the markup h1 id=t holding the text Hi: the selector
    #t matches the heading, any other selector matches nothing. *)
Definition heading : Element :=
  mkElement false (Some "Hi") (Some "Hi") [("id", "t")]
            ("<h1 id=" +:+ Text.dq +:+ "t" +:+ Text.dq +:+ ">Hi</h1>").

Definition heading_doc : Doc :=
  mkDoc [heading] (fun sel => if String.eqb sel "#t" then Some [heading] else Some []) None.

Definition env_heading : Env :=
  mkEnv (fun k => "u" +:+ dec_nat k) (fun k => 1000 * Z.of_nat k) dec_Z
        (fun _ _ => None) (fun _ => heading_doc) (fun _ => "<h1>Hi</h1>") [] [].

Definition spec_text (sel : string) : JsVal :=
  JObj [("type", JStr "text"); ("selector", JStr sel)].
Definition spec_exists (sel : string) : JsVal :=
  JObj [("type", JStr "exists"); ("selector", JStr sel)].
Definition spec_attr_all (sel name : string) : JsVal :=
  JObj [("type", JStr "attr"); ("selector", JStr sel); ("name", JStr name);
        ("all", JBool true)].

(** A page whose canvas is blank (transparent) until the engine call
    numbered [from], and shows one opaque coloured pixel afterwards. *)
Definition canvas_doc (painted_now : bool) : Doc :=
  mkDoc [] (fun _ => Some [])
        (Some (mkCanvas 300 150
                 (Some (mkCtx2d false
                          (fun x y => if painted_now && (x =? 3)%nat && (y =? 1)%nat
                                      then (10, 20, 30, 255) else (0, 0, 0, 0)))))).

Definition env_canvas (from : nat) : Env :=
  mkEnv (fun k => "u" +:+ dec_nat k) (fun k => 1000 * Z.of_nat k) dec_Z
        (fun _ _ => None) (fun k => canvas_doc (from <=? k)%nat)
        (fun _ => "<canvas></canvas>") [] [].

(** A request file whose id climbs out of the responses directory. *)
Definition traversal_raw : JsVal :=
  JObj [("id", JStr "../../etc/x"); ("op", JStr "render_html");
        ("html", JStr "<p>hi</p>")].

(** A request for literal content with every default applied. *)
Definition html_req (id html : string) : RenderRequest :=
  mkReq id (JStr "render_html") JUndef (JStr html) default_viewport (JBool true)
        (JStr "networkidle2") (JNum 30000) JUndef JUndef (JBool true) (JBool true)
        JUndef JUndef None JUndef (JBool false) (JBool false) (JBool false).

(** The world after the worker processed the raw request [raw], with
    [/srv/app] as the working directory. *)
Definition processed (env : Env) (raw : JsVal) : option (Res unit * World) :=
  match Watcher.normalizeRequest env raw (world0 ∅) with
  | (Ok req, w) =>
      Some (Job.processRequest env 5 req (Watcher.RESPONSES_DIR "/srv/app") None w)
  | _ => None
  end.

(** The same request with step tracing on and one action. *)
Definition traced_req (id html : string) : RenderRequest :=
  mkReq id (JStr "render_html") JUndef (JStr html) default_viewport (JBool true)
        (JStr "networkidle2") (JNum 30000) JUndef JUndef (JBool true) (JBool true)
        JUndef (JArr [JObj [("type", JStr "waitForTime"); ("ms", JNum 10)]])
        None JUndef (JBool false) (JBool false) (JBool true).

(** A request that waits two seconds for a canvas to paint. *)
Definition paint_req (id html : string) : RenderRequest :=
  mkReq id (JStr "render_html") JUndef (JStr html) default_viewport (JBool true)
        (JStr "networkidle2") (JNum 30000) JUndef JUndef (JBool true) (JBool true)
        JUndef (JArr [JObj [("type", JStr "waitForCanvasPaint"); ("timeoutMs", JNum 2000)]])
        None JUndef (JBool false) (JBool false) (JBool false).

(** An engine whose navigation fails. *)
Definition env_nav_fails : Env :=
  mkEnv (fun k => "u" +:+ dec_nat k) (fun k => 1000 * Z.of_nat k) dec_Z
        (fun _ c => match c with
                    | CGoto _ _ _ | CSetContent _ _ _ =>
                        Some "Navigation timeout of 30000 ms exceeded"
                    | _ => None
                    end)
        (fun _ => doc_of []) (fun _ => "<html></html>") [] [].

(** A request file for literal content, with an id and optionally a
    session. *)
Definition raw_job (id : string) (session : option string) : JsVal :=
  JObj ([("id", JStr id); ("op", JStr "render_html"); ("html", JStr "<p>hi</p>")]
        ++ match session with
           | Some s => [("sessionId", JStr s)]
           | None => []
           end).

(** The inbox holding one request file. *)
Definition inbox1 (name : string) (raw : JsVal) : gmap string File :=
  {[ Path.join (Watcher.REQUESTS_DIR "/srv/app") name := Complete (DJson raw) ]}.

(** The inbox holding the same request under two names. *)
Definition inbox2 (name1 name2 : string) (raw : JsVal) : gmap string File :=
  <[ Path.join (Watcher.REQUESTS_DIR "/srv/app") name2 := Complete (DJson raw) ]>
    (inbox1 name1 raw).

(** Two tasks of one session, as the limiter holds them. *)
Definition session_task (id sid : string) : Watcher.Task :=
  Watcher.mkTask
    (mkReq id (JStr "render_html") JUndef (JStr "<p>hi</p>") default_viewport (JBool true)
           (JStr "networkidle2") (JNum 30000) JUndef JUndef (JBool true) (JBool true)
           JUndef JUndef (Some sid) JUndef (JBool false) (JBool false) (JBool false))
    (Path.join (Watcher.PROCESSING_DIR "/srv/app") (id +:+ ".json")).

(** An engine that cannot create browsing contexts. *)
Definition env_no_context : Env :=
  mkEnv (fun k => "u" +:+ dec_nat k) (fun k => 1000 * Z.of_nat k) dec_Z
        (fun _ c => match c with
                    | CCreateContext => Some "Protocol error: Target closed"
                    | _ => None
                    end)
        (fun _ => doc_of []) (fun _ => "<html></html>") [] [].

Definition click_without_selector : JsVal := JObj [("type", JStr "click")].
Definition clickAt_text_coordinates : JsVal :=
  JObj [("type", JStr "clickAt"); ("x", JStr "10"); ("y", JNum 20)].
Definition unknown_kind : JsVal := JObj [("type", JStr "scroll"); ("selector", JStr "#a")].

End Fixtures.

(** The tasks a run of events submits, in order. *)
Definition submissions (es : list Limiter.Event) : list nat :=
  flat_map (fun e => match e with Limiter.Enqueue fn => [fn] | _ => [] end) es.

(** ** The action kinds and their required fields, as the type
    [PageAction] of the client declares them *)

Module ActionKinds.
Import Js Num.

Definition recognized : list string :=
  ["waitForSelector"; "click"; "hover"; "type"; "clickAt"; "waitForTime";
   "waitForFunction"; "waitForCanvasPaint"; "muteHeuristic";
   "screenshotElement"; "press"].

(** The action's [type] is one of the recognized kinds. *)
Definition known_type (a : JsVal) : bool :=
  match get a "type" with
  | JStr s => existsb (String.eqb s) recognized
  | _ => false
  end.

Definition absent (a : JsVal) (k : string) : bool :=
  match get a k with
  | JUndef | JNull => true
  | _ => false
  end.

Definition not_a (a : JsVal) (k : string) (t : string) : bool :=
  negb (String.eqb (typeof (get a k)) t).

(** A required field of the action's kind is missing: a selector, function
    text or key that is not there, coordinates or a duration that are not
    numbers, a text that is not a string. *)
Definition missing_required (a : JsVal) : bool :=
  match get a "type" with
  | JStr s =>
      if String.eqb s "waitForSelector" then absent a "selector"
      else if String.eqb s "click" then absent a "selector"
      else if String.eqb s "hover" then absent a "selector"
      else if String.eqb s "type" then absent a "selector" || not_a a "text" "string"
      else if String.eqb s "clickAt" then not_a a "x" "number" || not_a a "y" "number"
      else if String.eqb s "waitForTime" then not_a a "ms" "number"
      else if String.eqb s "waitForFunction" then absent a "fn"
      else if String.eqb s "screenshotElement" then absent a "selector"
      else if String.eqb s "press" then absent a "key"
      else false
  | _ => false
  end.

End ActionKinds.

(** ** What an extraction result must show of its spec *)

Module ExtractSpec.
Import Js Num Dom Engine.

(** The spec is of one of the four kinds. *)
Definition four_kinds (s : JsVal) : bool :=
  is_str (get s "type") "text" || is_str (get s "type") "attr"
  || is_str (get s "type") "html" || is_str (get s "type") "exists".

(** The spec asks for one element's text, attribute or markup. *)
Definition single_valued (s : JsVal) : bool :=
  (is_str (get s "type") "text" || is_str (get s "type") "attr"
   || is_str (get s "type") "html")
  && negb (truthy (get s "all")).

(** Entry [r] answers spec [s] on document [d]: same type and selector; a
    boolean telling whether the selector matches for an existence spec;
    [null] for a single-valued spec whose selector matches nothing. *)
Definition mirrors (d : Doc) (s r : JsVal) : Prop :=
  get r "type" = get s "type"
  /\ get r "selector" = get s "selector"
  /\ (is_str (get s "type") "exists" = true ->
      exists b, get r "value" = JBool b
                /\ (b = true <-> exists e els,
                                   select d (toStr (get s "selector")) = Some (e :: els)))
  /\ (single_valued s = true ->
      select d (toStr (get s "selector")) = Some [] ->
      get r "value" = JNull).

(** The entries answer the specs one for one, in order; the k-th spec is
    evaluated on the document of the k-th engine call. *)
Fixpoint mirror_list (env : Env) (k : nat) (specs results : list JsVal) : Prop :=
  match specs, results with
  | [], [] => True
  | s :: specs', r :: results' =>
      mirrors (env_doc env k) s r /\ mirror_list env (S k) specs' results'
  | _, _ => False
  end.

(** The pass can run: every page evaluation resolves and every selector is
    one the document accepts. *)
Definition extract_ready (env : Env) (specs : list JsVal) : Prop :=
  (forall k what, env_engine env k (Sys.CEvaluate what) = None)
  /\ (forall k s, In s specs ->
        is_Some (select (env_doc env k) (toStr (get s "selector")))).

(** The engine calls an extraction pass over [specs] makes. *)
Definition extract_calls (specs : list JsVal) : list Sys.Event :=
  map (fun s => Sys.ECall (Sys.CEvaluate (toStr (get s "type"))) None) specs.

End ExtractSpec.

(** ** What counts as a painted canvas *)

Module PaintSpec.
Import Js Dom Engine.

(** A pixel is painted: not fully transparent and not pure white. *)
Definition painted_pixel (p : Z * Z * Z * Z) : Prop :=
  let '(r, g, b, a) := p in
  a <> 0 /\ ~ (r = 255 /\ g = 255 /\ b = 255).

(** The test the scan applies to one pixel. *)
Definition painted_b (p : Z * Z * Z * Z) : bool :=
  let '(r, g, b, a) := p in
  negb (a =? 0) && negb ((r =? 255) && (g =? 255) && (b =? 255)).

(** The bytes of a list of pixels. *)
Definition chunks (ps : list (Z * Z * Z * Z)) : list Z :=
  flat_map (fun p => let '(r, g, b, a) := p in [r; g; b; a]) ps.

(** The document shows a canvas that counts as painted: the first canvas
    has no 2D context, or reading its pixels throws, or one pixel of its
    top-left region of at most 64 by 64 pixels is painted. *)
Definition shows_paint (d : Doc) : Prop :=
  exists c, canvas d = Some c
    /\ (cv_ctx2d c = None
        \/ exists ctx, cv_ctx2d c = Some ctx
             /\ (getImageData ctx (Nat.min 64 (cv_width c)) (Nat.min 64 (cv_height c)) = None
                 \/ exists x y, (x < 64)%nat /\ (x < cv_width c)%nat
                                /\ (y < 64)%nat /\ (y < cv_height c)%nat
                                /\ painted_pixel (cx_pixel ctx x y))).

(** The first [n] polls that start at engine call [k] and clock reading [c]
    see no paint and stay within the deadline; [t0] is the start time. *)
Definition quiet_polls (env : Env) (k c : nat) (t0 : Z) (timeoutMs : JsVal) (n : nat)
  : Prop :=
  forall j, (j < n)%nat ->
    PageFns.painted (env_doc env (k + j)) = false
    /\ Num.lt_val timeoutMs (env_now env (c + j) - t0) = false.

(** The trace of [n] unsuccessful polls followed by a last evaluation. *)
Fixpoint poll_trace (intervalMs : JsVal) (n : nat) : list Sys.Event :=
  match n with
  | O => [Sys.ECall (Sys.CEvaluate "canvasPaint") None]
  | S n' =>
      Sys.ECall (Sys.CEvaluate "canvasPaint") None :: Sys.ESleep intervalMs
      :: poll_trace intervalMs n'
  end.

End PaintSpec.

(** ** Traces *)

Module Trace.
Import Sys.

(** A computation only ever adds events to the log. *)
Definition grows {A} (m : M A) : Prop :=
  forall w, exists evs, log (snd (m w)) = log w ++ evs.

(** The path an event writes, creates or renames into. *)
Definition written_path (e : Event) : option string :=
  match e with
  | EWriteOpen p => Some p
  | EWriteDone p _ => Some p
  | ERename _ dst true => Some dst
  | EMkdir d => Some d
  | _ => None
  end.

(** A reader could have seen the file at [p] partially written: some event
    of the log left it in that state. *)
Definition seen_partial (p : string) (l : list (Event * gmap string File)) : bool :=
  existsb (fun ef => match snd ef !! p with
                     | Some Partial => true
                     | _ => false
                     end) l.

(** The temporary name [writeFileAtomic] uses for [filePath] with the
    identifier [u]. *)
Definition tmp_name (filePath u : string) : string :=
  Path.join (Path.dirname filePath) ("." +:+ Path.basename filePath +:+ ".tmp-" +:+ u).

(** The events of one [writeFileAtomic(filePath, d)]. *)
Definition atomic_write (filePath u : string) (d : Data) : list Event :=
  [EMkdir (Path.dirname filePath);
   EWriteOpen (tmp_name filePath u);
   EWriteDone (tmp_name filePath u) d;
   ERename (tmp_name filePath u) filePath true].

(** How many events of a log satisfy [test]. *)
Definition count_events (test : Event -> bool) (l : list (Event * gmap string File)) : nat :=
  length (filter (fun ef => test (fst ef) = true) l).

Definition is_new_page (e : Event) : bool :=
  match e with ECall (CNewPage _) _ => true | _ => false end.

Definition is_create_context (e : Event) : bool :=
  match e with ECall CCreateContext _ => true | _ => false end.

Definition is_rename_into (dst : string) (ok : bool) (e : Event) : bool :=
  match e with
  | ERename _ d o => String.eqb d dst && Bool.eqb o ok
  | _ => false
  end.

(** [p] lies in the directory [dir]. *)
Definition inside (dir p : string) : bool :=
  String.eqb p dir || Text.starts_with (dir +:+ "/") p.

(** No event of the list touches a path inside [dir]. *)
Definition all_outside (dir : string) (evs : list Event) : bool :=
  forallb (fun e => match written_path e with
                    | Some p => negb (inside dir p)
                    | None => true
                    end) evs.

End Trace.

(** ** When a job settles *)

Module Liveness.
Import Js Num Sys Engine Worker.

(** A computation never stays pending. *)
Definition settles {A} (m : M A) : Prop :=
  forall w, fst (m w) <> Hang.

(** The clock moves on between two readings. *)
Definition clock_advances (env : Env) : Prop :=
  forall k, env_now env k < env_now env (S k).

(** The actions of a request, as [processRequest] runs them. *)
Definition actions_of (req : RenderRequest) : list JsVal :=
  match Job.nonempty_array (req_actions req) with
  | Some actions => actions
  | None => []
  end.

(** The marker a job ends with, by its error message. *)
Definition marker_of (errorMessage : option string) : JsVal :=
  match Job.error_set errorMessage with
  | Some e => Job.done_error e
  | None => Job.done_ok
  end.

(** How [processRequest] settles, by the error message. *)
Definition outcome_of (errorMessage : option string) : Res unit :=
  match Job.error_set errorMessage with
  | Some e => Throw e
  | None => Ok tt
  end.

(** The deadline of a paint wait, when it is a number. *)
Definition paint_deadline (a : JsVal) : option Z :=
  toNumber (nullish (get a "timeoutMs") (JNum 60000)).

(** Every paint wait of the list has a deadline that is a number. *)
Definition deadlines_set (actions : list JsVal) : Prop :=
  Forall (fun a => is_str (get a "type") "waitForCanvasPaint" = true ->
                   is_Some (paint_deadline a)) actions.

(** The number of polls after which a paint wait has settled. *)
Definition polls_needed (a : JsVal) : nat :=
  if is_str (get a "type") "waitForCanvasPaint" then
    match paint_deadline a with
    | Some t => (Z.to_nat t + 1)%nat
    | None => 0%nat
    end
  else 0%nat.

(** The polls the longest paint wait of the list needs. *)
Definition patience (actions : list JsVal) : nat :=
  fold_right (fun a n => Nat.max (polls_needed a) n) 0%nat actions.

End Liveness.

(** ** What [normalizeRequest] accepts *)

Module Validation.
Import Js Num Sys Worker.

(** The operation is one of the two kinds and its payload is there. *)
Definition payload_present (raw : JsVal) : bool :=
  (is_str (get raw "op") "render_url" && truthy (get raw "url"))
  || (is_str (get raw "op") "render_html" && truthy (get raw "html")).

(** The raw value is one [normalizeRequest] turns into a request. *)
Definition accepted (raw : JsVal) : bool :=
  match raw with
  | JUndef | JNull => false
  | _ => payload_present raw
  end.

(** The navigation call the worker makes for a request. *)
Definition navigation_of (req : RenderRequest) : Call :=
  if is_str (req_op req) "render_url"
  then CGoto (req_url req) (req_waitUntil req) (req_timeoutMs req)
  else CSetContent (req_html req) (req_waitUntil req) (req_timeoutMs req).

(** Every call to the engine resolves. *)
Definition engine_resolves (env : Engine.Env) : Prop :=
  forall k c, Engine.env_engine env k c = None.

End Validation.

(** ** watcher.js: the configured bound *)

Module Concurrency.
Import Limiter.

Fixpoint leading_digits (s : string) : list Z :=
  match s with
  | EmptyString => []
  | String c s' =>
      match Num.digit_val c with
      | Some d => d :: leading_digits s'
      | None => []
      end
  end.

Definition digits_value (ds : list Z) : Z :=
  fold_left (fun acc d => 10 * acc + d) ds 0.

(** [parseInt(s, 10)]: leading white space is skipped, a sign is read, then
    the longest run of decimal digits; [None] is NaN (no digit there). *)
Definition parseInt10 (s : string) : option Z :=
  let t := Text.trim_start s in
  let '(negative, rest) :=
    match t with
    | String c r =>
        if Ascii.eqb c (Ascii.ascii_of_nat 45) then (true, r)
        else if Ascii.eqb c (Ascii.ascii_of_nat 43) then (false, r)
        else (false, t)
    | EmptyString => (false, t)
    end in
  match leading_digits rest with
  | [] => None
  | ds => Some (if negative then - digits_value ds else digits_value ds)
  end.

(** [Math.max(1, x)]: NaN when [x] is. *)
Definition max1 (x : option Z) : option Z := option_map (Z.max 1) x.

(** [CONCURRENCY], for the value of the environment variable of that name
    ([None] when it is not set). *)
Definition CONCURRENCY (v : option string) : option Z :=
  max1 (parseInt10 (match v with
                    | Some s => if String.eqb s "" then "1" else s
                    | None => "1"
                    end)).

(** [active >= limit] for a bound that may be NaN *)
Definition at_limit (limit : option Z) (active : Z) : bool :=
  match limit with
  | Some l => l <=? active
  | None => false
  end.

(** [runNext()] of a limiter made with that bound *)
Definition runNext (limit : option Z) (s : State) : State :=
  if at_limit limit (active s) then s
  else
    match queue s with
    | [] => s
    | item :: rest =>
        mkState (active s + 1) rest (immediates s)
                (running s ++ [item]) (dispatched s ++ [item]) (submitted s)
    end.

Definition step (limit : option Z) (s : State) (e : Event) : State :=
  match e with
  | Enqueue fn => enqueue fn s
  | Immediate =>
      match immediates s with
      | O => s
      | S k =>
          runNext limit (mkState (active s) (queue s) k (running s)
                                 (dispatched s) (submitted s))
      end
  | Settle t => if mem t (running s) then settled t s else s
  end.

Definition run (limit : option Z) (es : list Event) : State :=
  fold_left (step limit) es init.

(** A burst: [n] tasks are enqueued, then [n] immediates run. *)
Definition burst (n : nat) : list Event :=
  map Enqueue (seq 0 n) ++ repeat Immediate n.

End Concurrency.

(** An event of the limiter other than a submission. *)
Definition not_a_submission (e : Limiter.Event) : Prop :=
  match e with
  | Limiter.Enqueue _ => False
  | _ => True
  end.

(** ** What a computation is confined to *)

Module Confined.
Import Sys.

(** Every event a computation adds to the log passes the test. *)
Definition only (P : Event -> bool) {A} (m : M A) : Prop :=
  forall w, exists evs,
    log (snd (m w)) = log w ++ evs /\ forallb (fun ef => P (fst ef)) evs = true.

(** What the steps of a job are made of: engine calls other than the
    creation of a context, the creation of a page and the closing of the
    page; directory creations, file writes, renames that succeed, sleeps. *)
Definition page_work (e : Event) : bool :=
  match e with
  | ECall CCreateContext _ | ECall (CNewPage _) _ | ECall CClosePage _ => false
  | ECall _ _ => true
  | EMkdir _ | EWriteOpen _ | EWriteDone _ _ | ESleep _ => true
  | ERename _ _ ok => ok
  | EUnlink _ _ | ERead _ _ => false
  end.

Definition is_evaluation (e : Event) : bool :=
  match e with ECall (CEvaluate _) _ => true | _ => false end.

Definition is_call (e : Event) : bool :=
  match e with ECall _ _ => true | _ => false end.

End Confined.

(** ** Navigation *)

Module Navigation.
Import Sys.

Definition is_navigation (c : Call) : bool :=
  match c with
  | CGoto _ _ _ | CSetContent _ _ _ => true
  | _ => false
  end.

(** The page cannot be loaded: every navigation call rejects. *)
Definition navigation_fails (env : Engine.Env) : Prop :=
  forall k c, is_navigation c = true -> is_Some (Engine.env_engine env k c).

(** Between two worlds only engine calls happened. *)
Definition calls_only (w w' : World) : Prop :=
  fs w' = fs w
  /\ exists evs, log w' = log w ++ evs
                 /\ forallb (fun ef => Confined.is_call (fst ef)) evs = true.

(** A computation that settles and only talks to the engine. *)
Definition talks {A} (m : M A) : Prop :=
  forall w, fst (m w) <> Hang /\ calls_only w (snd (m w)).

(** A computation that throws, having only talked to the engine. *)
Definition talks_then_fails {A} (m : M A) : Prop :=
  forall w, (exists e, fst (m w) = Throw e) /\ calls_only w (snd (m w)).

End Navigation.

(** ** One handler, one task at a time *)

Module Alone.
Import Js Sys Engine Worker Watcher.

(** What the [catch] block of the handler reads back from a file:
    [readJSON(filePath).catch(() => ({}))]. *)
Definition parsed (f : File) : JsVal :=
  match f with
  | Complete (DJson v) => v
  | _ => JObj []
  end.

(** The file is not a request the handler takes: it is not JSON, or
    [normalizeRequest] rejects its value. *)
Definition refused (f : File) : bool :=
  match f with
  | Complete (DJson raw) => negb (Validation.accepted raw)
  | _ => true
  end.

Section WithEnv.
Variable env : Env.
Variable fuel : nat.
Variable cwd : string.

(** The handler of one [add] event, run through its two awaits with
    nothing in between. *)
Definition handle (filePath : string) (m : Main) : HState * Main :=
  let '(h1, m1) := handler_step env cwd (on_add m filePath) m in
  handler_step env cwd h1 m1.

(** [n] steps of a task, with no other task in between. *)
Fixpoint run_steps (n : nat) (t : Task) (s : TState) (m : Main) : TState * Main :=
  match n with
  | O => (s, m)
  | S n' => let '(s', m') := task_step env fuel cwd t s m in run_steps n' t s' m'
  end.

(** A task run from its start to its end: at most three awaits. *)
Definition run_task (t : Task) (m : Main) : TState * Main :=
  run_steps 3 t TStart m.

(** Tasks run one after the other, as the limiter does with the bound 1. *)
Definition run_in_turn (tasks : list Task) (m : Main) : Main :=
  fold_left (fun m t => snd (run_task t m)) tasks m.

End WithEnv.

(** What holds between the awaits of a task no other task interleaves
    with: every context created is registered under its own identifier, a
    task about to create a context has found none for its session, and a
    task about to run in a context runs in the one of its session. *)
Definition in_turn (t : Task) (s : TState) (m : Main) : Prop :=
  nctx m = size (sessionContexts m)
  /\ match s with
     | TCreating sid =>
         session_wanted (t_req t) = Some sid /\ sessionContexts m !! sid = None
     | TRun (Some c) =>
         exists sid, session_wanted (t_req t) = Some sid /\ sessionContexts m !! sid = Some c
     | _ => True
     end.

(** Registered contexts stay. *)
Definition keeps (m m' : Main) : Prop :=
  forall sid c, sessionContexts m !! sid = Some c -> sessionContexts m' !! sid = Some c.

End Alone.

(** ** The wait after navigation *)

Module PostWait.
Import Sys.

(** A sleep, if the event is one, lasts a positive number of milliseconds,
    at most five minutes. *)
Definition bounded_wait (e : Event) : bool :=
  match e with
  | ESleep (Js.JNum ms) => (0 <? ms) && (ms <=? 5 * 60000)
  | ESleep _ => false
  | _ => true
  end.

End PostWait.

(** ** Plain file names *)

Module Names.

Fixpoint no_slash (s : string) : bool :=
  match s with
  | EmptyString => true
  | String c s' => negb (Ascii.eqb c Path.slash) && no_slash s'
  end.

(** A single path segment that names something: not empty, not [.], not
    [..], and without a separator. *)
Definition plain (name : string) : bool :=
  no_slash name && negb (String.eqb name "") && negb (String.eqb name ".")
  && negb (String.eqb name "..").

End Names.

(** * Properties *)

(** ** Sanity checks of the runtime helpers *)

Example toStr_num : Js.toStr (Js.JNum 1205) = "1205".
Proof. reflexivity. Qed.
Example toStr_arr : Js.toStr (Js.JArr [Js.JNum (-3); Js.JNull; Js.JStr "a"]) = "-3,,a".
Proof. reflexivity. Qed.
Example trim_ex : Text.trim "  Hi there
 " = "Hi there".
Proof. reflexivity. Qed.
Example lower_ex : Text.toLowerCase "No Sound" = "no sound".
Proof. reflexivity. Qed.

Example path_norm1 : Path.normalize "/srv/app/responses/../../etc//x/" = "/srv/etc/x/".
Proof. reflexivity. Qed.
Example path_join1 : Path.join "/srv/app/responses" "job-1" = "/srv/app/responses/job-1".
Proof. reflexivity. Qed.
Example path_join2 : Path.join "/srv/app/responses" "../../../../tmp/x" = "/tmp/x".
Proof. reflexivity. Qed.
Example path_dir1 : Path.dirname "/srv/app/responses/j/meta.json" = "/srv/app/responses/j".
Proof. reflexivity. Qed.
Example path_dir2 : Path.dirname "/meta.json" = "/".
Proof. reflexivity. Qed.
Example path_dir3 : Path.dirname "a//b" = "a/".
Proof. reflexivity. Qed.
Example path_base1 : Path.basename "/srv/app/responses/j/meta.json" = "meta.json".
Proof. reflexivity. Qed.
Example path_res1 : Path.resolve "/srv/app" "/srv/app/responses" "../x" = "/srv/app/x".
Proof. reflexivity. Qed.


(** ** The mute heuristic *)

Section MuteHeuristic.
Import Js Dom PageFns Fixtures.

Example score_sound : score (button "Sound") = 2.
Proof. reflexivity. Qed.
Example score_no_sound : score (button "No Sound") = 5.
Proof. reflexivity. Qed.
Example score_accept : score (button "Accept") = -1.
Proof. reflexivity. Qed.
Example score_book_now : score (button "Book now") = 2.
Proof. reflexivity. Qed.

Example mute_sound_vs_no_sound :
  mute_clicked (doc_of [button "Sound"; button "No Sound"]) = Some 1%nat.
Proof. reflexivity. Qed.

Example mute_accept_only :
  mute_clicked (doc_of [button "Accept"]) = None.
Proof. reflexivity. Qed.

(** The loop keeps the running maximum: the final score bounds the initial
    one and every candidate's, and the final [best] is either the initial
    one (nothing beat it) or a candidate with exactly the final score. *)
Lemma best_loop_spec cands : forall best bestScore best' s',
  best_loop cands best bestScore = (best', s') ->
  bestScore <= s'
  /\ (forall i e, In (i, e) cands -> score e <= s')
  /\ ((best' = best /\ s' = bestScore)
      \/ (exists i e, In (i, e) cands /\ best' = Some i /\ score e = s' /\ bestScore < s')).
Proof.
  induction cands as [|[i e] rest IH]; intros best bs best' s' H; simpl in H.
  - inversion H; subst. repeat split; [lia | intros ? ? [] | now left].
  - destruct (bs <? score e) eqn:Hlt.
    + apply Z.ltb_lt in Hlt. apply IH in H as (Hle & Hall & Hsel).
      split; [lia|]. split.
      * intros j e' [Heq | Hin]; [inversion Heq; subst; lia | eauto].
      * right. destruct Hsel as [[-> ->] | (j & e' & Hin & -> & Hs & Hb)].
        -- exists i, e. repeat split; auto. now left.
        -- exists j, e'. repeat split; auto; [now right | lia].
    + apply Z.ltb_ge in Hlt. apply IH in H as (Hle & Hall & Hsel).
      split; [lia|]. split.
      * intros j e' [Heq | Hin]; [inversion Heq; subst; lia | eauto].
      * destruct Hsel as [[-> ->] | (j & e' & Hin & -> & Hs & Hb)]; [now left|].
        right. exists j, e'. repeat split; auto. now right.
Qed.

(** Candidates are the clickable elements, at their document positions. *)
Lemma candidates_from_spec ns : forall k i e,
  In (i, e) (candidates_from k ns) ->
  (k <= i)%nat /\ ns !! (i - k)%nat = Some e /\ el_clickable e = true.
Proof.
  induction ns as [|n rest IH]; intros k i e Hin; simpl in Hin; [destruct Hin|].
  destruct (el_clickable n) eqn:Hc.
  - destruct Hin as [Heq | Hin].
    + inversion Heq; subst. rewrite Nat.sub_diag. auto.
    + apply IH in Hin as (Hle & Hl & Hcl).
      split; [lia|]. split; auto.
      replace (i - k)%nat with (S (i - S k)) by lia. exact Hl.
  - apply IH in Hin as (Hle & Hl & Hcl).
    split; [lia|]. split; auto.
    replace (i - k)%nat with (S (i - S k)) by lia. exact Hl.
Qed.

Lemma candidates_from_complete ns : forall k j e,
  ns !! j = Some e -> el_clickable e = true ->
  In ((k + j)%nat, e) (candidates_from k ns).
Proof.
  induction ns as [|n rest IH]; intros k j e Hl Hc; [discriminate|].
  destruct j as [|j]; simpl in *.
  - inversion Hl; subst. rewrite Hc, Nat.add_0_r. now left.
  - specialize (IH (S k) j e Hl Hc).
    replace (k + S j)%nat with (S k + j)%nat by lia.
    destruct (el_clickable n); [now right | exact IH].
Qed.

Lemma attr_set_lookup k v attrs : attr_lookup k (attr_set k v attrs) = Some v.
Proof.
  induction attrs as [|[k' v'] rest IH]; simpl.
  - now rewrite String.eqb_refl.
  - destruct (String.eqb k k') eqn:E; simpl; rewrite ?String.eqb_refl, ?E; auto.
Qed.

Lemma is_marked_set e : is_marked (setAttribute e "data-ww-click" "1") = true.
Proof. unfold is_marked, getAttribute, setAttribute; simpl. now rewrite attr_set_lookup. Qed.

Lemma first_marked_update ns : forall k i e,
  Forall (fun n => is_marked n = false) ns ->
  ns !! i = Some e ->
  first_marked_from k (update_nth i (fun n => setAttribute n "data-ww-click" "1") ns)
  = Some (k + i)%nat.
Proof.
  induction ns as [|n rest IH]; intros k i e Hall Hl; [discriminate|].
  inversion Hall as [|? ? Hn Hrest]; subst.
  destruct i as [|i]; simpl in *.
  - rewrite is_marked_set. f_equal. lia.
  - rewrite Hn. rewrite (IH (S k) i e Hrest Hl). f_equal. lia.
Qed.

(** When no candidate reaches 3 the heuristic leaves the document alone,
    returns no selector and clicks nothing. *)
Lemma mute_no_candidate_no_click (d : Doc) :
  (forall i e, In (i, e) (candidates d) -> score e < 3) ->
  mute_evaluate d = (d, None) /\ mute_clicked d = None.
Proof.
  intros Hlow. unfold mute_clicked, mute_evaluate.
  destruct (best_loop (candidates d) None 0) as [b s] eqn:Hb.
  destruct (best_loop_spec _ _ _ _ _ Hb) as (_ & _ & [[-> ->] | (i & e & Hin & -> & Hs & _)]).
  - auto.
  - specialize (Hlow i e Hin).
    destruct (3 <=? s) eqn:H3; [apply Z.leb_le in H3; lia | auto].
Qed.

(** On a document in which no element carries the marker attribute yet, the
    element clicked is a candidate whose score is at least 3 and maximal. *)
Lemma mute_click_fresh (d : Doc) (i : nat) :
  Forall (fun n => is_marked n = false) (nodes d) ->
  mute_clicked d = Some i ->
  exists e, nodes d !! i = Some e /\ el_clickable e = true /\ 3 <= score e
            /\ forall j e', In (j, e') (candidates d) -> score e' <= score e.
Proof.
  intros Hfresh. unfold mute_clicked, mute_evaluate.
  destruct (best_loop (candidates d) None 0) as [b s] eqn:Hb.
  destruct (best_loop_spec _ _ _ _ _ Hb) as (_ & Hmax & [[-> ->] | (k & e & Hin & -> & Hs & _)]);
    [discriminate|].
  destruct (3 <=? s) eqn:H3; [|discriminate].
  apply Z.leb_le in H3. unfold click_target; simpl.
  destruct (candidates_from_spec _ _ _ _ Hin) as (_ & Hl & Hc).
  rewrite Nat.sub_0_r in Hl.
  rewrite (first_marked_update _ 0 k e Hfresh Hl). simpl. intros Heq; inversion Heq; subst i.
  exists e. repeat split; auto; [lia|]. intros j e' Hj. rewrite Hs. eauto.
Qed.

(** And such a click does happen as soon as one candidate reaches 3. *)
Lemma mute_click_happens (d : Doc) (j : nat) (e : Element) :
  Forall (fun n => is_marked n = false) (nodes d) ->
  nodes d !! j = Some e -> el_clickable e = true -> 3 <= score e ->
  exists i, mute_clicked d = Some i.
Proof.
  intros Hfresh Hl Hc H3. unfold mute_clicked, mute_evaluate.
  destruct (best_loop (candidates d) None 0) as [b s] eqn:Hb.
  pose proof (candidates_from_complete _ 0 j e Hl Hc) as Hin.
  destruct (best_loop_spec _ _ _ _ _ Hb) as (_ & Hmax & Hsel).
  specialize (Hmax _ _ Hin).
  destruct Hsel as [[-> ->] | (k & e' & Hin' & -> & Hs & _)]; [lia|].
  assert ((3 <=? s) = true) as -> by (apply Z.leb_le; lia).
  destruct (candidates_from_spec _ _ _ _ Hin') as (_ & Hl' & _).
  rewrite Nat.sub_0_r in Hl'. unfold click_target; simpl.
  rewrite (first_marked_update _ 0 k e' Hfresh Hl'). eauto.
Qed.

End MuteHeuristic.


(** ** The limiter *)

Section LimiterProps.
Import Limiter.
Variable limit : Z.
Hypothesis limit_pos : 1 <= limit.

Lemma remove_first_length t l :
  mem t l = true -> S (length (remove_first t l)) = length l.
Proof.
  induction l as [|x rest IH]; simpl; [discriminate|].
  destruct (x =? t)%nat; simpl; auto.
Qed.

Lemma inv_init : Inv limit init.
Proof. constructor; simpl; auto; lia. Qed.

Lemma inv_step s e : Inv limit s -> Inv limit (step limit s e).
Proof.
  intros [Ha Hb Hf Hw]. destruct e as [fn | | t]; simpl.
  - constructor; simpl; auto.
    + now rewrite app_assoc, Hf.
    + rewrite length_app; simpl. lia.
  - destruct (immediates s) as [|k] eqn:Hk; [constructor; auto; rewrite Hk; auto|].
    unfold runNext; simpl.
    destruct (limit <=? active s) eqn:Hl.
    + apply Z.leb_le in Hl. constructor; simpl; auto. lia.
    + apply Z.leb_gt in Hl. destruct (queue s) as [|item rest] eqn:Hq.
      * constructor; simpl; auto; rewrite ?Hq; simpl; auto. lia.
      * constructor; simpl.
        -- rewrite length_app; simpl. lia.
        -- lia.
        -- now rewrite <- app_assoc.
        -- simpl in Hw. lia.
  - destruct (mem t (running s)) eqn:Hm; [|constructor; auto].
    pose proof (remove_first_length _ _ Hm) as Hlen.
    constructor; simpl; auto; lia.
Qed.

Lemma inv_fold es : forall s, Inv limit s -> Inv limit (fold_left (step limit) es s).
Proof.
  induction es as [|e es IH]; intros s Hs; simpl; auto using inv_step.
Qed.

Lemma submitted_step s e :
  submitted (step limit s e)
  = submitted s ++ match e with Enqueue fn => [fn] | _ => [] end.
Proof.
  destruct e as [fn | | t]; simpl; auto.
  - destruct (immediates s); [now rewrite app_nil_r|].
    unfold runNext; simpl. destruct (limit <=? active s); simpl; [now rewrite app_nil_r|].
    destruct (queue s); simpl; now rewrite app_nil_r.
  - destruct (mem t (running s)); simpl; now rewrite app_nil_r.
Qed.

Lemma submitted_fold es : forall s,
  submitted (fold_left (step limit) es s) = submitted s ++ submissions es.
Proof.
  induction es as [|e es IH]; intros s; simpl; [now rewrite app_nil_r|].
  rewrite IH, submitted_step, <- app_assoc. reflexivity.
Qed.

(** In a state satisfying the invariant with a free slot and a waiting task,
    an immediate is pending and running it starts the oldest waiting task. *)
Lemma dispatch_oldest s t rest :
  Inv limit s -> active s < limit -> queue s = t :: rest ->
  (0 < immediates s)%nat
  /\ dispatched (step limit s Immediate) = dispatched s ++ [t]
  /\ running (step limit s Immediate) = running s ++ [t]
  /\ queue (step limit s Immediate) = rest.
Proof.
  intros [Ha Hb Hf Hw] Hlt Hq. rewrite Hq in Hw; simpl length in Hw.
  assert (0 < immediates s)%nat as Hpos by lia.
  split; [exact Hpos|]. simpl.
  destruct (immediates s) as [|k]; [lia|].
  unfold runNext; simpl.
  assert ((limit <=? active s) = false) as -> by (apply Z.leb_gt; lia).
  rewrite Hq. auto.
Qed.

End LimiterProps.


(** C5. For every bound [limit >= 1] and every sequence of submissions,
    immediates and completions, the limiter never has more than [limit]
    tasks running at once (its [active] counter is exactly the number of
    running tasks); tasks are started in submission order ([dispatched]
    followed by the wait list is the list of submissions); and whenever the
    active count is below the bound while a task waits, a [runNext] is
    pending and it starts the oldest waiting task. *)
Theorem C5_limiter_bound_and_fifo (limit : Z) (es : list Limiter.Event) :
  1 <= limit ->
  let s := Limiter.run limit es in
  Z.of_nat (length (Limiter.running s)) <= limit
  /\ Limiter.active s = Z.of_nat (length (Limiter.running s))
  /\ Limiter.dispatched s ++ Limiter.queue s = submissions es
  /\ forall t rest,
       Limiter.active s < limit -> Limiter.queue s = t :: rest ->
       (0 < Limiter.immediates s)%nat
       /\ Limiter.dispatched (Limiter.step limit s Limiter.Immediate)
          = Limiter.dispatched s ++ [t]
       /\ Limiter.running (Limiter.step limit s Limiter.Immediate)
          = Limiter.running s ++ [t]
       /\ Limiter.queue (Limiter.step limit s Limiter.Immediate) = rest.
Proof.
  intros Hpos s.
  assert (Limiter.Inv limit s) as Hinv by (apply inv_fold, inv_init; exact Hpos).
  destruct Hinv as [Ha Hb Hf Hw].
  split; [lia|]. split; [exact Ha|]. split.
  - rewrite Hf. unfold s, Limiter.run. now rewrite submitted_fold.
  - intros t rest Hlt Hq.
    apply (dispatch_oldest limit s t rest); auto. constructor; auto.
Qed.

Lemma C5_limiter_witness :
  let s := Limiter.run 2 [Limiter.Enqueue 7; Limiter.Enqueue 8; Limiter.Enqueue 9;
                          Limiter.Immediate; Limiter.Immediate; Limiter.Immediate;
                          Limiter.Settle 7]%nat in
  Z.of_nat (length (Limiter.running s)) <= 2
  /\ Limiter.active s = Z.of_nat (length (Limiter.running s))
  /\ Limiter.dispatched s ++ Limiter.queue s = [7; 8; 9]%nat
  /\ forall t rest,
       Limiter.active s < 2 -> Limiter.queue s = t :: rest ->
       (0 < Limiter.immediates s)%nat
       /\ Limiter.dispatched (Limiter.step 2 s Limiter.Immediate)
          = Limiter.dispatched s ++ [t]
       /\ Limiter.running (Limiter.step 2 s Limiter.Immediate)
          = Limiter.running s ++ [t]
       /\ Limiter.queue (Limiter.step 2 s Limiter.Immediate) = rest.
Proof.
  apply (C5_limiter_bound_and_fifo 2
           [Limiter.Enqueue 7; Limiter.Enqueue 8; Limiter.Enqueue 9;
            Limiter.Immediate; Limiter.Immediate; Limiter.Immediate;
            Limiter.Settle 7]%nat).
  lia.
Defined.

Example limiter_run_two :
  let s := Limiter.run 2 [Limiter.Enqueue 7; Limiter.Enqueue 8; Limiter.Enqueue 9;
                          Limiter.Immediate; Limiter.Immediate; Limiter.Immediate;
                          Limiter.Settle 7; Limiter.Immediate]%nat in
  Limiter.running s = [8; 9]%nat /\ Limiter.dispatched s = [7; 8; 9]%nat
  /\ Limiter.queue s = [] /\ Limiter.active s = 2.
Proof. repeat split. Qed.


(** ** Actions the executor does not act on *)

Section SkippedActions.
Import Js Sys Engine Num Worker ActionKinds.
Variable env : Env.

Lemma absent_falsy a k : absent a k = true -> truthy (get a k) = false.
Proof. unfold absent. destruct (get a k); simpl; congruence. Qed.

Lemma not_a_typeof a k t : not_a a k t = true -> is_type_of (get a k) t = false.
Proof. unfold not_a, is_type_of. now intros ->%negb_true_iff. Qed.

(** The dispatch on an action that is not of a recognized kind, or that
    lacks a required field, does nothing: no engine call, no file, no
    error. *)
Lemma exec_action_skips fuel outDir i a :
  known_type a = false \/ missing_required a = true ->
  forall w, exec_action env fuel outDir i a w = (Ok tt, w).
Proof.
  intros H w. unfold exec_action, known_type, missing_required in *.
  destruct (get a "type") as [| | b | z | s | xs | fs] eqn:Ht; simpl; try reflexivity.
  simpl in H.
  repeat match goal with
  | |- context [String.eqb s ?lit] =>
      let E := fresh "E" in
      destruct (String.eqb s lit) eqn:E;
      [apply String.eqb_eq in E; subst s; simpl in H |]
  end; simpl;
  try reflexivity;
  try (destruct H as [H | H]; [discriminate H|]);
  repeat match type of H with
  | (_ || _) = true => apply orb_true_iff in H; destruct H as [H | H]
  end;
  try (apply absent_falsy in H; rewrite H);
  try (apply not_a_typeof in H; rewrite H);
  rewrite ?andb_false_r; simpl; try reflexivity;
  try (destruct H as [H | H]; discriminate H);
  try discriminate H.
Qed.

End SkippedActions.


(** C10. An action whose type is not a recognized kind, or which lacks a
    required field of its kind, makes the executor do nothing and raise
    nothing: the world is unchanged and the loop goes on with the per-step
    snapshot (taken only when step tracing is on) and the next action. *)
Theorem C10_unusable_action_is_skipped
    (env : Engine.Env) (fuel : nat) (outDir : string) (i : nat)
    (a : Js.JsVal) (rest : list Js.JsVal) (snap : bool) (w : Sys.World) :
  ActionKinds.known_type a = false \/ ActionKinds.missing_required a = true ->
  Worker.exec_action env fuel outDir i a w = (Sys.Ok tt, w)
  /\ Worker.runActions_from env fuel i (a :: rest) outDir snap w
     = Sys.bind (Worker.step_snapshot env outDir i snap)
         (fun _ => Worker.runActions_from env fuel (S i) rest outDir snap) w
  /\ (snap = false ->
      Worker.runActions_from env fuel i (a :: rest) outDir snap w
      = Worker.runActions_from env fuel (S i) rest outDir snap w).
Proof.
  intros H. pose proof (exec_action_skips env fuel outDir i a H) as Hskip.
  split; [apply Hskip|].
  assert (Worker.runActions_from env fuel i (a :: rest) outDir snap w
          = Sys.bind (Worker.step_snapshot env outDir i snap)
              (fun _ => Worker.runActions_from env fuel (S i) rest outDir snap) w) as Heq.
  { simpl. unfold Sys.bind at 1. now rewrite Hskip. }
  split; [exact Heq|].
  intros ->. rewrite Heq. reflexivity.
Qed.

Lemma C10_unusable_action_witness :
  Worker.exec_action Fixtures.env0 3 "/srv/responses/j" 0
    Fixtures.click_without_selector (Sys.world0 ∅)
  = (Sys.Ok tt, Sys.world0 ∅)
  /\ Worker.runActions_from Fixtures.env0 3 0
       [Fixtures.click_without_selector; Fixtures.unknown_kind]
       "/srv/responses/j" true (Sys.world0 ∅)
     = Sys.bind (Worker.step_snapshot Fixtures.env0 "/srv/responses/j" 0 true)
         (fun _ => Worker.runActions_from Fixtures.env0 3 1 [Fixtures.unknown_kind]
                     "/srv/responses/j" true) (Sys.world0 ∅)
  /\ (true = false ->
      Worker.runActions_from Fixtures.env0 3 0
        [Fixtures.click_without_selector; Fixtures.unknown_kind]
        "/srv/responses/j" true (Sys.world0 ∅)
      = Worker.runActions_from Fixtures.env0 3 1 [Fixtures.unknown_kind]
          "/srv/responses/j" true (Sys.world0 ∅)).
Proof.
  apply (C10_unusable_action_is_skipped Fixtures.env0 3 "/srv/responses/j" 0
           Fixtures.click_without_selector [Fixtures.unknown_kind] true (Sys.world0 ∅)).
  right. reflexivity.
Defined.

(** The three examples a caller may send: a click with no selector, a
    clickAt whose x is a text, an unknown kind; with step tracing on, the
    only things that happen are the three step snapshots. *)
Example skipped_actions_trace :
  let '(r, w) := Worker.runActions Fixtures.env0 3
                   [Fixtures.click_without_selector;
                    Fixtures.clickAt_text_coordinates;
                    Fixtures.unknown_kind] "/srv/responses/j" true (Sys.world0 ∅) in
  r = Sys.Ok tt
  /\ map fst (Sys.log w)
     = [Sys.ECall (Sys.CScreenshot "/srv/responses/j/step-01.png" true) None;
        Sys.EWriteOpen "/srv/responses/j/step-01.png";
        Sys.EWriteDone "/srv/responses/j/step-01.png" (Sys.DImage "page");
        Sys.ECall (Sys.CScreenshot "/srv/responses/j/step-02.png" true) None;
        Sys.EWriteOpen "/srv/responses/j/step-02.png";
        Sys.EWriteDone "/srv/responses/j/step-02.png" (Sys.DImage "page");
        Sys.ECall (Sys.CScreenshot "/srv/responses/j/step-03.png" true) None;
        Sys.EWriteOpen "/srv/responses/j/step-03.png";
        Sys.EWriteDone "/srv/responses/j/step-03.png" (Sys.DImage "page")].
Proof. vm_compute. split; reflexivity. Qed.


(** ** Extraction *)

Section Extraction.
Import Js Sys Engine Num Dom Worker ExtractSpec.
Variable env : Env.

Lemma query_ok what sel f w els :
  env_engine env (ncall w) (CEvaluate what) = None ->
  select (env_doc env (ncall w)) (toStr sel) = Some els ->
  query env what sel f w
  = (Ok (f els),
     mkWorld (fs w) (log w ++ [(ECall (CEvaluate what) None, fs w)])
             (nuuid w) (nclock w) (S (ncall w))).
Proof.
  intros He Hs. unfold query, evaluate, call. rewrite He, Hs. reflexivity.
Qed.

Lemma is_str_eq v lit : is_str v lit = true -> v = JStr lit.
Proof.
  destruct v; simpl; try discriminate. now intros ->%String.eqb_eq.
Qed.

Lemma extract_one_ok s acc w els :
  four_kinds s = true ->
  env_engine env (ncall w) (CEvaluate (toStr (get s "type"))) = None ->
  select (env_doc env (ncall w)) (toStr (get s "selector")) = Some els ->
  exists r,
    extract_one env s acc w
    = (Ok (acc ++ [r]),
       mkWorld (fs w)
               (log w ++ [(ECall (CEvaluate (toStr (get s "type"))) None, fs w)])
               (nuuid w) (nclock w) (S (ncall w)))
    /\ mirrors (env_doc env (ncall w)) s r.
Proof.
  intros Hk He Hs. unfold four_kinds in Hk.
  assert (exists fields, s = JObj fields) as [fields ->].
  { destruct s; simpl in Hk; try discriminate. eauto. }
  assert (single_valued (JObj fields) = true ->
          truthy (get (JObj fields) "all") = false) as Hall.
  { unfold single_valued. now intros [_ ?%negb_true_iff]%andb_true_iff. }
  unfold extract_one, mirrors.
  set (ty := get (JObj fields) "type") in *.
  set (sel := get (JObj fields) "selector") in *.
  destruct (is_str ty "text") eqn:E1.
  { pose proof (is_str_eq _ _ E1) as Hty. rewrite Hty in He.
    unfold bind. rewrite (query_ok _ _ _ _ _ He Hs). eexists. split; [rewrite Hty; reflexivity|].
    simpl. repeat split; auto.
    - rewrite Hty. simpl. discriminate.
    - intros Hsv. rewrite Hs. intros Heq; inversion Heq; subst els.
      specialize (Hall Hsv). simpl in Hall.
      unfold PageFns.pick. now rewrite Hall. }
  destruct (is_str ty "attr") eqn:E2.
  { pose proof (is_str_eq _ _ E2) as Hty. rewrite Hty in He.
    unfold bind. rewrite (query_ok _ _ _ _ _ He Hs). eexists. split; [rewrite Hty; reflexivity|].
    simpl. repeat split; auto.
    - rewrite Hty. simpl. discriminate.
    - intros Hsv. rewrite Hs. intros Heq; inversion Heq; subst els.
      specialize (Hall Hsv). simpl in Hall.
      unfold PageFns.pick. now rewrite Hall. }
  destruct (is_str ty "html") eqn:E3.
  { pose proof (is_str_eq _ _ E3) as Hty. rewrite Hty in He.
    unfold bind. rewrite (query_ok _ _ _ _ _ He Hs). eexists. split; [rewrite Hty; reflexivity|].
    simpl. repeat split; auto.
    - rewrite Hty. simpl. discriminate.
    - intros Hsv. rewrite Hs. intros Heq; inversion Heq; subst els.
      specialize (Hall Hsv). simpl in Hall.
      unfold PageFns.pick. now rewrite Hall. }
  destruct (is_str ty "exists") eqn:E4; [|simpl in Hk; discriminate].
  pose proof (is_str_eq _ _ E4) as Hty. rewrite Hty in He.
  unfold bind. rewrite (query_ok _ _ _ _ _ He Hs). eexists. split; [rewrite Hty; reflexivity|].
  simpl. repeat split; auto.
  - intros _. eexists. split; [reflexivity|]. rewrite Hs.
    destruct els as [|e els']; split; try discriminate; eauto.
    intros (e & els & Heq). discriminate.
  - unfold single_valued. fold ty. rewrite E1, E2, E3. simpl. discriminate.
Qed.

Lemma extract_loop_ok specs : forall acc w,
  Forall (fun s => four_kinds s = true) specs ->
  extract_ready env specs ->
  exists results w',
    extract_loop env specs acc w = (Ok (acc ++ results), w')
    /\ mirror_list env (ncall w) specs results
    /\ map fst (log w') = map fst (log w) ++ extract_calls specs
    /\ fs w' = fs w.
Proof.
  induction specs as [|s rest IH]; intros acc w Hk [Heng Hsel].
  - exists [], w. simpl. rewrite !app_nil_r. auto.
  - inversion Hk as [|? ? Hs Hrest]; subst.
    destruct (Hsel (ncall w) s (or_introl eq_refl)) as [els Hels].
    destruct (extract_one_ok s acc w els Hs (Heng _ _) Hels) as (r & Hone & Hm).
    set (w1 := mkWorld _ _ _ _ _) in Hone.
    destruct (IH (acc ++ [r]) w1 Hrest) as (rs & w' & Hloop & Hml & Hlog & Hfs).
    { split; [exact Heng|]. intros k s' Hin. apply Hsel. now right. }
    exists (r :: rs), w'. simpl. unfold bind at 1. rewrite Hone, Hloop.
    rewrite <- app_assoc. simpl. split; [reflexivity|].
    split; [split; [exact Hm | exact Hml]|].
    split; [|rewrite Hfs; reflexivity].
    rewrite Hlog. unfold w1; simpl. rewrite map_app, <- app_assoc. reflexivity.
Qed.

End Extraction.


Lemma mirror_list_length env specs : forall k results,
  ExtractSpec.mirror_list env k specs results -> length results = length specs.
Proof.
  induction specs as [|s rest IH]; intros k [|r rs] H; simpl in *;
    try contradiction; auto.
  destruct H as [_ H]. f_equal. eauto.
Qed.

(** C7. For every list of specs of the four kinds, on a page that answers
    (each evaluation resolves, each selector is valid), the extraction pass
    returns: one entry per spec, in spec order, each with its spec's type
    and selector; an existence spec gets a boolean telling whether the
    selector matches; a single-valued text / attr / html spec whose selector
    matches no element gets [null]; and the page is queried once per spec,
    in spec order. *)
Theorem C7_extraction_mirrors_specs
    (env : Engine.Env) (specs : list Js.JsVal) (w : Sys.World) :
  Forall (fun s => ExtractSpec.four_kinds s = true) specs ->
  ExtractSpec.extract_ready env specs ->
  exists results w',
    Worker.performExtracts env specs w = (Sys.Ok results, w')
    /\ length results = length specs
    /\ ExtractSpec.mirror_list env (Sys.ncall w) specs results
    /\ map fst (Sys.log w') = map fst (Sys.log w) ++ ExtractSpec.extract_calls specs.
Proof.
  intros Hk Hr.
  destruct (extract_loop_ok env specs [] w Hk Hr) as (rs & w' & Hloop & Hm & Hlog & _).
  exists rs, w'. unfold Worker.performExtracts.
  split; [exact Hloop|]. split; [eapply mirror_list_length; eauto|]. auto.
Qed.

Lemma C7_extraction_witness :
  exists results w',
    Worker.performExtracts Fixtures.env_heading
      [Fixtures.spec_text "#t"; Fixtures.spec_exists "#none"; Fixtures.spec_text "#none"]
      (Sys.world0 ∅) = (Sys.Ok results, w')
    /\ length results = 3%nat
    /\ ExtractSpec.mirror_list Fixtures.env_heading 0
         [Fixtures.spec_text "#t"; Fixtures.spec_exists "#none"; Fixtures.spec_text "#none"]
         results
    /\ map fst (Sys.log w')
       = [] ++ ExtractSpec.extract_calls
                 [Fixtures.spec_text "#t"; Fixtures.spec_exists "#none";
                  Fixtures.spec_text "#none"].
Proof.
  apply (C7_extraction_mirrors_specs Fixtures.env_heading
           [Fixtures.spec_text "#t"; Fixtures.spec_exists "#none"; Fixtures.spec_text "#none"]
           (Sys.world0 ∅)).
  - repeat constructor.
  - split; [reflexivity|].
    intros k s _. simpl.
    destruct (String.eqb _ "#t"); eexists; reflexivity.
Defined.

(** The round trip of the specification: the text of #t is Hi; a selector
    that matches nothing gives [false] for an existence spec, [null] for a
    single text spec and the empty array for an all-matches spec. *)
Example extraction_round_trip :
  map (fun r => Js.get r "value")
      (match fst (Worker.performExtracts Fixtures.env_heading
                    [Fixtures.spec_text "#t"; Fixtures.spec_exists "#t";
                     Fixtures.spec_exists "#none"; Fixtures.spec_text "#none";
                     Fixtures.spec_attr_all "#none" "id";
                     Fixtures.spec_attr_all "#t" "id"] (Sys.world0 ∅)) with
       | Sys.Ok rs => rs
       | _ => []
       end)
  = [Js.JStr "Hi"; Js.JBool true; Js.JBool false; Js.JNull; Js.JArr [];
     Js.JArr [Js.JStr "t"]].
Proof. vm_compute. reflexivity. Qed.


(** ** Waiting for a canvas to paint *)

Section PaintWait.
Import Js Sys Engine Num Dom Worker PageFns PaintSpec.

Lemma painted_b_spec p : painted_b p = true <-> painted_pixel p.
Proof.
  destruct p as [[[r g] b] a]. unfold painted_b, painted_pixel.
  rewrite andb_true_iff, !negb_true_iff, Z.eqb_neq.
  rewrite !andb_false_iff, !Z.eqb_neq. split; intros [Ha Hw]; split; auto; lia.
Qed.

Lemma scan_chunks ps : scan_pixels (chunks ps) = existsb painted_b ps.
Proof.
  induction ps as [|[[[r g] b] a] rest IH]; simpl; auto.
  fold (chunks rest). rewrite <- IH.
  destruct (negb (a =? 0) && negb ((r =? 255) && (g =? 255) && (b =? 255))); auto.
Qed.

Lemma row_chunks ctx w y :
  row ctx w y = chunks (map (fun x => cx_pixel ctx x y) (seq 0 w)).
Proof.
  unfold row, chunks. induction (seq 0 w) as [|x xs IH]; simpl; auto.
  now rewrite IH.
Qed.

Lemma image_chunks ctx w h :
  flat_map (row ctx w) (seq 0 h)
  = chunks (flat_map (fun y => map (fun x => cx_pixel ctx x y) (seq 0 w)) (seq 0 h)).
Proof.
  induction (seq 0 h) as [|y ys IH]; simpl; auto.
  unfold chunks in *. rewrite flat_map_app, <- IH. f_equal. apply row_chunks.
Qed.

Lemma scan_region ctx mw mh img :
  getImageData ctx mw mh = Some img ->
  scan_pixels img = true
  <-> exists x y, (x < mw)%nat /\ (y < mh)%nat /\ painted_pixel (cx_pixel ctx x y).
Proof.
  unfold getImageData.
  destruct (cx_tainted ctx); [discriminate|].
  destruct ((mw =? 0)%nat || (mh =? 0)%nat); [discriminate|].
  intros Himg. inversion Himg; subst img; clear Himg.
  rewrite image_chunks, scan_chunks, existsb_exists.
  split.
  - intros (p & Hin & Hp). apply in_flat_map in Hin as (y & Hy & Hin).
    apply in_map_iff in Hin as (x & <- & Hx).
    apply in_seq in Hy. apply in_seq in Hx.
    exists x, y. apply painted_b_spec in Hp. repeat split; auto; lia.
  - intros (x & y & Hx & Hy & Hp).
    exists (cx_pixel ctx x y). split; [|now apply painted_b_spec].
    apply in_flat_map. exists y. split; [apply in_seq; lia|].
    apply in_map_iff. exists x. split; auto. apply in_seq. lia.
Qed.

(** The page function answers exactly [shows_paint]. *)
Lemma painted_spec d : painted d = true <-> shows_paint d.
Proof.
  unfold painted, shows_paint.
  destruct (canvas d) as [c|]; [|split; [discriminate | intros (c & Hc & _); discriminate]].
  destruct (cv_ctx2d c) as [ctx|] eqn:Hctx.
  2:{ split; auto. intros _. exists c. auto. }
  destruct (getImageData ctx (Nat.min 64 (cv_width c)) (Nat.min 64 (cv_height c)))
    as [img|] eqn:Himg.
  2:{ split; auto. intros _. exists c. split; auto. right. exists ctx.
      split; [exact Hctx | left; exact Himg]. }
  rewrite (scan_region _ _ _ _ Himg). split.
  - intros (x & y & Hx & Hy & Hp).
    exists c. split; auto. right. exists ctx. split; auto. right.
    exists x, y. repeat split; auto; lia.
  - intros (c' & Hc & [Hno | (ctx' & Hc' & [Hthrow | (x & y & Hx & Hx' & Hy & Hy' & Hp)])]);
      inversion Hc; subst c'.
    + congruence.
    + rewrite Hctx in Hc'. inversion Hc'; subst ctx'. congruence.
    + rewrite Hctx in Hc'. inversion Hc'; subst ctx'.
      exists x, y. repeat split; auto; lia.
Qed.

Variable env : Env.
Hypothesis evaluations_resolve :
  forall k, env_engine env k (CEvaluate "canvasPaint") = None.

Lemma evaluate_paint w :
  evaluate env "canvasPaint" (fun d => Ok (painted d)) w
  = (Ok (painted (env_doc env (ncall w))),
     mkWorld (fs w) (log w ++ [(ECall (CEvaluate "canvasPaint") None, fs w)])
             (nuuid w) (nclock w) (S (ncall w))).
Proof. unfold evaluate, call. now rewrite evaluations_resolve. Qed.

(** [n] quiet polls use up [n] rounds of the loop and leave [n] evaluations,
    each followed by a sleep of the interval. *)
Lemma paint_loop_quiet t0 T I n : forall fuel w,
  quiet_polls env (ncall w) (nclock w) t0 T n ->
  exists wn,
    paint_loop env (n + fuel) t0 T I w = paint_loop env fuel t0 T I wn
    /\ ncall wn = (ncall w + n)%nat /\ nclock wn = (nclock w + n)%nat
    /\ fs wn = fs w
    /\ forall tail, map fst (log wn) ++ poll_trace I tail
                    = map fst (log w) ++ poll_trace I (n + tail).
Proof.
  induction n as [|n IH]; intros fuel w Hq.
  - exists w. simpl. rewrite !Nat.add_0_r. auto.
  - destruct (Hq 0%nat ltac:(lia)) as [Hp Ht]. rewrite Nat.add_0_r in Hp, Ht.
    simpl. unfold bind at 1. rewrite evaluate_paint, Hp.
    unfold bind at 1, now at 1. cbn [ncall nclock fs log nuuid].
    rewrite Ht. unfold bind at 1, sleep at 1, bind at 1, get_fs, emit.
    cbn [ncall nclock fs log nuuid].
    match goal with |- context [paint_loop env (n + fuel) t0 T I ?w1] => set (w1' := w1) end.
    destruct (IH fuel w1') as (wn & Heq & Hc & Hk & Hfs & Hlog).
    { intros j Hj. specialize (Hq (S j) ltac:(lia)).
      rewrite !Nat.add_succ_r in Hq. unfold w1'; simpl. exact Hq. }
    exists wn. rewrite Heq. unfold w1' in *; simpl in *.
    repeat split; auto; try lia.
    intros tail. rewrite Hlog, !map_app, <- !app_assoc. reflexivity.
Qed.

Lemma paint_loop_resolves t0 T I n fuel w :
  quiet_polls env (ncall w) (nclock w) t0 T n ->
  painted (env_doc env (ncall w + n)) = true ->
  exists w',
    paint_loop env (n + S fuel) t0 T I w = (Ok tt, w')
    /\ map fst (log w') = map fst (log w) ++ poll_trace I n
    /\ fs w' = fs w.
Proof.
  intros Hq Hp.
  destruct (paint_loop_quiet t0 T I n (S fuel) w Hq) as (wn & Heq & Hc & Hk & Hfs & Hlog).
  rewrite Heq. simpl. unfold bind at 1. rewrite evaluate_paint, Hc, Hp.
  eexists. split; [reflexivity|]. simpl. split; auto.
  rewrite map_app. simpl. specialize (Hlog 0%nat). simpl in Hlog.
  now rewrite Nat.add_0_r in Hlog.
Qed.

Lemma paint_loop_times_out t0 T I n fuel w :
  quiet_polls env (ncall w) (nclock w) t0 T n ->
  painted (env_doc env (ncall w + n)) = false ->
  lt_val T (env_now env (nclock w + n) - t0) = true ->
  exists w',
    paint_loop env (n + S fuel) t0 T I w = (Throw "waitForCanvasPaint timeout", w')
    /\ map fst (log w') = map fst (log w) ++ poll_trace I n
    /\ fs w' = fs w.
Proof.
  intros Hq Hp Ht.
  destruct (paint_loop_quiet t0 T I n (S fuel) w Hq) as (wn & Heq & Hc & Hk & Hfs & Hlog).
  rewrite Heq. simpl. unfold bind at 1. rewrite evaluate_paint, Hc, Hp.
  unfold bind at 1, now at 1. cbn [ncall nclock fs log nuuid]. rewrite Hk, Ht.
  eexists. split; [reflexivity|]. simpl. split; auto.
  rewrite map_app. simpl. specialize (Hlog 0%nat). simpl in Hlog.
  now rewrite Nat.add_0_r in Hlog.
Qed.

End PaintWait.


Lemma waitForCanvasPaint_unfold env fuel T I w :
  Worker.waitForCanvasPaint env fuel T I w
  = Worker.paint_loop env fuel (Engine.env_now env (Sys.nclock w)) T I
      (Sys.mkWorld (Sys.fs w) (Sys.log w) (Sys.nuuid w) (S (Sys.nclock w)) (Sys.ncall w)).
Proof. reflexivity. Qed.

(** C8. The paint wait evaluates a page function, sleeps the interval and
    evaluates again.  The page function looks at the first canvas only and at
    no more than its top-left 64 by 64 pixels; it answers [true] exactly
    when that canvas has no 2D context, or reading its pixels throws, or one
    of these pixels is neither fully transparent nor pure white.  After [n]
    polls without paint and within the deadline, a poll that sees paint
    resolves the wait, and a poll that sees none with the deadline exceeded
    raises the error [waitForCanvasPaint timeout]. *)
Theorem C8_paint_wait
    (env : Engine.Env) (fuel n : nat) (timeoutMs intervalMs : Js.JsVal) (w : Sys.World) :
  (forall k, Engine.env_engine env k (Sys.CEvaluate "canvasPaint") = None) ->
  (n < fuel)%nat ->
  PaintSpec.quiet_polls env (Sys.ncall w) (S (Sys.nclock w))
    (Engine.env_now env (Sys.nclock w)) timeoutMs n ->
  (forall d, PageFns.painted d = true <-> PaintSpec.shows_paint d)
  /\ (PageFns.painted (Engine.env_doc env (Sys.ncall w + n)) = true ->
      exists w',
        Worker.waitForCanvasPaint env fuel timeoutMs intervalMs w = (Sys.Ok tt, w')
        /\ map fst (Sys.log w') = map fst (Sys.log w) ++ PaintSpec.poll_trace intervalMs n)
  /\ (PageFns.painted (Engine.env_doc env (Sys.ncall w + n)) = false ->
      Num.lt_val timeoutMs
        (Engine.env_now env (S (Sys.nclock w) + n) - Engine.env_now env (Sys.nclock w))
      = true ->
      exists w',
        Worker.waitForCanvasPaint env fuel timeoutMs intervalMs w
        = (Sys.Throw "waitForCanvasPaint timeout", w')
        /\ map fst (Sys.log w') = map fst (Sys.log w) ++ PaintSpec.poll_trace intervalMs n).
Proof.
  intros Heng Hfuel Hq.
  split; [exact painted_spec|].
  replace fuel with (n + S (fuel - n - 1))%nat by lia.
  rewrite !waitForCanvasPaint_unfold.
  set (w1 := Sys.mkWorld _ _ _ _ _).
  split.
  - intros Hp.
    destruct (paint_loop_resolves env Heng (Engine.env_now env (Sys.nclock w))
                timeoutMs intervalMs n (fuel - n - 1) w1 Hq Hp) as (w' & Hrun & Hlog & _).
    exists w'. split; [exact Hrun | exact Hlog].
  - intros Hp Ht.
    destruct (paint_loop_times_out env Heng (Engine.env_now env (Sys.nclock w))
                timeoutMs intervalMs n (fuel - n - 1) w1 Hq Hp Ht) as (w' & Hrun & Hlog & _).
    exists w'. split; [exact Hrun | exact Hlog].
Qed.


Lemma C8_paint_wait_witness :
  (forall d, PageFns.painted d = true <-> PaintSpec.shows_paint d)
  /\ (PageFns.painted (Engine.env_doc (Fixtures.env_canvas 2) (0 + 2)) = true ->
      exists w',
        Worker.waitForCanvasPaint (Fixtures.env_canvas 2) 10 (Js.JNum 60000) (Js.JNum 500)
          (Sys.world0 ∅) = (Sys.Ok tt, w')
        /\ map fst (Sys.log w') = [] ++ PaintSpec.poll_trace (Js.JNum 500) 2)
  /\ (PageFns.painted (Engine.env_doc (Fixtures.env_canvas 2) (0 + 2)) = false ->
      Num.lt_val (Js.JNum 60000)
        (Engine.env_now (Fixtures.env_canvas 2) (1 + 2)
         - Engine.env_now (Fixtures.env_canvas 2) 0) = true ->
      exists w',
        Worker.waitForCanvasPaint (Fixtures.env_canvas 2) 10 (Js.JNum 60000) (Js.JNum 500)
          (Sys.world0 ∅) = (Sys.Throw "waitForCanvasPaint timeout", w')
        /\ map fst (Sys.log w') = [] ++ PaintSpec.poll_trace (Js.JNum 500) 2).
Proof.
  apply (C8_paint_wait (Fixtures.env_canvas 2) 10 2 (Js.JNum 60000) (Js.JNum 500)
           (Sys.world0 ∅)).
  - reflexivity.
  - lia.
  - intros j Hj. destruct j as [|[|j]]; [split; reflexivity | split; reflexivity | lia].
Defined.

(** The canvas paints at the third poll: the wait resolves after two sleeps. *)
Example paint_wait_resolves :
  let '(r, w) := Worker.waitForCanvasPaint (Fixtures.env_canvas 2) 10
                   (Js.JNum 60000) (Js.JNum 500) (Sys.world0 ∅) in
  r = Sys.Ok tt
  /\ map fst (Sys.log w)
     = [Sys.ECall (Sys.CEvaluate "canvasPaint") None; Sys.ESleep (Js.JNum 500);
        Sys.ECall (Sys.CEvaluate "canvasPaint") None; Sys.ESleep (Js.JNum 500);
        Sys.ECall (Sys.CEvaluate "canvasPaint") None].
Proof. vm_compute. split; reflexivity. Qed.

(** The canvas never paints: with a deadline of 2.5 s and a clock reading
    every second the third poll raises the timeout. *)
Example paint_wait_times_out :
  fst (Worker.waitForCanvasPaint (Fixtures.env_canvas 1000) 10
         (Js.JNum 2500) (Js.JNum 500) (Sys.world0 ∅))
  = Sys.Throw "waitForCanvasPaint timeout".
Proof. vm_compute. reflexivity. Qed.

(** A deadline that is not a number never expires. *)
Example paint_wait_without_deadline :
  fst (Worker.waitForCanvasPaint (Fixtures.env_canvas 1000) 50
         (Js.JStr "soon") (Js.JNum 500) (Sys.world0 ∅))
  = Sys.Hang.
Proof. vm_compute. reflexivity. Qed.

(** A canvas without a 2D context, a tainted one and an empty one count as
    painted; a white opaque one and no canvas at all do not. *)
Example painted_cases :
  PageFns.painted (Dom.mkDoc [] (fun _ => Some []) (Some (Dom.mkCanvas 300 150 None))) = true
  /\ PageFns.painted (Dom.mkDoc [] (fun _ => Some [])
       (Some (Dom.mkCanvas 300 150
                (Some (Dom.mkCtx2d true (fun _ _ => (0, 0, 0, 0))))))) = true
  /\ PageFns.painted (Dom.mkDoc [] (fun _ => Some [])
       (Some (Dom.mkCanvas 0 150
                (Some (Dom.mkCtx2d false (fun _ _ => (0, 0, 0, 0))))))) = true
  /\ PageFns.painted (Dom.mkDoc [] (fun _ => Some [])
       (Some (Dom.mkCanvas 300 150
                (Some (Dom.mkCtx2d false (fun _ _ => (255, 255, 255, 255))))))) = false
  /\ PageFns.painted (Dom.mkDoc [] (fun _ => Some []) None) = false.
Proof. vm_compute. repeat split. Qed.


(** ** Logs only grow *)

Section Growth.
Import Js Sys Engine Files Num Worker Job Trace.

Create HintDb grows.

Lemma grows_ret {A} (a : A) : grows (ret a).
Proof. intros w. exists []. simpl. now rewrite app_nil_r. Qed.

Lemma grows_throw {A} m : grows (@throw A m).
Proof. intros w. exists []. simpl. now rewrite app_nil_r. Qed.

Lemma grows_bind {A B} (m : M A) (k : A -> M B) :
  grows m -> (forall a, grows (k a)) -> grows (bind m k).
Proof.
  intros Hm Hk w. unfold bind. destruct (Hm w) as [e1 H1].
  destruct (m w) as [[a | e | ] w1]; simpl in *.
  - destruct (Hk a w1) as [e2 H2]. exists (e1 ++ e2). now rewrite H2, H1, app_assoc.
  - eauto.
  - eauto.
Qed.

Lemma grows_try_catch {A} (m : M A) h :
  grows m -> (forall e, grows (h e)) -> grows (try_catch m h).
Proof.
  intros Hm Hh w. unfold try_catch. destruct (Hm w) as [e1 H1].
  destruct (m w) as [[a | e | ] w1]; simpl in *; eauto.
  destruct (Hh e w1) as [e2 H2]. exists (e1 ++ e2). now rewrite H2, H1, app_assoc.
Qed.

Lemma grows_try_finally {A} (m : M A) f :
  grows m -> grows f -> grows (try_finally m f).
Proof.
  intros Hm Hf w. unfold try_finally. destruct (Hm w) as [e1 H1].
  destruct (m w) as [[a | e | ] w1]; simpl in *; eauto;
    destruct (Hf w1) as [e2 H2]; destruct (f w1) as [[[] | e' | ] w2]; simpl in *;
    exists (e1 ++ e2); now rewrite H2, H1, app_assoc.
Qed.

Lemma grows_attempt m : grows m -> grows (attempt m).
Proof. intros. apply grows_try_catch; auto using @grows_ret. Qed.

Lemma grows_when b m : grows m -> grows (when b m).
Proof. destruct b; simpl; auto using @grows_ret. Qed.

Lemma grows_emit e f : grows (emit e f).
Proof. intros w. simpl. eauto. Qed.

Lemma grows_get_fs : grows get_fs.
Proof. intros w. exists []. simpl. now rewrite app_nil_r. Qed.

Hint Resolve @grows_ret @grows_throw @grows_bind @grows_try_catch @grows_try_finally
  grows_attempt grows_when grows_emit grows_get_fs : grows.

Lemma grows_fs_mkdir d : grows (fs_mkdir d).
Proof. unfold fs_mkdir. auto with grows. Qed.

Lemma grows_fs_writeFile p d : grows (fs_writeFile p d).
Proof. unfold fs_writeFile. auto 10 with grows. Qed.

Lemma grows_fs_rename a b : grows (fs_rename a b).
Proof.
  unfold fs_rename. apply grows_bind; auto with grows.
  intros f. destruct (f !! a); auto with grows.
Qed.

Lemma grows_fs_unlink a : grows (fs_unlink a).
Proof.
  unfold fs_unlink. apply grows_bind; auto with grows.
  intros f. destruct (f !! a); auto with grows.
Qed.

Lemma grows_fs_readFile a : grows (fs_readFile a).
Proof.
  unfold fs_readFile. apply grows_bind; auto with grows.
  intros f. destruct (f !! a); auto with grows.
Qed.

Lemma grows_sleep ms : grows (sleep ms).
Proof. unfold sleep. auto with grows. Qed.

Variable env : Env.

Lemma grows_randomUUID : grows (randomUUID env).
Proof. intros w. exists []. simpl. now rewrite app_nil_r. Qed.

Lemma grows_now : grows (now env).
Proof. intros w. exists []. simpl. now rewrite app_nil_r. Qed.

Lemma grows_call c : grows (call env c).
Proof. intros w. unfold call. destruct (env_engine env (ncall w) c); simpl; eauto. Qed.

Lemma grows_evaluate {A} what (f : Dom.Doc -> Res A) : grows (evaluate env what f).
Proof.
  intros w. unfold evaluate. destruct (grows_call (CEvaluate what) w) as [e1 H1].
  destruct (call env (CEvaluate what) w) as [[[] | e | ] w1]; simpl in *; eauto.
Qed.

Lemma grows_content : grows (content env).
Proof.
  intros w. unfold content. destruct (grows_call CContent w) as [e1 H1].
  destruct (call env CContent w) as [[[] | e | ] w1]; simpl in *; eauto.
Qed.

Hint Resolve grows_fs_mkdir grows_fs_writeFile grows_fs_rename grows_fs_unlink
  grows_fs_readFile grows_sleep grows_randomUUID grows_now grows_call
  @grows_evaluate grows_content : grows.

Ltac grow :=
  repeat first
    [ solve [auto 10 with grows]
    | match goal with
      | |- grows (if ?b then _ else _) => destruct b
      | |- grows (match ?x with _ => _ end) => destruct x
      end
    | apply grows_bind; [|intros ?] ].

Lemma grows_screenshot p b : grows (screenshot env p b).
Proof. unfold screenshot. auto with grows. Qed.

Lemma grows_elementScreenshot p : grows (elementScreenshot env p).
Proof. unfold elementScreenshot. auto with grows. Qed.

Lemma grows_writeFileAtomic p d : grows (writeFileAtomic env p d).
Proof. unfold writeFileAtomic, ensureDir. auto 10 with grows. Qed.

Lemma grows_writeJSONAtomic p v : grows (writeJSONAtomic env p v).
Proof. apply grows_writeFileAtomic. Qed.

Hint Resolve grows_screenshot grows_elementScreenshot grows_writeFileAtomic
  grows_writeJSONAtomic : grows.

Lemma grows_query what sel f : grows (query env what sel f).
Proof. unfold query. auto with grows. Qed.

Lemma grows_extract_one s acc : grows (extract_one env s acc).
Proof.
  pose proof grows_query.
  unfold extract_one. destruct s; auto with grows;
  repeat match goal with
  | |- grows (if ?b then _ else _) => destruct b
  end; auto with grows.
Qed.

Lemma grows_extract_loop specs : forall acc, grows (extract_loop env specs acc).
Proof.
  induction specs as [|s rest IH]; intros acc; simpl; auto with grows.
  apply grows_bind; auto using grows_extract_one.
Qed.

Lemma grows_paint_loop fuel t0 T I : grows (paint_loop env fuel t0 T I).
Proof.
  induction fuel as [|fuel IH]; simpl.
  - intros w. exists []. simpl. now rewrite app_nil_r.
  - apply grows_bind; auto with grows. intros [|]; auto with grows.
    apply grows_bind; auto with grows. intros t.
    destruct (lt_val T (t - t0)); auto with grows.
Qed.

Lemma grows_waitForCanvasPaint fuel T I : grows (waitForCanvasPaint env fuel T I).
Proof. unfold waitForCanvasPaint. auto using grows_paint_loop with grows. Qed.

Lemma grows_clickMuteHeuristic : grows (clickMuteHeuristic env).
Proof.
  unfold clickMuteHeuristic. apply grows_bind; auto with grows.
  intros [sel|]; auto with grows.
Qed.

Lemma grows_exec_action fuel outDir i a : grows (exec_action env fuel outDir i a).
Proof.
  pose proof grows_waitForCanvasPaint. pose proof grows_clickMuteHeuristic.
  unfold exec_action, waitSel.
  repeat match goal with
  | |- grows (if ?b then _ else _) => destruct b
  end; auto with grows.
  apply grows_bind; auto with grows. intros _.
  destruct (or _ _); auto with grows.
Qed.

Lemma grows_step_snapshot outDir i snap : grows (step_snapshot env outDir i snap).
Proof. unfold step_snapshot. auto with grows. Qed.

Lemma grows_runActions_from fuel actions outDir snap : forall i,
  grows (runActions_from env fuel i actions outDir snap).
Proof.
  induction actions as [|a rest IH]; intros i; simpl; auto with grows.
  apply grows_bind; auto using grows_exec_action.
  intros _. apply grows_bind; auto using grows_step_snapshot.
Qed.

Lemma grows_page_steps fuel req outDir : grows (page_steps env fuel req outDir).
Proof.
  pose proof grows_runActions_from. pose proof grows_extract_loop.
  unfold page_steps, runActions, performExtracts. grow.
Qed.

Lemma grows_job_try fuel req outDir ctx : grows (job_try env fuel req outDir ctx).
Proof.
  pose proof grows_page_steps.
  unfold job_try. apply grows_bind; auto 10 with grows.
  intros [e|]; auto 10 with grows.
Qed.

Lemma grows_finish req outDir metaPath meta t0 em l :
  grows (finish env req outDir metaPath meta t0 em l).
Proof.
  unfold finish. grow.
Qed.

Lemma grows_processRequest fuel req root ctx : grows (processRequest env fuel req root ctx).
Proof.
  pose proof grows_job_try. pose proof grows_finish.
  unfold processRequest, ensureDir. grow.
Qed.

Lemma processRequest_creates_outDir fuel req root ctx w :
  exists rest,
    map fst (log (snd (processRequest env fuel req root ctx w)))
    = map fst (log w) ++ EMkdir (Path.join root (req_id req)) :: rest.
Proof.
  unfold processRequest.
  set (k := fun _ : unit => _).
  assert (forall a, grows (k a)) as Hk.
  { intros a. unfold k. pose proof grows_job_try. pose proof grows_finish. grow. }
  unfold bind at 1, ensureDir, fs_mkdir, bind at 1, get_fs, emit.
  destruct (Hk tt (mkWorld (fs w) (log w ++ [(EMkdir (Path.join root (req_id req)), fs w)])
                           (nuuid w) (nclock w) (ncall w))) as [evs Hevs].
  exists (map fst evs). rewrite Hevs. simpl. rewrite !map_app, <- app_assoc. reflexivity.
Qed.

End Growth.


(** ** Where a job writes *)

Section OutputLocation.
Import Js Sys Engine Files Num Worker Job Watcher Trace.

Lemma normalizeRequest_id env raw req w w' :
  normalizeRequest env raw w = (Ok req, w') ->
  truthy (get raw "id") = true ->
  req_id req = toStr (get raw "id").
Proof.
  unfold normalizeRequest. intros H Hid.
  destruct raw; try discriminate H; rewrite Hid in H; unfold bind, ret in H;
    repeat match type of H with
    | (if ?b then _ else _) _ = _ => destruct b
    | (if ?b then _ else _) = _ => destruct b
    end; try discriminate H; inversion H; reflexivity.
Qed.

End OutputLocation.

Example traversal_output :
  match Fixtures.processed Fixtures.env0 Fixtures.traversal_raw with
  | Some (r, w) =>
      r = Sys.Ok tt
      /\ Sys.fs w !! "/srv/etc/x/done.json" = Some (Sys.Complete (Sys.DJson Job.done_ok))
      /\ Trace.all_outside "/srv/app/responses" (map fst (Sys.log w)) = true
  | None => False
  end.
Proof. vm_compute. repeat split. Qed.


(** C9. The worker takes the id as the request file gave it
    ([String(raw.id)] when present) and makes the output directory
    [path.join(responsesDir, id)], the first thing a job touches; nothing
    checks that the result stays inside the responses directory.  For the id
    [../../etc/x], which [safeJoin] would reject, the job runs to its
    completion marker and every file it makes lies outside the responses
    directory. *)
Theorem C9_output_location_unsanitized
    (env : Engine.Env) (fuel : nat) (raw : Js.JsVal) (req : Worker.RenderRequest)
    (root : string) (ctx : option nat) (w0 w1 : Sys.World) :
  Watcher.normalizeRequest env raw w0 = (Sys.Ok req, w1) ->
  Js.truthy (Js.get raw "id") = true ->
  Worker.req_id req = Js.toStr (Js.get raw "id")
  /\ (exists rest,
        map fst (Sys.log (snd (Job.processRequest env fuel req root ctx w1)))
        = map fst (Sys.log w1)
          ++ Sys.EMkdir (Path.join root (Js.toStr (Js.get raw "id"))) :: rest)
  /\ Files.safeJoin "/srv/app" (Watcher.RESPONSES_DIR "/srv/app") "../../etc/x"
     = Sys.Throw "Unsafe path resolution: /srv/etc/x"
  /\ match Fixtures.processed Fixtures.env0 Fixtures.traversal_raw with
     | Some (r, w) =>
         r = Sys.Ok tt
         /\ Sys.fs w !! "/srv/etc/x/meta.json" <> None
         /\ Sys.fs w !! "/srv/etc/x/done.json"
            = Some (Sys.Complete (Sys.DJson Job.done_ok))
         /\ Trace.all_outside "/srv/app/responses" (map fst (Sys.log w)) = true
     | None => False
     end.
Proof.
  intros Hn Hid.
  pose proof (normalizeRequest_id env raw req w0 w1 Hn Hid) as Heq.
  split; [exact Heq|]. split.
  - rewrite <- Heq. apply processRequest_creates_outDir.
  - split; [vm_compute; reflexivity|]. vm_compute. repeat split. discriminate.
Qed.

Lemma C9_output_location_witness :
  Worker.req_id (Fixtures.html_req "../../etc/x" "<p>hi</p>")
  = Js.toStr (Js.get Fixtures.traversal_raw "id")
  /\ (exists rest,
        map fst (Sys.log (snd (Job.processRequest Fixtures.env0 5
                                 (Fixtures.html_req "../../etc/x" "<p>hi</p>")
                                 "/srv/app/responses" None (Sys.world0 ∅))))
        = map fst (Sys.log (Sys.world0 ∅))
          ++ Sys.EMkdir (Path.join "/srv/app/responses"
                           (Js.toStr (Js.get Fixtures.traversal_raw "id"))) :: rest)
  /\ Files.safeJoin "/srv/app" (Watcher.RESPONSES_DIR "/srv/app") "../../etc/x"
     = Sys.Throw "Unsafe path resolution: /srv/etc/x"
  /\ match Fixtures.processed Fixtures.env0 Fixtures.traversal_raw with
     | Some (r, w) =>
         r = Sys.Ok tt
         /\ Sys.fs w !! "/srv/etc/x/meta.json" <> None
         /\ Sys.fs w !! "/srv/etc/x/done.json"
            = Some (Sys.Complete (Sys.DJson Job.done_ok))
         /\ Trace.all_outside "/srv/app/responses" (map fst (Sys.log w)) = true
     | None => False
     end.
Proof.
  apply (C9_output_location_unsanitized Fixtures.env0 5 Fixtures.traversal_raw
           (Fixtures.html_req "../../etc/x" "<p>hi</p>") "/srv/app/responses" None
           (Sys.world0 ∅) (Sys.world0 ∅)); reflexivity.
Defined.


(** ** Atomic writes *)

Section AtomicWrites.
Import Js Sys Engine Files Num Worker Job Trace.
Variable env : Env.

(** [writeFileAtomic] always succeeds, and does exactly this. *)
Lemma writeFileAtomic_run filePath d w :
  let tmp := tmp_name filePath (env_uuid env (nuuid w)) in
  let f1 := <[tmp := Partial]> (fs w) in
  let f2 := <[tmp := Complete d]> f1 in
  let f3 := <[filePath := Complete d]> (delete tmp f2) in
  writeFileAtomic env filePath d w
  = (Ok tt,
     mkWorld f3
       (log w ++ [(EMkdir (Path.dirname filePath), fs w);
                  (EWriteOpen tmp, f1);
                  (EWriteDone tmp d, f2);
                  (ERename tmp filePath true, f3)])
       (S (nuuid w)) (nclock w) (ncall w)).
Proof.
  intros tmp f1 f2 f3.
  unfold writeFileAtomic, ensureDir, fs_mkdir, fs_writeFile, fs_rename, randomUUID,
    bind, get_fs, emit. cbn [fs log nuuid nclock ncall].
  fold (tmp_name filePath (env_uuid env (nuuid w))). fold tmp. fold f1. fold f2.
  unfold f2 at 1. rewrite lookup_insert_eq.
  cbn [fs log nuuid nclock ncall]. fold f3.
  rewrite <- !app_assoc. reflexivity.
Qed.

(** Its events, without the file system snapshots. *)
Lemma writeFileAtomic_events filePath d w :
  exists w',
    writeFileAtomic env filePath d w = (Ok tt, w')
    /\ map fst (log w')
       = map fst (log w) ++ atomic_write filePath (env_uuid env (nuuid w)) d
    /\ nclock w' = nclock w /\ ncall w' = ncall w.
Proof.
  eexists. split; [apply writeFileAtomic_run|]. simpl.
  rewrite map_app. simpl. auto.
Qed.

(** No reader sees the destination partially written on account of
    [writeFileAtomic], as long as the temporary name differs from the
    destination. *)
Lemma writeFileAtomic_never_partial filePath d w :
  tmp_name filePath (env_uuid env (nuuid w)) <> filePath ->
  seen_partial filePath (log w) = false ->
  fs w !! filePath <> Some Partial ->
  seen_partial filePath (log (snd (writeFileAtomic env filePath d w))) = false.
Proof.
  intros Hne Hold Hnow. rewrite writeFileAtomic_run. cbn [snd log].
  assert (forall x (f : gmap string File),
            <[tmp_name filePath (env_uuid env (nuuid w)) := x]> f !! filePath
            = f !! filePath) as Hskip
    by (intros; now apply lookup_insert_ne).
  unfold seen_partial in *. rewrite existsb_app, Hold. simpl.
  rewrite !lookup_insert_eq, !Hskip.
  destruct (fs w !! filePath) as [[|d']|]; try reflexivity. congruence.
Qed.

End AtomicWrites.


(** C3. Not every artifact is written through a temporary file and a
    rename.  For a default request (image snapshot on) the metadata, the
    content snapshot and the completion marker are never seen partially
    written, but the image snapshot is written in place by
    [page.screenshot({ path })]: a reader can see [screenshot.png]
    incomplete, and no rename ever targets it.  With step tracing on the
    same holds of the per-step snapshot [step-01.png]. *)
Theorem C3_screenshots_written_in_place :
  (let '(r, w) := Job.processRequest Fixtures.env0 5
                    (Fixtures.html_req "job-1" "<p>hi</p>")
                    "/srv/app/responses" None (Sys.world0 ∅) in
   r = Sys.Ok tt
   /\ Trace.seen_partial "/srv/app/responses/job-1/meta.json" (Sys.log w) = false
   /\ Trace.seen_partial "/srv/app/responses/job-1/page.html" (Sys.log w) = false
   /\ Trace.seen_partial "/srv/app/responses/job-1/done.json" (Sys.log w) = false
   /\ Trace.seen_partial "/srv/app/responses/job-1/screenshot.png" (Sys.log w) = true
   /\ In (Sys.EWriteOpen "/srv/app/responses/job-1/screenshot.png") (map fst (Sys.log w))
   /\ forallb (fun e => match e with
                        | Sys.ERename _ dst _ =>
                            negb (String.eqb dst "/srv/app/responses/job-1/screenshot.png")
                        | _ => true
                        end) (map fst (Sys.log w)) = true)
  /\ (let '(r, w) := Job.processRequest Fixtures.env0 5
                       (Fixtures.traced_req "job-2" "<p>hi</p>")
                       "/srv/app/responses" None (Sys.world0 ∅) in
      r = Sys.Ok tt
      /\ Trace.seen_partial "/srv/app/responses/job-2/step-01.png" (Sys.log w) = true
      /\ Trace.seen_partial "/srv/app/responses/job-2/done.json" (Sys.log w) = false).
Proof. vm_compute. repeat split. repeat (first [left; reflexivity | right]). Qed.


(** ** Jobs settle *)

Section Settling.
Import Js Sys Engine Files Num Worker Job Trace Liveness.

Create HintDb settles.

Lemma settles_ret {A} (a : A) : settles (ret a).
Proof. intros w. discriminate. Qed.

Lemma settles_throw {A} m : settles (@throw A m).
Proof. intros w. discriminate. Qed.

Lemma settles_bind {A B} (m : M A) (k : A -> M B) :
  settles m -> (forall a, settles (k a)) -> settles (bind m k).
Proof.
  intros Hm Hk w. unfold bind. specialize (Hm w).
  destruct (m w) as [[a | e | ] w1]; simpl in *; try discriminate; auto.
  apply Hk.
Qed.

Lemma settles_try_catch {A} (m : M A) h :
  settles m -> (forall e, settles (h e)) -> settles (try_catch m h).
Proof.
  intros Hm Hh w. unfold try_catch. specialize (Hm w).
  destruct (m w) as [[a | e | ] w1]; simpl in *; try discriminate; auto.
  apply Hh.
Qed.

Lemma settles_try_finally {A} (m : M A) f :
  settles m -> settles f -> settles (try_finally m f).
Proof.
  intros Hm Hf w. unfold try_finally. specialize (Hm w).
  destruct (m w) as [[a | e | ] w1]; simpl in *; auto;
    specialize (Hf w1); destruct (f w1) as [[[] | e' | ] w2]; simpl in *;
    try discriminate; auto.
Qed.

Lemma settles_attempt m : settles m -> settles (attempt m).
Proof. intros. apply settles_try_catch; auto using @settles_ret. Qed.

Lemma settles_when b m : settles m -> settles (when b m).
Proof. destruct b; simpl; auto using @settles_ret. Qed.

Lemma settles_emit e f : settles (emit e f).
Proof. intros w. discriminate. Qed.

Lemma settles_get_fs : settles get_fs.
Proof. intros w. discriminate. Qed.

Hint Resolve @settles_ret @settles_throw @settles_bind @settles_try_catch
  @settles_try_finally settles_attempt settles_when settles_emit settles_get_fs : settles.

Ltac settle :=
  repeat first
    [ solve [auto 10 with settles]
    | match goal with
      | |- settles (if ?b then _ else _) => destruct b
      | |- settles (match ?x with _ => _ end) => destruct x
      end
    | apply settles_bind; [|intros ?] ].

Lemma settles_fs_mkdir d : settles (fs_mkdir d).
Proof. unfold fs_mkdir. settle. Qed.

Lemma settles_fs_writeFile p d : settles (fs_writeFile p d).
Proof. unfold fs_writeFile. settle. Qed.

Lemma settles_fs_rename a b : settles (fs_rename a b).
Proof. unfold fs_rename. settle. Qed.

Lemma settles_sleep ms : settles (sleep ms).
Proof. unfold sleep. settle. Qed.

Variable env : Env.

Lemma settles_randomUUID : settles (randomUUID env).
Proof. intros w. discriminate. Qed.

Lemma settles_now : settles (now env).
Proof. intros w. discriminate. Qed.

Lemma settles_call c : settles (call env c).
Proof. intros w. unfold call. destruct (env_engine env (ncall w) c); discriminate. Qed.

Lemma settles_evaluate {A} what (f : Dom.Doc -> Res A) :
  (forall d, f d <> Hang) -> settles (evaluate env what f).
Proof.
  intros Hf w. unfold evaluate. pose proof (settles_call (CEvaluate what) w) as Hc.
  destruct (call env (CEvaluate what) w) as [[[] | e | ] w1]; simpl in *;
    try discriminate; auto.
Qed.

Lemma settles_content : settles (content env).
Proof.
  intros w. unfold content. pose proof (settles_call CContent w) as Hc.
  destruct (call env CContent w) as [[[] | e | ] w1]; simpl in *; try discriminate; auto.
Qed.

Hint Resolve settles_fs_mkdir settles_fs_writeFile settles_fs_rename settles_sleep
  settles_randomUUID settles_now settles_call settles_content : settles.

Lemma settles_screenshot p b : settles (screenshot env p b).
Proof. unfold screenshot. settle. Qed.

Lemma settles_elementScreenshot p : settles (elementScreenshot env p).
Proof. unfold elementScreenshot. settle. Qed.

Lemma settles_writeFileAtomic p d : settles (writeFileAtomic env p d).
Proof. unfold writeFileAtomic, ensureDir. settle. Qed.

Hint Resolve settles_screenshot settles_elementScreenshot settles_writeFileAtomic : settles.

Lemma settles_query what sel f : settles (query env what sel f).
Proof.
  unfold query. apply settles_evaluate. intros d.
  destruct (Dom.select d (toStr sel)); discriminate.
Qed.

Lemma settles_extract_one s acc : settles (extract_one env s acc).
Proof. pose proof settles_query. unfold extract_one. settle. Qed.

Lemma settles_extract_loop specs : forall acc, settles (extract_loop env specs acc).
Proof.
  induction specs as [|s rest IH]; intros acc; simpl; auto with settles.
  apply settles_bind; auto using settles_extract_one.
Qed.

Lemma settles_clickMuteHeuristic : settles (clickMuteHeuristic env).
Proof.
  unfold clickMuteHeuristic. apply settles_bind.
  - apply settles_evaluate. discriminate.
  - intros [sel|]; auto with settles.
Qed.

Lemma settles_step_snapshot outDir i snap : settles (step_snapshot env outDir i snap).
Proof. unfold step_snapshot. settle. Qed.

Hypothesis clock : clock_advances env.

(** The polling loop settles once the fuel covers the time left to the
    deadline, one poll a millisecond at worst. *)
Lemma paint_loop_settles T t I t0 : toNumber T = Some t ->
  forall fuel w,
    (1 <= fuel)%nat ->
    2 + t - (env_now env (nclock w) - t0) <= Z.of_nat fuel ->
    fst (paint_loop env fuel t0 T I w) <> Hang.
Proof.
  intros HT. induction fuel as [|fuel IH]; intros w H1 Hfuel; [lia|].
  simpl. unfold bind at 1, evaluate, call.
  destruct (env_engine env (ncall w) (CEvaluate "canvasPaint")); [discriminate|].
  destruct (PageFns.painted _); [discriminate|].
  unfold bind at 1, now at 1. cbn [nclock fs log nuuid ncall].
  unfold lt_val. rewrite HT.
  destruct (t <? env_now env (nclock w) - t0) eqn:Hlt; [discriminate|].
  apply Z.ltb_ge in Hlt.
  unfold bind at 1, sleep, bind at 1, get_fs, emit. cbn [nclock fs log nuuid ncall].
  pose proof (clock (nclock w)) as Hadv.
  apply IH; cbn [nclock]; lia.
Qed.

Lemma waitForCanvasPaint_settles a fuel :
  is_Some (paint_deadline a) ->
  is_str (get a "type") "waitForCanvasPaint" = true ->
  (polls_needed a <= fuel)%nat ->
  settles (waitForCanvasPaint env fuel (nullish (get a "timeoutMs") (JNum 60000))
                              (nullish (get a "intervalMs") (JNum 500))).
Proof.
  intros [t Ht] Hty Hfuel w. unfold polls_needed in Hfuel. rewrite Hty, Ht in Hfuel.
  unfold waitForCanvasPaint, bind, now at 1.
  pose proof (clock (nclock w)) as Hadv.
  apply (paint_loop_settles _ t _ _ Ht); cbn [nclock]; lia.
Qed.

Lemma exec_action_settles fuel outDir i a :
  (is_str (get a "type") "waitForCanvasPaint" = true -> is_Some (paint_deadline a)) ->
  (polls_needed a <= fuel)%nat ->
  settles (exec_action env fuel outDir i a).
Proof.
  intros Hd Hfuel. pose proof settles_clickMuteHeuristic.
  unfold exec_action, waitSel.
  repeat match goal with
  | |- settles (if ?b && _ then _ else _) => destruct b; simpl andb
  | |- settles (if is_str ?t ?l then _ else _) => destruct (is_str t l) eqn:?
  | |- settles (if ?b then _ else _) => destruct b
  end; try solve [settle].
  all: apply waitForCanvasPaint_settles; auto.
Qed.

Lemma runActions_from_settles fuel actions outDir snap : forall i,
  deadlines_set actions ->
  (patience actions <= fuel)%nat ->
  settles (runActions_from env fuel i actions outDir snap).
Proof.
  induction actions as [|a rest IH]; intros i Hd Hp; simpl; auto with settles.
  inversion Hd; subst. simpl in Hp.
  apply settles_bind; [apply exec_action_settles; auto; lia|].
  intros _. apply settles_bind; [apply settles_step_snapshot|].
  intros _. apply IH; auto. lia.
Qed.

Lemma page_steps_settles fuel req outDir :
  deadlines_set (actions_of req) ->
  (patience (actions_of req) <= fuel)%nat ->
  settles (page_steps env fuel req outDir).
Proof.
  intros Hd Hp. unfold actions_of in *.
  pose proof settles_extract_loop.
  unfold page_steps, performExtracts, runActions.
  repeat (apply settles_bind; [|intros ?]);
    try solve [settle].
  destruct (nonempty_array (req_actions req)); [|settle].
  apply runActions_from_settles; auto.
Qed.

(** The [try] statement of a job resolves, with the error message if any:
    it neither throws nor stays pending. *)
Lemma job_try_resolves fuel req outDir ctx w :
  deadlines_set (actions_of req) ->
  (patience (actions_of req) <= fuel)%nat ->
  exists r w', job_try env fuel req outDir ctx w = (Ok r, w').
Proof.
  intros Hd Hp. unfold job_try.
  unfold bind at 1, try_catch at 1, bind at 1, call.
  destruct (env_engine env (ncall w) (CNewPage ctx)) as [e|]; simpl; [eauto|].
  set (w1 := mkWorld _ _ _ _ _).
  unfold bind, try_finally, try_catch at 1.
  pose proof (page_steps_settles fuel req outDir Hd Hp w1) as Hs.
  unfold bind. destruct (page_steps env fuel req outDir w1) as [[[] | e | ] w2];
    simpl in *; try congruence;
    unfold attempt, try_catch, call;
    destruct (env_engine env (ncall w2) CClosePage); simpl; eauto.
Qed.

(** What the [try] statement reports: the message of the failed page
    creation, else the message the steps threw, else nothing. *)
Lemma job_try_reports fuel req outDir ctx w r w' :
  job_try env fuel req outDir ctx w = (Ok r, w') ->
  match env_engine env (ncall w) (CNewPage ctx) with
  | Some e => r = (Some e, false)
  | None =>
      exists w1 w2,
        snd r = true
        /\ ncall w1 = S (ncall w)
        /\ match page_steps env fuel req outDir w1 with
           | (Ok _, w2') => fst r = None /\ w2 = w2'
           | (Throw e, w2') => fst r = Some e /\ w2 = w2'
           | (Hang, _) => False
           end
  end.
Proof.
  unfold job_try. unfold bind at 1, try_catch at 1, bind at 1, call.
  destruct (env_engine env (ncall w) (CNewPage ctx)) as [e|]; simpl.
  - intros H; inversion H; reflexivity.
  - set (w1 := mkWorld _ _ _ _ _).
    unfold bind, try_finally, try_catch at 1. unfold bind.
    intros H. exists w1.
    destruct (page_steps env fuel req outDir w1) as [[[] | e | ] w2]; simpl in *;
      try discriminate H; exists w2;
      unfold attempt, try_catch, call in H;
      destruct (env_engine env (ncall w2) CClosePage); simpl in H;
      inversion H; subst; simpl; auto.
Qed.

End Settling.


(** ** The completion marker *)

Section Marker.
Import Js Sys Engine Files Num Worker Job Trace Liveness.
Variable env : Env.

Lemma bind_ok {A B} (m : M A) (k : A -> M B) w a w1 :
  m w = (Ok a, w1) -> bind m k w = k a w1.
Proof. intros H. unfold bind. now rewrite H. Qed.

(** A swallowed block that settles resolves, and only adds to the log. *)
Lemma attempt_resolves m w :
  settles m -> grows m ->
  exists w' evs, attempt m w = (Ok tt, w') /\ log w' = log w ++ evs.
Proof.
  intros Hs Hg. unfold attempt, try_catch.
  specialize (Hs w). destruct (Hg w) as [evs Hevs].
  destruct (m w) as [[[] | e | ] w1]; simpl in *; try congruence; eauto.
Qed.

Lemma finish_writes_marker_last req outDir metaPath meta t0 em l w :
  exists pre u w',
    finish env req outDir metaPath meta t0 em l w = (outcome_of em, w')
    /\ map fst (log w')
       = map fst (log w) ++ pre
         ++ atomic_write (Path.join outDir "done.json") u (DJson (marker_of em)).
Proof.
  unfold finish.
  unfold bind at 1, now at 1.
  set (w1 := mkWorld _ _ _ (S (nclock w)) _).
  set (meta' := meta_finished env meta t0 (env_now env (nclock w)) em).
  destruct (writeFileAtomic_events env metaPath (DJson meta') w1)
    as (w2 & Hrun2 & Hlog2 & _).
  unfold writeJSONAtomic at 1. rewrite (bind_ok _ _ _ _ _ Hrun2).
  match goal with
  | |- context [bind (attempt ?body) _ w2] =>
      destruct (attempt_resolves body w2) as (w3 & evs & Hrun3 & Hlog3)
  end.
  { pose proof (settles_writeFileAtomic env).
    apply settles_bind; [apply settles_when; auto | intros; apply settles_when; auto]. }
  { pose proof (grows_writeFileAtomic env).
    apply grows_bind; [apply grows_when; auto | intros; apply grows_when; auto]. }
  rewrite (bind_ok _ _ _ _ _ Hrun3).
  unfold outcome_of, marker_of.
  destruct (error_set em) as [e|].
  - destruct (writeFileAtomic_events env (Path.join outDir "done.json")
                (DJson (done_error e)) w3) as (w4 & Hrun4 & Hlog4 & _).
    unfold writeJSONAtomic. rewrite (bind_ok _ _ _ _ _ Hrun4).
    exists (atomic_write metaPath (env_uuid env (nuuid w1)) (DJson meta') ++ map fst evs),
           (env_uuid env (nuuid w3)), w4.
    split; [reflexivity|].
    rewrite Hlog4, Hlog3, map_app, Hlog2. unfold w1; simpl. now rewrite <- !app_assoc.
  - destruct (writeFileAtomic_events env (Path.join outDir "done.json")
                (DJson done_ok) w3) as (w4 & Hrun4 & Hlog4 & _).
    unfold writeJSONAtomic. rewrite Hrun4.
    exists (atomic_write metaPath (env_uuid env (nuuid w1)) (DJson meta') ++ map fst evs),
           (env_uuid env (nuuid w3)), w4.
    split; [reflexivity|].
    rewrite Hlog4, Hlog3, map_app, Hlog2. unfold w1; simpl. now rewrite <- !app_assoc.
Qed.

End Marker.





(** A job whose navigation fails: error fields in the metadata, no content
    or image snapshot, and the error marker as the last three events. *)
Example navigation_failure_trace :
  let '(r, w) := Job.processRequest Fixtures.env_nav_fails 5
                   (Fixtures.html_req "job-4" "<p>hi</p>")
                   "/srv/app/responses" None (Sys.world0 ∅) in
  r = Sys.Throw "Navigation timeout of 30000 ms exceeded"
  /\ Sys.fs w !! "/srv/app/responses/job-4/page.html" = None
  /\ Sys.fs w !! "/srv/app/responses/job-4/screenshot.png" = None
  /\ Sys.fs w !! "/srv/app/responses/job-4/done.json"
     = Some (Sys.Complete
               (Sys.DJson (Job.done_error "Navigation timeout of 30000 ms exceeded")))
  /\ option_map (fun f => match f with
                          | Sys.Complete (Sys.DJson m) => Js.get m "hadError"
                          | _ => Js.JUndef
                          end)
                (Sys.fs w !! "/srv/app/responses/job-4/meta.json")
     = Some (Js.JBool true)
  /\ skipn (length (Sys.log w) - 3) (map fst (Sys.log w))
     = [Sys.EWriteOpen "/srv/app/responses/job-4/.done.json.tmp-u2";
        Sys.EWriteDone "/srv/app/responses/job-4/.done.json.tmp-u2"
          (Sys.DJson (Job.done_error "Navigation timeout of 30000 ms exceeded"));
        Sys.ERename "/srv/app/responses/job-4/.done.json.tmp-u2"
          "/srv/app/responses/job-4/done.json" true].
Proof. vm_compute. repeat split. Qed.

(** An error whose message is empty is not seen by [if (errorMessage)]: the
    marker says ok. *)
Example empty_error_message :
  Liveness.marker_of (Some "") = Job.done_ok
  /\ Liveness.outcome_of (Some "") = Sys.Ok tt.
Proof. split; reflexivity. Qed.


(** ** Claiming and the session registry under interleaving *)

(** C1. A lost claim race is not skipped.  The same request file is
    delivered twice; both handlers read it before either renames it.  The
    first rename succeeds and the second fails because the file is gone, so
    one claimed copy exists, yet the handler whose rename failed goes on:
    both handlers enqueue the job, and running the two tasks processes the
    request twice (two pages opened, two completion markers written into
    the one output directory). *)
Theorem C1_lost_race_is_processed_twice :
  let p := "/srv/app/requests/a.json" in
  let claimed := "/srv/app/requests/processing/job-7.json" in
  let m0 := Watcher.main0 (Fixtures.inbox1 "a.json" (Fixtures.raw_job "job-7" None)) in
  let '(hs, m) := Sched.run_handlers Fixtures.env0 "/srv/app" [0; 1; 0; 1]%nat
                    [Watcher.on_add m0 p; Watcher.on_add m0 p] m0 in
  let '(ts, m') := Sched.run_tasks Fixtures.env0 "/srv/app" 5 [0; 0; 1; 1]%nat
                     (map (fun t => (t, Watcher.TStart)) (Watcher.enqueued m)) m in
  Trace.count_events (Trace.is_rename_into claimed true) (Sys.log (Watcher.world m)) = 1%nat
  /\ Trace.count_events (Trace.is_rename_into claimed false) (Sys.log (Watcher.world m)) = 1%nat
  /\ hs = [Watcher.HWaiting 0; Watcher.HWaiting 1]
  /\ map (fun t => Worker.req_id (Watcher.t_req t)) (Watcher.enqueued m) = ["job-7"; "job-7"]
  /\ map snd ts = [Watcher.TDone; Watcher.TDone]
  /\ Trace.count_events Trace.is_new_page (Sys.log (Watcher.world m')) = 2%nat
  /\ Trace.count_events (Trace.is_rename_into "/srv/app/responses/job-7/done.json" true)
       (Sys.log (Watcher.world m')) = 2%nat.
Proof. vm_compute. repeat split. Qed.

(** The same request dropped under two names: both renames succeed, the
    second replacing the first claimed copy, and both handlers enqueue. *)
Example same_request_two_files :
  let m0 := Watcher.main0 (Fixtures.inbox2 "a.json" "b.json" (Fixtures.raw_job "job-7" None)) in
  let '(hs, m) := Sched.run_handlers Fixtures.env0 "/srv/app" [0; 0; 1; 1]%nat
                    [Watcher.on_add m0 "/srv/app/requests/a.json";
                     Watcher.on_add m0 "/srv/app/requests/b.json"] m0 in
  Trace.count_events
    (Trace.is_rename_into "/srv/app/requests/processing/job-7.json" true)
    (Sys.log (Watcher.world m)) = 2%nat
  /\ map (fun t => Worker.req_id (Watcher.t_req t)) (Watcher.enqueued m) = ["job-7"; "job-7"].
Proof. vm_compute. repeat split. Qed.

(** A second delivery that arrives after the first claim finds no file: it
    enqueues nothing, but reports the missing file as a failed job under a
    generated id. *)
Example late_duplicate_is_reported :
  let p := "/srv/app/requests/a.json" in
  let m0 := Watcher.main0 (Fixtures.inbox1 "a.json" (Fixtures.raw_job "job-7" None)) in
  let '(hs, m) := Sched.run_handlers Fixtures.env0 "/srv/app" [0; 0; 1; 1]%nat
                    [Watcher.on_add m0 p; Watcher.on_add m0 p] m0 in
  length (Watcher.enqueued m) = 1%nat
  /\ Sys.fs (Watcher.world m) !! "/srv/app/responses/u0/done.json"
     = Some (Sys.Complete
               (Sys.DJson (Job.done_error "ENOENT: no such file or directory, open"))).
Proof. vm_compute. repeat split. Qed.

(** C2. The registry is not single-flight.  With a bound of 2 the limiter
    starts two tasks of the same new session before either settles.  Both
    look the session up, find nothing and ask for a context; both requests
    resolve, so two contexts are created for the one session identifier,
    the registry keeps the second, and the two jobs run in different
    contexts. *)
Theorem C2_two_contexts_for_one_session :
  let ts0 := [(Fixtures.session_task "job-a" "s", Watcher.TStart);
              (Fixtures.session_task "job-b" "s", Watcher.TStart)] in
  let '(ts, m) := Sched.run_tasks Fixtures.env0 "/srv/app" 5 [0; 1; 0; 1]%nat ts0
                    (Watcher.main0 ∅) in
  Limiter.running (Limiter.run 2 [Limiter.Enqueue 0; Limiter.Enqueue 1;
                                  Limiter.Immediate; Limiter.Immediate]) = [0; 1]%nat
  /\ map snd ts = [Watcher.TRun (Some 0%nat); Watcher.TRun (Some 1%nat)]
  /\ Watcher.nctx m = 2%nat
  /\ Trace.count_events Trace.is_create_context (Sys.log (Watcher.world m)) = 2%nat
  /\ Watcher.sessionContexts m !! "s" = Some 1%nat.
Proof. vm_compute. repeat split. Qed.

(** One task after the other, as with the default bound of 1, the second
    task finds the context of the first. *)
Example one_context_when_sequential :
  let ts0 := [(Fixtures.session_task "job-a" "s", Watcher.TStart);
              (Fixtures.session_task "job-b" "s", Watcher.TStart)] in
  let '(ts, m) := Sched.run_tasks Fixtures.env0 "/srv/app" 5 [0; 0; 1]%nat ts0
                    (Watcher.main0 ∅) in
  map snd ts = [Watcher.TRun (Some 0%nat); Watcher.TRun (Some 0%nat)]
  /\ Watcher.nctx m = 1%nat.
Proof. vm_compute. repeat split. Qed.

(** C6. The click does not always land on the highest-scoring element.  The
    page function marks the best candidate with the attribute data-ww-click
    and returns the selector of that attribute; [page.click] then acts on
    the first element of the document carrying it.  On a document whose
    first button, Accept (score -1), already carries the attribute, and
    whose second button is No Sound (score 5), the function picks No Sound
    and the click lands on Accept. *)
Theorem C6_click_lands_on_marked_element :
  let d := Fixtures.doc_of [Fixtures.marked_button "Accept"; Fixtures.button "No Sound"] in
  PageFns.score (Fixtures.marked_button "Accept") = -1
  /\ PageFns.score (Fixtures.button "No Sound") = 5
  /\ PageFns.best_loop (PageFns.candidates d) None 0 = (Some 1%nat, 5)
  /\ snd (PageFns.mute_evaluate d) = Some PageFns.mark_selector
  /\ PageFns.mute_clicked d = Some 0%nat.
Proof. vm_compute. repeat split. Qed.

(** A task whose session context cannot be created never calls
    [processRequest]: the error is logged, the claim is released, and no
    file is written for the job. *)
Example context_failure_writes_nothing :
  let '(ts, m) := Sched.run_tasks Fixtures.env_no_context "/srv/app" 5 [0; 0]%nat
                    [(Fixtures.session_task "job-a" "s", Watcher.TStart)]
                    (Watcher.main0 ∅) in
  map snd ts = [Watcher.TDone]
  /\ map fst (Sys.log (Watcher.world m))
     = [Sys.ECall Sys.CCreateContext (Some "Protocol error: Target closed");
        Sys.EUnlink "/srv/app/requests/processing/job-a.json" false].
Proof. vm_compute. repeat split. Qed.


(** * Further properties of the code *)

(** ** files.js: atomic writes and reading back *)

Section FilesMore.
Import Js Sys Engine Files Trace.
Variable env : Env.




End FilesMore.



(** X4. A reader that looks at the destination at any moment of a
    [writeFileAtomic] sees either what was there before or the complete new
    data, never anything in between (the temporary name being another path
    than the destination). *)
Theorem X4_writeFileAtomic_old_or_new
    (env : Engine.Env) (filePath : string) (d : Sys.Data) (w : Sys.World) :
  Trace.tmp_name filePath (Engine.env_uuid env (Sys.nuuid w)) <> filePath ->
  exists evs,
    Sys.log (snd (Files.writeFileAtomic env filePath d w)) = Sys.log w ++ evs
    /\ Forall (fun ef => snd ef !! filePath = Sys.fs w !! filePath
                         \/ snd ef !! filePath = Some (Sys.Complete d)) evs.
Proof.
  intros Hne. rewrite writeFileAtomic_run. cbn [snd Sys.log].
  eexists. split; [reflexivity|].
  apply Forall_cons_2; [left; reflexivity|].
  apply Forall_cons_2; [left; cbn [snd]; now rewrite lookup_insert_ne|].
  apply Forall_cons_2; [left; cbn [snd]; now rewrite !lookup_insert_ne|].
  apply Forall_cons_2; [right; apply lookup_insert_eq | apply Forall_nil_2].
Qed.

Lemma X4_writeFileAtomic_witness :
  exists evs,
    Sys.log (snd (Files.writeFileAtomic Fixtures.env0 "/srv/app/responses/j/meta.json"
                    (Sys.DText "x") (Sys.world0 ∅)))
    = Sys.log (Sys.world0 ∅) ++ evs
    /\ Forall (fun ef => snd ef !! "/srv/app/responses/j/meta.json"
                         = Sys.fs (Sys.world0 ∅) !! "/srv/app/responses/j/meta.json"
                         \/ snd ef !! "/srv/app/responses/j/meta.json"
                            = Some (Sys.Complete (Sys.DText "x"))) evs.
Proof.
  apply (X4_writeFileAtomic_old_or_new Fixtures.env0 "/srv/app/responses/j/meta.json"
           (Sys.DText "x") (Sys.world0 ∅)).
  vm_compute. discriminate.
Defined.


(** ** watcher.js: normalizeRequest *)

Section NormalizeMore.
Import Js Sys Engine Files Num Worker Job Watcher Trace Validation.
Variable env : Env.

Create HintDb grows.

#[local] Hint Resolve @grows_ret @grows_throw @grows_bind @grows_try_catch
  @grows_try_finally grows_attempt grows_when grows_emit grows_get_fs
  grows_fs_mkdir grows_fs_writeFile grows_fs_rename grows_fs_unlink
  grows_fs_readFile grows_sleep grows_randomUUID grows_now grows_call
  @grows_evaluate grows_content grows_screenshot grows_elementScreenshot
  grows_writeFileAtomic grows_writeJSONAtomic grows_runActions_from
  grows_extract_loop : grows.

Ltac grow_more :=
  repeat first
    [ solve [auto 10 with grows]
    | match goal with
      | |- grows (if ?b then _ else _) => destruct b
      | |- grows (match ?x with _ => _ end) => destruct x
      end
    | apply grows_bind; [|intros ?] ].


(** What a request that came out of [normalizeRequest] looks like. *)
Lemma normalizeRequest_shape (raw : JsVal) (req : RenderRequest) (w w' : World) :
  normalizeRequest env raw w = (Ok req, w') ->
  (or (req_viewport req) default_viewport = req_viewport req
   /\ or (req_waitUntil req) (JStr "networkidle2") = req_waitUntil req
   /\ nullish (req_timeoutMs req) (JNum 30000) = req_timeoutMs req
   /\ JBool (truthy (req_fullPage req)) = req_fullPage req
   /\ JBool (truthy (req_screenshot req)) = req_screenshot req
   /\ JBool (truthy (req_htmlOutput req)) = req_htmlOutput req
   /\ JBool (truthy (req_screenshotOnEachAction req)) = req_screenshotOnEachAction req
   /\ (req_actions req = JUndef \/ exists xs, req_actions req = JArr xs)
   /\ (req_extract req = JUndef \/ exists xs, req_extract req = JArr xs))
  /\ (is_str (req_op req) "render_url" = true /\ truthy (req_url req) = true
      \/ is_str (req_op req) "render_url" = false
         /\ is_str (req_op req) "render_html" = true /\ truthy (req_html req) = true).
Proof.
  unfold normalizeRequest. intros H.
  assert (forall v d, truthy d = true -> or (or v d) d = or v d) as Hor.
  { intros v d Hd. unfold or. destruct (truthy v) eqn:E; [now rewrite E | now rewrite Hd]. }
  assert (forall v d, d <> JUndef -> d <> JNull -> nullish (nullish v d) d = nullish v d)
    as Hnull.
  { intros v d H1 H2. destruct v; simpl; auto; destruct d; simpl; congruence. }
  assert (forall v, JBool (truthy (flag_default_true v)) = flag_default_true v) as Hflag.
  { intros v. destruct v; reflexivity. }
  assert (forall v, (if isArray v then v else JUndef) = JUndef
                    \/ exists xs, (if isArray v then v else JUndef) = JArr xs) as Harr.
  { intros v. destruct v; simpl; eauto. }
  destruct raw; try discriminate H; unfold bind, ret, throw, randomUUID in H;
    try match type of H with
        | context [is_str (get ?r "op") "render_url"] =>
            destruct (is_str (get r "op") "render_url") eqn:Eu,
                     (is_str (get r "op") "render_html") eqn:Eh,
                     (truthy (get r "url")) eqn:Tu, (truthy (get r "html")) eqn:Th,
                     (truthy (get r "id"))
        end;
    try (apply is_str_eq in Eu; apply is_str_eq in Eh; congruence);
    cbn in H; try discriminate H; inversion H; subst;
    cbn [req_viewport req_waitUntil req_timeoutMs req_fullPage req_screenshot
         req_htmlOutput req_screenshotOnEachAction req_actions req_extract
         req_op req_url req_html];
    (split; [repeat split; auto; apply Hnull; discriminate | auto]).
Qed.

(** X6. On a request that came out of [normalizeRequest] the worker's own
    fall-backs never fire: the viewport, the completion policy and the
    timeout are already set, and the output and capture flags are already
    booleans, so re-applying the defaults changes nothing. *)
Theorem X6_normalized_needs_no_fallback (raw : JsVal) (req : RenderRequest) (w w' : World) :
  normalizeRequest env raw w = (Ok req, w') ->
  or (req_viewport req) default_viewport = req_viewport req
  /\ or (req_waitUntil req) (JStr "networkidle2") = req_waitUntil req
  /\ nullish (req_timeoutMs req) (JNum 30000) = req_timeoutMs req
  /\ JBool (truthy (req_fullPage req)) = req_fullPage req
  /\ JBool (truthy (req_screenshot req)) = req_screenshot req
  /\ JBool (truthy (req_htmlOutput req)) = req_htmlOutput req
  /\ JBool (truthy (req_screenshotOnEachAction req)) = req_screenshotOnEachAction req
  /\ (req_actions req = JUndef \/ exists xs, req_actions req = JArr xs)
  /\ (req_extract req = JUndef \/ exists xs, req_extract req = JArr xs).
Proof. intros H. exact (proj1 (normalizeRequest_shape raw req w w' H)). Qed.

Lemma call_resolves c w :
  engine_resolves env ->
  call env c w
  = (Ok tt, mkWorld (fs w) (log w ++ [(ECall c None, fs w)])
                    (nuuid w) (nclock w) (S (ncall w))).
Proof. intros H. unfold call. now rewrite H. Qed.

(** X7. A request that came out of [normalizeRequest] never trips the
    worker's own validation (Unknown op, url / html is required): with an
    engine that answers, the steps of the job reach the navigation call,
    made with the request's completion policy and timeout, after at most
    five configuration calls and nothing else. *)
Theorem X7_normalized_reaches_navigation
    (raw : JsVal) (req : RenderRequest) (w0 w1 : World)
    (fuel : nat) (outDir : string) (w : World) :
  engine_resolves env ->
  normalizeRequest env raw w0 = (Ok req, w1) ->
  exists pre post,
    map fst (log (snd (page_steps env fuel req outDir w)))
    = map fst (log w) ++ pre ++ ECall (navigation_of req) None :: post
    /\ Forall (fun e => exists c, e = ECall c None) pre
    /\ (length pre <= 5)%nat.
Proof.
  intros Heng Hn.
  destruct (normalizeRequest_shape raw req w0 w1 Hn)
    as ((_ & Hwu & Hto & _) & Hop).
  unfold page_steps. rewrite Hwu, Hto.
  set (ua := when (truthy (req_userAgent req)) _).
  set (hd := when (truthy (req_extraHeaders req) && _) _).
  assert (forall c w0, exists w0',
            when c (call env (CSetUserAgent (req_userAgent req))) w0 = (Ok tt, w0')
            /\ exists l, map fst (log w0') = map fst (log w0) ++ l
                         /\ Forall (fun e => exists c, e = ECall c None) l
                         /\ (length l <= 1)%nat) as Hua.
  { intros [|] w'; simpl.
    - rewrite call_resolves by exact Heng. eexists. split; [reflexivity|].
      exists [ECall (CSetUserAgent (req_userAgent req)) None]. simpl.
      rewrite map_app. repeat split; eauto.
    - eexists. split; [reflexivity|]. exists []. rewrite app_nil_r. auto. }
  assert (forall c w0, exists w0',
            when c (call env (CSetExtraHTTPHeaders (req_extraHeaders req))) w0 = (Ok tt, w0')
            /\ exists l, map fst (log w0') = map fst (log w0) ++ l
                         /\ Forall (fun e => exists c, e = ECall c None) l
                         /\ (length l <= 1)%nat) as Hhd.
  { intros [|] w'; simpl.
    - rewrite call_resolves by exact Heng. eexists. split; [reflexivity|].
      exists [ECall (CSetExtraHTTPHeaders (req_extraHeaders req)) None]. simpl.
      rewrite map_app. repeat split; eauto.
    - eexists. split; [reflexivity|]. exists []. rewrite app_nil_r. auto. }
  destruct (Hua (truthy (req_userAgent req)) w) as (wa & Hra & la & Hla & Fa & La).
  fold ua in Hra. rewrite (bind_ok _ _ _ _ _ Hra).
  destruct (Hhd (truthy (req_extraHeaders req)
                 && (0 <? keys_count (req_extraHeaders req))%nat) wa)
    as (wb & Hrb & lb & Hlb & Fb & Lb).
  fold hd in Hrb. rewrite (bind_ok _ _ _ _ _ Hrb).
  rewrite (bind_ok _ _ _ _ _ (call_resolves _ _ Heng)).
  rewrite (bind_ok _ _ _ _ _ (call_resolves _ _ Heng)).
  rewrite (bind_ok _ _ _ _ _ (call_resolves _ _ Heng)).
  match goal with
  | |- context [bind ?nav ?k ?wc] =>
      assert (nav wc = call env (navigation_of req) wc) as Hnav
  end.
  { unfold navigation_of.
    destruct Hop as [[Hu Tu] | (Hu & Hh & Th)]; rewrite Hu, ?Hh, ?Tu, ?Th; reflexivity. }
  unfold bind at 1. rewrite Hnav, call_resolves by exact Heng.
  match goal with
  | |- context [snd (?tail ?wd)] =>
      assert (grows tail) as Hg by (pose proof (grows_runActions_from env);
                                    pose proof (grows_extract_loop env);
                                    unfold runActions, performExtracts; grow_more);
      destruct (Hg wd) as [evs Hevs]
  end.
  rewrite Hevs. cbn [log]. rewrite !map_app. cbn [map fst].
  rewrite Hlb, Hla.
  exists (la ++ lb ++ [ECall (CSetViewport (or (req_viewport req) default_viewport)) None;
                       ECall (CSetDefaultNavigationTimeout (req_timeoutMs req)) None;
                       ECall (CSetDefaultTimeout (req_timeoutMs req)) None]),
         (map fst evs).
  split; [rewrite <- !app_assoc; reflexivity|].
  split.
  - apply Forall_app; split; [exact Fa|]. apply Forall_app; split; [exact Fb|].
    repeat constructor; eauto.
  - rewrite !length_app. simpl. lia.
Qed.

End NormalizeMore.

Lemma X6_normalized_witness :
  Js.or (Worker.req_viewport (Fixtures.html_req "job-7" "<p>hi</p>")) Worker.default_viewport
  = Worker.req_viewport (Fixtures.html_req "job-7" "<p>hi</p>")
  /\ Js.or (Worker.req_waitUntil (Fixtures.html_req "job-7" "<p>hi</p>"))
        (Js.JStr "networkidle2")
     = Worker.req_waitUntil (Fixtures.html_req "job-7" "<p>hi</p>")
  /\ Js.nullish (Worker.req_timeoutMs (Fixtures.html_req "job-7" "<p>hi</p>")) (Js.JNum 30000)
     = Worker.req_timeoutMs (Fixtures.html_req "job-7" "<p>hi</p>")
  /\ Js.JBool (Js.truthy (Worker.req_fullPage (Fixtures.html_req "job-7" "<p>hi</p>")))
     = Worker.req_fullPage (Fixtures.html_req "job-7" "<p>hi</p>")
  /\ Js.JBool (Js.truthy (Worker.req_screenshot (Fixtures.html_req "job-7" "<p>hi</p>")))
     = Worker.req_screenshot (Fixtures.html_req "job-7" "<p>hi</p>")
  /\ Js.JBool (Js.truthy (Worker.req_htmlOutput (Fixtures.html_req "job-7" "<p>hi</p>")))
     = Worker.req_htmlOutput (Fixtures.html_req "job-7" "<p>hi</p>")
  /\ Js.JBool (Js.truthy (Worker.req_screenshotOnEachAction
                            (Fixtures.html_req "job-7" "<p>hi</p>")))
     = Worker.req_screenshotOnEachAction (Fixtures.html_req "job-7" "<p>hi</p>")
  /\ (Worker.req_actions (Fixtures.html_req "job-7" "<p>hi</p>") = Js.JUndef
      \/ exists xs, Worker.req_actions (Fixtures.html_req "job-7" "<p>hi</p>") = Js.JArr xs)
  /\ (Worker.req_extract (Fixtures.html_req "job-7" "<p>hi</p>") = Js.JUndef
      \/ exists xs, Worker.req_extract (Fixtures.html_req "job-7" "<p>hi</p>") = Js.JArr xs).
Proof.
  apply (X6_normalized_needs_no_fallback Fixtures.env0 (Fixtures.raw_job "job-7" None)
           (Fixtures.html_req "job-7" "<p>hi</p>") (Sys.world0 ∅) (Sys.world0 ∅)).
  reflexivity.
Defined.

Lemma X7_normalized_witness :
  exists pre post,
    map fst (Sys.log (snd (Job.page_steps Fixtures.env0 5
                             (Fixtures.html_req "job-7" "<p>hi</p>")
                             "/srv/app/responses/job-7" (Sys.world0 ∅))))
    = map fst (Sys.log (Sys.world0 ∅)) ++ pre
      ++ Sys.ECall (Validation.navigation_of (Fixtures.html_req "job-7" "<p>hi</p>")) None
         :: post
    /\ Forall (fun e => exists c, e = Sys.ECall c None) pre
    /\ (length pre <= 5)%nat.
Proof.
  apply (X7_normalized_reaches_navigation Fixtures.env0 (Fixtures.raw_job "job-7" None)
           (Fixtures.html_req "job-7" "<p>hi</p>") (Sys.world0 ∅) (Sys.world0 ∅)
           5 "/srv/app/responses/job-7" (Sys.world0 ∅)).
  - intros k c. reflexivity.
  - reflexivity.
Defined.


(** ** watcher.js: more on the limiter *)

Section LimiterMore.
Import Limiter.
Variable limit : Z.
Hypothesis limit_pos : 1 <= limit.

Lemma mem_head r l : mem r (r :: l) = true.
Proof. simpl. now rewrite Nat.eqb_refl. Qed.

Lemma drain_from n : forall s,
  Inv limit s -> length (queue s) = n ->
  exists es',
    Forall not_a_submission es'
    /\ queue (fold_left (step limit) es' s) = []
    /\ Inv limit (fold_left (step limit) es' s)
    /\ submitted (fold_left (step limit) es' s) = submitted s.
Proof.
  induction n as [|n IH]; intros s Hinv Hlen.
  - exists []. simpl. destruct (queue s); [auto | discriminate].
  - destruct (queue s) as [|t rest] eqn:Hq; [discriminate|].
    assert (exists pre s1, Forall not_a_submission pre
                           /\ s1 = fold_left (step limit) pre s
                           /\ Inv limit s1 /\ queue s1 = t :: rest
                           /\ active s1 < limit /\ submitted s1 = submitted s)
      as (pre & s1 & Hpre & Hs1 & Hinv1 & Hq1 & Hfree & Hsub1).
    { destruct (Z.lt_ge_cases (active s) limit) as [Hlt | Hge].
      - exists [], s. simpl. split; [constructor|]. split; [reflexivity|].
        split; [exact Hinv|]. auto.
      - pose proof Hinv as [Ha Hb Hf Hw].
        destruct (running s) as [|r rs] eqn:Hr; [simpl in Ha; lia|].
        exists [Settle r], (step limit s (Settle r)).
        assert (Inv limit (step limit s (Settle r))) as Hinv'
          by (apply inv_step; auto).
        split; [repeat constructor|]. split; [reflexivity|]. split; [exact Hinv'|].
        simpl. rewrite Hr, mem_head. simpl. split; [exact Hq|]. split; [lia | reflexivity]. }
    destruct (dispatch_oldest limit s1 t rest Hinv1 Hfree Hq1) as (_ & _ & _ & Hq2).
    destruct (IH (step limit s1 Immediate)) as (es2 & Hes2 & Hempty & Hinv2 & Hsub2).
    { apply inv_step; auto. }
    { rewrite Hq2. simpl in Hlen. lia. }
    exists (pre ++ Immediate :: es2). rewrite fold_left_app. cbn [fold_left].
    rewrite <- Hs1.
    split; [apply Forall_app; split; auto; constructor; [exact I | auto]|].
    split; [exact Hempty|]. split; [exact Hinv2|].
    rewrite Hsub2, submitted_step, app_nil_r. exact Hsub1.
Qed.

End LimiterMore.

(** X8. No task waits for ever: from whatever the limiter has reached, some
    continuation in which only immediates run and running tasks settle (no
    new submission) empties the wait list, and by then every submitted task
    has been started, in submission order. *)
Theorem X8_limiter_drains (limit : Z) (es : list Limiter.Event) :
  1 <= limit ->
  exists es',
    Forall not_a_submission es'
    /\ Limiter.queue (Limiter.run limit (es ++ es')) = []
    /\ Limiter.dispatched (Limiter.run limit (es ++ es')) = submissions es.
Proof.
  intros Hpos.
  assert (Limiter.Inv limit (Limiter.run limit es)) as Hinv
    by (apply inv_fold, inv_init; exact Hpos).
  destruct (drain_from limit Hpos _ (Limiter.run limit es) Hinv eq_refl)
    as (es' & Hes' & Hq & Hinv' & Hsub).
  exists es'. unfold Limiter.run in *. rewrite fold_left_app.
  repeat split; auto.
  destruct Hinv' as [_ _ Hf _]. rewrite Hq, app_nil_r in Hf.
  rewrite Hf, Hsub. now rewrite submitted_fold.
Qed.

Lemma X8_limiter_drains_witness :
  exists es',
    Forall not_a_submission es'
    /\ Limiter.queue (Limiter.run 1 ([Limiter.Enqueue 4; Limiter.Enqueue 5;
                                      Limiter.Immediate]%nat ++ es')) = []
    /\ Limiter.dispatched (Limiter.run 1 ([Limiter.Enqueue 4; Limiter.Enqueue 5;
                                           Limiter.Immediate]%nat ++ es'))
       = submissions [Limiter.Enqueue 4; Limiter.Enqueue 5; Limiter.Immediate]%nat.
Proof.
  apply (X8_limiter_drains 1 [Limiter.Enqueue 4; Limiter.Enqueue 5; Limiter.Immediate]%nat).
  lia.
Defined.


(** ** watcher.js: the bound read from the environment *)

Section ConcurrencyMore.
Import Limiter.

Lemma nan_enqueues l : forall s,
  fold_left (Concurrency.step None) (map Enqueue l) s
  = mkState (active s) (queue s ++ l) (length l + immediates s)
            (running s) (dispatched s) (submitted s ++ l).
Proof.
  induction l as [|x l IH]; intros s; simpl.
  - rewrite !app_nil_r. now destruct s.
  - rewrite IH. simpl. rewrite <- !app_assoc. simpl. f_equal. lia.
Qed.

Lemma nan_immediates k : forall s,
  (k <= length (queue s))%nat -> (k <= immediates s)%nat ->
  let s' := fold_left (Concurrency.step None) (repeat Immediate k) s in
  running s' = running s ++ take k (queue s)
  /\ queue s' = drop k (queue s)
  /\ active s' = active s + Z.of_nat k.
Proof.
  induction k as [|k IH]; intros s Hq Hi; simpl.
  - rewrite app_nil_r, drop_0. repeat split; lia.
  - destruct (immediates s) as [|i] eqn:Himm; [lia|].
    destruct (queue s) as [|t rest] eqn:Hqs; [simpl in Hq; lia|].
    unfold Concurrency.runNext.
    cbn [Concurrency.at_limit active queue running dispatched submitted immediates].
    match goal with |- context [fold_left _ _ ?s1] => specialize (IH s1) end.
    cbn [queue immediates running active] in IH.
    destruct IH as (Hr & Hqq & Ha); [simpl in Hq; lia | lia |].
    rewrite Hr, Hqq, Ha. rewrite <- app_assoc. simpl. repeat split; auto. lia.
Qed.

End ConcurrencyMore.

(** X9. The bound [CONCURRENCY] is at least 1 whenever it is a number, but
    it is NaN when the environment variable holds a text that does not
    start with an integer (as in CONCURRENCY=four), and a limiter made with
    NaN holds nothing back: of a burst of [n] submissions all [n] tasks run
    at once.  With a number as bound the limiter is the one of
    [createLimiter(limit)]. *)
Theorem X9_nan_bound_is_no_bound :
  (forall v l, Concurrency.CONCURRENCY v = Some l -> 1 <= l)
  /\ Concurrency.CONCURRENCY None = Some 1
  /\ Concurrency.CONCURRENCY (Some "0") = Some 1
  /\ Concurrency.CONCURRENCY (Some "3 workers") = Some 3
  /\ Concurrency.CONCURRENCY (Some "four") = None
  /\ (forall l es, Concurrency.run (Some l) es = Limiter.run l es)
  /\ (forall n,
        Limiter.running (Concurrency.run None (Concurrency.burst n)) = seq 0 n
        /\ Limiter.queue (Concurrency.run None (Concurrency.burst n)) = []
        /\ Limiter.active (Concurrency.run None (Concurrency.burst n)) = Z.of_nat n).
Proof.
  split.
  { intros v l. unfold Concurrency.CONCURRENCY, Concurrency.max1.
    destruct (Concurrency.parseInt10 _); simpl; [|discriminate].
    intros H; inversion H. lia. }
  do 4 (split; [reflexivity|]).
  split.
  { intros l es. unfold Concurrency.run, Limiter.run.
    generalize Limiter.init. induction es as [|e es IH]; intros s; simpl; auto. }
  intros n. unfold Concurrency.run, Concurrency.burst.
  rewrite fold_left_app, nan_enqueues.
  set (s1 := Limiter.mkState _ _ _ _ _ _).
  destruct (nan_immediates n s1) as (Hr & Hq & Ha);
    try (unfold s1; cbn [Limiter.queue Limiter.immediates Limiter.init app];
         rewrite ?length_seq; lia).
  rewrite Hr, Hq, Ha. unfold s1.
  cbn [Limiter.queue Limiter.running Limiter.active Limiter.init app].
  rewrite take_ge, drop_ge by (rewrite length_seq; lia). auto.
Qed.


(** ** worker.js: the action loop *)

Section ActionsMore.
Import Js Sys Engine Num Worker.
Variable env : Env.

Lemma bind_assoc {A B C} (m : M A) (k : A -> M B) (h : B -> M C) w :
  bind (bind m k) h w = bind m (fun a => bind (k a) h) w.
Proof. unfold bind. destruct (m w) as [[a | e | ] w1]; reflexivity. Qed.

Lemma bind_ext {A B} (m : M A) (k k' : A -> M B) w :
  (forall a w1, k a w1 = k' a w1) -> bind m k w = bind m k' w.
Proof. intros H. unfold bind. destruct (m w) as [[a | e | ] w1]; auto. Qed.

(** X10. Running a sequence of actions is running its first part and then
    the rest, the step numbers going on where the first part stopped; so an
    action that throws ends the run there: its error is the outcome and no
    later action, and no snapshot after it, leaves any trace. *)
Theorem X10_runActions_sequence
    (fuel : nat) (xs ys : list JsVal) (outDir : string) (snap : bool)
    (i : nat) (w : World) :
  runActions_from env fuel i (xs ++ ys) outDir snap w
  = bind (runActions_from env fuel i xs outDir snap)
      (fun _ => runActions_from env fuel (i + length xs) ys outDir snap) w
  /\ (forall e w',
        runActions_from env fuel i xs outDir snap w = (Throw e, w') ->
        runActions_from env fuel i (xs ++ ys) outDir snap w = (Throw e, w')).
Proof.
  assert (forall xs i w,
            runActions_from env fuel i (xs ++ ys) outDir snap w
            = bind (runActions_from env fuel i xs outDir snap)
                (fun _ => runActions_from env fuel (i + length xs) ys outDir snap) w) as Heq.
  { clear. induction xs as [|a xs IH]; intros i w.
    - simpl. now rewrite Nat.add_0_r.
    - cbn [app runActions_from length]. rewrite !bind_assoc.
      apply bind_ext. intros _ w1. rewrite !bind_assoc.
      apply bind_ext. intros _ w2. rewrite IH.
      now replace (S i + length xs)%nat with (i + S (length xs))%nat by lia. }
  split; [apply Heq|].
  intros e w' H. rewrite Heq. unfold bind. now rewrite H.
Qed.

End ActionsMore.


(** ** worker.js: which element the mute heuristic picks *)

Section MuteMore.
Import Js Dom Sys Engine PageFns Worker.

(** The loop over the candidates, with the place of the winner: nothing
    before it reaches its score, nothing after it exceeds it. *)
Lemma best_loop_split cands : forall best bestScore best' s',
  best_loop cands best bestScore = (best', s') ->
  (best' = best /\ s' = bestScore /\ forall j e', In (j, e') cands -> score e' <= bestScore)
  \/ (exists l1 i e l2,
        cands = l1 ++ (i, e) :: l2 /\ best' = Some i /\ score e = s' /\ bestScore < s'
        /\ (forall j e', In (j, e') l1 -> score e' < s')
        /\ (forall j e', In (j, e') l2 -> score e' <= s')).
Proof.
  induction cands as [|[i e] rest IH]; intros best bs best' s' H; simpl in H.
  - inversion H; subst. left. repeat split; auto. intros ? ? [].
  - destruct (bs <? score e) eqn:Hlt.
    + apply Z.ltb_lt in Hlt. right.
      destruct (IH _ _ _ _ H) as [(-> & -> & Hall) | (l1 & k & e2 & l2 & -> & -> & Hs & Hb & H1 & H2)].
      * exists [], i, e, rest. repeat split; auto. intros ? ? [].
      * exists ((i, e) :: l1), k, e2, l2. repeat split; auto; [lia|].
        intros j e' [Heq | Hin]; [inversion Heq; subst; lia | eauto].
    + apply Z.ltb_ge in Hlt.
      destruct (IH _ _ _ _ H) as [(-> & -> & Hall) | (l1 & k & e2 & l2 & -> & -> & Hs & Hb & H1 & H2)].
      * left. repeat split; auto.
        intros j e' [Heq | Hin]; [inversion Heq; subst; lia | eauto].
      * right. exists ((i, e) :: l1), k, e2, l2. repeat split; auto.
        intros j e' [Heq | Hin]; [inversion Heq; subst; lia | eauto].
Qed.

(** The candidates come in document order. *)
Lemma candidates_from_ordered ns : forall k l1 i e l2,
  candidates_from k ns = l1 ++ (i, e) :: l2 ->
  (forall j e', In (j, e') l1 -> (j < i)%nat)
  /\ (forall j e', In (j, e') l2 -> (i < j)%nat).
Proof.
  induction ns as [|n rest IH]; intros k l1 i e l2 H; simpl in H.
  - destruct l1; discriminate.
  - destruct (el_clickable n); [|eauto].
    destruct l1 as [|[k' n'] l1']; simpl in H; injection H as Hk Hn Hrest.
    + subst. split; [intros ? ? []|].
      intros j e' Hin. apply candidates_from_spec in Hin. lia.
    + subst k' n'. destruct (IH _ _ _ _ _ Hrest) as [Hb Ha]. split; [|exact Ha].
      intros j e' [Heq | Hin]; [|eauto].
      inversion Heq; subst.
      assert (In (i, e) (candidates_from (S j) rest)) as Hi
        by (rewrite Hrest; apply in_or_app; right; now left).
      apply candidates_from_spec in Hi. lia.
Qed.

(** A score of 3 or more takes an off-term; no score exceeds 5. *)
Lemma score_range (e : Element) :
  score e <= 5
  /\ (3 <= score e ->
      Text.test_any off_terms
        (Text.toLowerCase (or_str (el_innerText e) (or_str (el_textContent e) ""))) = true).
Proof.
  unfold score.
  destruct (Text.test_any sound_terms _), (Text.test_any off_terms _),
    (Text.test_any accept_terms _); split; intros; auto; lia.
Qed.

(** The page function returns a selector exactly when some candidate
    reaches 3. *)
Lemma mute_selector_iff (d : Doc) :
  snd (mute_evaluate d)
  = if existsb (fun ce => 3 <=? score (snd ce)) (candidates d)
    then Some mark_selector else None.
Proof.
  destruct (existsb _ (candidates d)) eqn:Hex.
  - apply existsb_exists in Hex as ([j e] & Hin & H3). simpl in H3. apply Z.leb_le in H3.
    unfold mute_evaluate.
    destruct (best_loop (candidates d) None 0) as [b s] eqn:Hb.
    destruct (best_loop_spec _ _ _ _ _ Hb) as (_ & Hmax & Hsel).
    specialize (Hmax _ _ Hin).
    destruct Hsel as [[-> ->] | (k & e' & _ & -> & _ & _)]; [lia|].
    assert ((3 <=? s) = true) as -> by (apply Z.leb_le; lia). reflexivity.
  - assert (forall i e, In (i, e) (candidates d) -> score e < 3) as Hlow.
    { intros i e Hin.
      destruct (Z.ltb_spec (score e) 3) as [|Hge]; [assumption|exfalso].
      assert (existsb (fun ce => 3 <=? score (snd ce)) (candidates d) = true) as Ht.
      { apply existsb_exists. exists (i, e). split; [assumption|]. now apply Z.leb_le. }
      congruence. }
    now destruct (mute_no_candidate_no_click d Hlow) as [-> _].
Qed.

(** X11. On a page where no element carries the marker attribute, the
    element the mute heuristic clicks is a clickable element whose label
    contains an off-term (no, off, mute, disable, bez, vyp); no clickable
    element scores higher, and every clickable element before it in the
    document scores strictly lower: among equal scores the earliest
    wins. *)
Theorem X11_mute_click_prefers_earliest (d : Doc) (i : nat) :
  Forall (fun n => is_marked n = false) (nodes d) ->
  mute_clicked d = Some i ->
  exists e,
    nodes d !! i = Some e /\ el_clickable e = true
    /\ Text.test_any off_terms
         (Text.toLowerCase (or_str (el_innerText e) (or_str (el_textContent e) ""))) = true
    /\ forall j e', nodes d !! j = Some e' -> el_clickable e' = true ->
         score e' <= score e /\ ((j < i)%nat -> score e' < score e).
Proof.
  intros Hfresh. unfold mute_clicked, mute_evaluate.
  destruct (best_loop (candidates d) None 0) as [b s] eqn:Hb.
  destruct (best_loop_split _ _ _ _ _ Hb)
    as [(-> & -> & _) | (l1 & k & e & l2 & Hc & -> & Hs & Hpos & H1 & H2)]; [discriminate|].
  destruct (3 <=? s) eqn:H3; [|discriminate].
  apply Z.leb_le in H3. unfold click_target; simpl.
  assert (In (k, e) (candidates d)) as Hin
    by (rewrite Hc; apply in_or_app; right; now left).
  destruct (candidates_from_spec _ _ _ _ Hin) as (_ & Hl & Hcl).
  rewrite Nat.sub_0_r in Hl.
  rewrite (first_marked_update _ 0 k e Hfresh Hl). simpl.
  intros Heq; inversion Heq; subst i.
  destruct (candidates_from_ordered _ _ _ _ _ _ Hc) as [Hbefore Hafter].
  exists e. split; [assumption|]. split; [assumption|].
  split; [apply score_range; lia|].
  intros j e' Hj Hcj.
  pose proof (candidates_from_complete _ 0 j e' Hj Hcj) as Hinj. simpl in Hinj.
  unfold candidates in Hc. rewrite Hc in Hinj.
  apply in_app_or in Hinj as [Hin1 | [Heq' | Hin2]].
  - specialize (H1 _ _ Hin1). split; lia.
  - inversion Heq'; subst. split; lia.
  - specialize (H2 _ _ Hin2). specialize (Hafter _ _ Hin2). split; lia.
Qed.

Lemma X11_mute_click_witness :
  exists e,
    nodes (Fixtures.doc_of [Fixtures.button "Sound"; Fixtures.button "Mute";
                            Fixtures.button "Off"]) !! 1%nat = Some e
    /\ el_clickable e = true
    /\ Text.test_any off_terms
         (Text.toLowerCase (or_str (el_innerText e) (or_str (el_textContent e) ""))) = true
    /\ forall j e',
         nodes (Fixtures.doc_of [Fixtures.button "Sound"; Fixtures.button "Mute";
                                 Fixtures.button "Off"]) !! j = Some e' ->
         el_clickable e' = true ->
         score e' <= score e /\ ((j < 1)%nat -> score e' < score e).
Proof.
  apply (X11_mute_click_prefers_earliest
           (Fixtures.doc_of [Fixtures.button "Sound"; Fixtures.button "Mute";
                             Fixtures.button "Off"]) 1%nat).
  - repeat constructor.
  - reflexivity.
Defined.

Variable env : Env.

(** X12. Once its page function has run, [clickMuteHeuristic] clicks
    exactly when some clickable element of the page scores 3 or more: then
    its second and last engine call is the click on the marker selector,
    whose outcome is its own; otherwise the evaluation is its only call and
    it resolves.  A rejected evaluation is its outcome, with no click. *)
Theorem X12_clickMuteHeuristic_calls (w : World) :
  let d := env_doc env (ncall w) in
  let ev := env_engine env (ncall w) (CEvaluate "muteHeuristic") in
  let ck := env_engine env (S (ncall w)) (CClick (JStr mark_selector)) in
  let r := clickMuteHeuristic env w in
  fs (snd r) = fs w
  /\ match ev with
     | Some m =>
         fst r = Throw m
         /\ map fst (log (snd r)) = map fst (log w) ++ [ECall (CEvaluate "muteHeuristic") ev]
     | None =>
         if existsb (fun ce => 3 <=? score (snd ce)) (candidates d) then
           fst r = match ck with Some m => Throw m | None => Ok tt end
           /\ map fst (log (snd r))
              = map fst (log w) ++ [ECall (CEvaluate "muteHeuristic") None;
                                    ECall (CClick (JStr mark_selector)) ck]
         else
           fst r = Ok tt
           /\ map fst (log (snd r)) = map fst (log w) ++ [ECall (CEvaluate "muteHeuristic") None]
     end.
Proof.
  intros d ev ck r. subst r. unfold clickMuteHeuristic, bind, evaluate, call.
  fold ev. destruct ev as [m|]; cbn [fst snd fs log ncall].
  - split; [reflexivity|]. split; [reflexivity|]. now rewrite map_app.
  - fold d. rewrite (mute_selector_iff d).
    destruct (existsb _ (candidates d)); cbn [fst snd fs log ncall].
    + fold ck. clearbody ck. destruct ck; cbn [fst snd fs log ncall];
        (split; [reflexivity|]; split; [reflexivity|]);
        rewrite !map_app, <- app_assoc; reflexivity.
    + unfold ret; cbn [fst snd fs log ncall].
      split; [reflexivity|]. split; [reflexivity|]. now rewrite map_app.
Qed.

End MuteMore.


(** ** worker.js: specs the extraction pass does not know *)

Section ExtractMore.
Import Js Sys Engine Num Dom Worker ExtractSpec.
Variable env : Env.

Lemma extract_one_unknown s acc w :
  s <> JUndef -> s <> JNull -> four_kinds s = false ->
  extract_one env s acc w = (Ok acc, w).
Proof.
  intros Hu Hn Hk. unfold four_kinds in Hk.
  apply orb_false_iff in Hk as [Hk E4]. apply orb_false_iff in Hk as [Hk E3].
  apply orb_false_iff in Hk as [E1 E2].
  unfold extract_one. destruct s; try congruence; rewrite E1, E2, E3, E4; reflexivity.
Qed.

Lemma extract_loop_filter specs : forall acc w,
  Forall (fun s => s <> JUndef /\ s <> JNull) specs ->
  extract_loop env specs acc w = extract_loop env (List.filter four_kinds specs) acc w.
Proof.
  induction specs as [|s rest IH]; intros acc w Hall; [reflexivity|].
  inversion Hall as [|? ? [Hu Hn] Hrest]; subst.
  cbn [extract_loop List.filter]. destruct (four_kinds s) eqn:Hk.
  - cbn [extract_loop]. apply bind_ext. intros a w1. now apply IH.
  - unfold bind at 1. rewrite (extract_one_unknown s acc w Hu Hn Hk). now apply IH.
Qed.

(** X13. A spec whose type is none of text, attr, html and exists is passed
    over: it costs no page evaluation and leaves no entry, so the pass over
    a list of specs (none of them null or undefined) is the pass over its
    specs of the four kinds, result, trace and failure alike. *)
Theorem X13_unknown_specs_are_dropped (specs : list JsVal) (w : World) :
  Forall (fun s => s <> JUndef /\ s <> JNull) specs ->
  performExtracts env specs w = performExtracts env (List.filter four_kinds specs) w.
Proof. intros H. unfold performExtracts. now apply extract_loop_filter. Qed.

End ExtractMore.

Lemma X13_unknown_specs_witness :
  Worker.performExtracts Fixtures.env_heading
    [Js.JObj [("type", Js.JStr "count"); ("selector", Js.JStr "#t")];
     Fixtures.spec_text "#t"; Js.JNum 7] (Sys.world0 ∅)
  = Worker.performExtracts Fixtures.env_heading
      (List.filter ExtractSpec.four_kinds
         [Js.JObj [("type", Js.JStr "count"); ("selector", Js.JStr "#t")];
          Fixtures.spec_text "#t"; Js.JNum 7]) (Sys.world0 ∅).
Proof.
  apply (X13_unknown_specs_are_dropped Fixtures.env_heading
           [Js.JObj [("type", Js.JStr "count"); ("selector", Js.JStr "#t")];
            Fixtures.spec_text "#t"; Js.JNum 7] (Sys.world0 ∅)).
  repeat (apply Forall_cons_2; [split; discriminate|]). apply Forall_nil_2.
Defined.


(** ** What the parts of a job are confined to *)

Section Confinement.
Import Js Sys Engine Files Num Worker Job Trace Confined.

Create HintDb only.

Section Closure.
Variable P : Event -> bool.

Lemma only_ret {A} (a : A) : only P (ret a).
Proof. intros w. exists []. simpl. now rewrite app_nil_r. Qed.

Lemma only_throw {A} m : only P (@throw A m).
Proof. intros w. exists []. simpl. now rewrite app_nil_r. Qed.

Lemma only_bind {A B} (m : M A) (k : A -> M B) :
  only P m -> (forall a, only P (k a)) -> only P (bind m k).
Proof.
  intros Hm Hk w. unfold bind. destruct (Hm w) as (e1 & H1 & P1).
  destruct (m w) as [[a | e | ] w1]; simpl in *.
  - destruct (Hk a w1) as (e2 & H2 & P2). exists (e1 ++ e2).
    rewrite H2, H1, app_assoc, forallb_app, P1, P2. auto.
  - eauto.
  - eauto.
Qed.

Lemma only_try_catch {A} (m : M A) h :
  only P m -> (forall e, only P (h e)) -> only P (try_catch m h).
Proof.
  intros Hm Hh w. unfold try_catch. destruct (Hm w) as (e1 & H1 & P1).
  destruct (m w) as [[a | e | ] w1]; simpl in *; eauto.
  destruct (Hh e w1) as (e2 & H2 & P2). exists (e1 ++ e2).
  rewrite H2, H1, app_assoc, forallb_app, P1, P2. auto.
Qed.

Lemma only_try_finally {A} (m : M A) f :
  only P m -> only P f -> only P (try_finally m f).
Proof.
  intros Hm Hf w. unfold try_finally. destruct (Hm w) as (e1 & H1 & P1).
  destruct (m w) as [[a | e | ] w1]; simpl in *; eauto;
    destruct (Hf w1) as (e2 & H2 & P2); destruct (f w1) as [[[] | e' | ] w2]; simpl in *;
    exists (e1 ++ e2); rewrite H2, H1, app_assoc, forallb_app, P1, P2; auto.
Qed.

Lemma only_attempt m : only P m -> only P (attempt m).
Proof. intros. apply only_try_catch; auto using @only_ret. Qed.

Lemma only_when b m : only P m -> only P (when b m).
Proof. destruct b; simpl; auto using @only_ret. Qed.

Lemma only_get_fs : only P get_fs.
Proof. intros w. exists []. simpl. now rewrite app_nil_r. Qed.

Lemma only_emit e f : P e = true -> only P (emit e f).
Proof. intros H w. exists [(e, f)]. simpl. rewrite H. auto. Qed.

Variable env : Env.

Lemma only_randomUUID : only P (randomUUID env).
Proof. intros w. exists []. simpl. now rewrite app_nil_r. Qed.

Lemma only_now : only P (now env).
Proof. intros w. exists []. simpl. now rewrite app_nil_r. Qed.

Lemma only_call c : (forall r, P (ECall c r) = true) -> only P (call env c).
Proof.
  intros H w. unfold call. exists [(ECall c (env_engine env (ncall w) c), fs w)].
  destruct (env_engine env (ncall w) c) eqn:E; simpl; rewrite H; auto.
Qed.

Lemma only_evaluate {A} what (f : Dom.Doc -> Res A) :
  (forall r, P (ECall (CEvaluate what) r) = true) -> only P (evaluate env what f).
Proof.
  intros H w. unfold evaluate. destruct (only_call _ H w) as (e1 & H1 & P1).
  destruct (call env (CEvaluate what) w) as [[[] | e | ] w1]; simpl in *; eauto.
Qed.

Lemma only_content : (forall r, P (ECall CContent r) = true) -> only P (content env).
Proof.
  intros H w. unfold content. destruct (only_call _ H w) as (e1 & H1 & P1).
  destruct (call env CContent w) as [[[] | e | ] w1]; simpl in *; eauto.
Qed.

End Closure.

Variable env : Env.

#[local] Hint Resolve @only_ret @only_throw @only_bind @only_try_catch @only_try_finally
  only_attempt only_when only_get_fs only_emit only_randomUUID only_now only_call
  @only_evaluate only_content : only.
#[local] Hint Extern 1 (_ = true) => reflexivity : only.
#[local] Hint Extern 1 (forall _, _ = true) => intros; reflexivity : only.

Ltac confine :=
  repeat first
    [ solve [auto 10 with only]
    | match goal with
      | |- only _ (if ?b then _ else _) => destruct b
      | |- only _ (match ?x with _ => _ end) => destruct x
      end
    | apply only_bind; [|intros ?] ].

(** *** Looking at the page *)

Lemma only_query what sel f : only is_evaluation (query env what sel f).
Proof. unfold query. auto with only. Qed.

Lemma only_extract_one s acc : only is_evaluation (extract_one env s acc).
Proof.
  pose proof only_query.
  unfold extract_one. destruct s; auto with only;
  repeat match goal with
  | |- only _ (if ?b then _ else _) => destruct b
  end; auto with only.
Qed.

Lemma only_extract_loop specs : forall acc, only is_evaluation (extract_loop env specs acc).
Proof.
  induction specs as [|s rest IH]; intros acc; simpl; auto with only.
  apply only_bind; auto using only_extract_one.
Qed.

(** *** The steps of a job *)

Lemma work_fs_writeFile p d : only page_work (fs_writeFile p d).
Proof. unfold fs_writeFile. auto 10 with only. Qed.

Lemma work_sleep ms : only page_work (sleep ms).
Proof. unfold sleep. auto with only. Qed.

Lemma work_writeFileAtomic p d : only page_work (writeFileAtomic env p d).
Proof.
  intros w. rewrite writeFileAtomic_run. cbn [snd log]. eexists. split; reflexivity.
Qed.

#[local] Hint Resolve work_fs_writeFile work_sleep work_writeFileAtomic : only.

Lemma work_screenshot p b : only page_work (screenshot env p b).
Proof. unfold screenshot. auto with only. Qed.

Lemma work_elementScreenshot p : only page_work (elementScreenshot env p).
Proof. unfold elementScreenshot. auto with only. Qed.

#[local] Hint Resolve work_screenshot work_elementScreenshot : only.

Lemma evaluation_is_work {A} (m : M A) : only is_evaluation m -> only page_work m.
Proof.
  intros H w. destruct (H w) as (evs & Hl & Hp). exists evs. split; [assumption|].
  rewrite forallb_forall in *. intros ef Hin. specialize (Hp ef Hin).
  destruct (fst ef) as [| | | | | | |c r]; try discriminate. now destruct c.
Qed.

Lemma work_paint_loop fuel t0 T I : only page_work (paint_loop env fuel t0 T I).
Proof.
  induction fuel as [|fuel IH]; simpl.
  - intros w. exists []. simpl. now rewrite app_nil_r.
  - apply only_bind; auto with only. intros [|]; auto with only.
    apply only_bind; auto with only. intros t.
    destruct (lt_val T (t - t0)); auto with only.
Qed.

Lemma work_waitForCanvasPaint fuel T I : only page_work (waitForCanvasPaint env fuel T I).
Proof. unfold waitForCanvasPaint. auto using work_paint_loop with only. Qed.

Lemma work_clickMuteHeuristic : only page_work (clickMuteHeuristic env).
Proof.
  unfold clickMuteHeuristic. apply only_bind; auto with only.
  intros [sel|]; auto with only.
Qed.

Lemma work_exec_action fuel outDir i a : only page_work (exec_action env fuel outDir i a).
Proof.
  pose proof work_waitForCanvasPaint. pose proof work_clickMuteHeuristic.
  unfold exec_action, waitSel.
  repeat match goal with
  | |- only _ (if ?b then _ else _) => destruct b
  end; auto with only.
  apply only_bind; auto with only. intros _.
  destruct (or _ _); auto with only.
Qed.

Lemma work_step_snapshot outDir i snap : only page_work (step_snapshot env outDir i snap).
Proof. unfold step_snapshot. auto with only. Qed.

Lemma work_runActions_from fuel actions outDir snap : forall i,
  only page_work (runActions_from env fuel i actions outDir snap).
Proof.
  induction actions as [|a rest IH]; intros i; simpl; auto with only.
  apply only_bind; auto using work_exec_action.
  intros _. apply only_bind; auto using work_step_snapshot.
Qed.

Lemma work_page_steps fuel req outDir : only page_work (page_steps env fuel req outDir).
Proof.
  pose proof work_runActions_from.
  pose proof (fun specs acc => evaluation_is_work _ (only_extract_loop specs acc)).
  unfold page_steps, runActions, performExtracts. confine.
Qed.

Lemma work_finish req outDir metaPath meta t0 em l :
  only page_work (finish env req outDir metaPath meta t0 em l).
Proof. unfold finish, writeJSONAtomic. confine. Qed.

End Confinement.


(** ** worker.js: an extraction pass only looks *)

Section ExtractLooks.
Import Js Sys Engine Num Dom Worker Confined.
Variable env : Env.

Lemma query_looks what sel f w :
  exists r,
    query env what sel f w
    = (r, mkWorld (fs w)
            (log w ++ [(ECall (CEvaluate what) (env_engine env (ncall w) (CEvaluate what)),
                        fs w)])
            (nuuid w) (nclock w) (S (ncall w))).
Proof.
  unfold query, evaluate, call.
  destruct (env_engine env (ncall w) (CEvaluate what)); eexists; reflexivity.
Qed.

Lemma extract_one_looks s acc w :
  fs (snd (extract_one env s acc w)) = fs w
  /\ exists evs,
       log (snd (extract_one env s acc w)) = log w ++ evs
       /\ (length evs <= 1)%nat
       /\ forallb (fun ef => is_evaluation (fst ef)) evs = true.
Proof.
  assert (forall r : Res (list JsVal),
            fs (snd (r, w)) = fs w
            /\ exists evs, log (snd (r, w)) = log w ++ evs /\ (length evs <= 1)%nat
                 /\ forallb (fun ef => is_evaluation (fst ef)) evs = true) as Hstay.
  { intros r. split; [reflexivity|]. exists []. simpl. rewrite app_nil_r. auto. }
  assert (forall what sel f (k : JsVal -> list JsVal),
            let r := bind (query env what sel f) (fun v => ret (k v)) w in
            fs (snd r) = fs w
            /\ exists evs, log (snd r) = log w ++ evs /\ (length evs <= 1)%nat
                 /\ forallb (fun ef => is_evaluation (fst ef)) evs = true) as Hq.
  { intros what sel f k. cbv zeta. unfold bind.
    destruct (query_looks what sel f w) as [r ->].
    destruct r; (split; [reflexivity|]); eexists; (split; [reflexivity|]); simpl; auto. }
  unfold extract_one.
  destruct s; try apply Hstay;
    repeat match goal with
    | |- context [if ?b then _ else _] => destruct b
    end; try apply Hq; apply Hstay.
Qed.

Lemma extract_loop_looks specs : forall acc w,
  fs (snd (extract_loop env specs acc w)) = fs w
  /\ exists evs,
       log (snd (extract_loop env specs acc w)) = log w ++ evs
       /\ (length evs <= length specs)%nat
       /\ forallb (fun ef => is_evaluation (fst ef)) evs = true.
Proof.
  induction specs as [|s rest IH]; intros acc w.
  - split; [reflexivity|]. exists []. simpl. rewrite app_nil_r. auto.
  - cbn [extract_loop]. unfold bind.
    destruct (extract_one_looks s acc w) as (Hfs & e1 & H1 & L1 & P1).
    destruct (extract_one env s acc w) as [[acc' | e | ] w1]; cbn [fst snd] in *.
    + destruct (IH acc' w1) as (Hfs2 & e2 & H2 & L2 & P2).
      split; [congruence|]. exists (e1 ++ e2).
      rewrite H2, H1, app_assoc, forallb_app, P1, P2, length_app. simpl.
      repeat split; auto. lia.
    + split; [assumption|]. exists e1. simpl. repeat split; auto. lia.
    + split; [assumption|]. exists e1. simpl. repeat split; auto. lia.
Qed.

(** X14. An extraction pass only looks at the page: whatever the specs and
    whatever the engine answers, it changes no file, and the events it adds
    are page evaluations, at most one per spec (none after the first query
    that failed). *)
Theorem X14_extraction_only_looks (specs : list JsVal) (w : World) :
  fs (snd (performExtracts env specs w)) = fs w
  /\ exists evs,
       log (snd (performExtracts env specs w)) = log w ++ evs
       /\ (length evs <= length specs)%nat
       /\ forallb (fun ef => is_evaluation (fst ef)) evs = true.
Proof. apply extract_loop_looks. Qed.

End ExtractLooks.


(** ** worker.js: the shape of a job's trace *)

Section JobShape.
Import Js Sys Engine Files Num Worker Job Trace Confined Liveness.
Variable env : Env.

(** The [try] statement: the page is opened; if that worked the steps run
    and the page is closed, unless a step stays pending. *)
Lemma job_try_shape fuel req outDir ctx w :
  let res := env_engine env (ncall w) (CNewPage ctx) in
  let r := job_try env fuel req outDir ctx w in
  exists steps closing,
    map fst (log (snd r))
    = map fst (log w) ++ ECall (CNewPage ctx) res :: steps ++ closing
    /\ forallb page_work steps = true
    /\ match res with
       | Some e => steps = [] /\ closing = [] /\ fst r = Ok (Some e, false)
       | None =>
           (exists rc em, closing = [ECall CClosePage rc] /\ fst r = Ok (em, true))
           \/ (closing = [] /\ fst r = Hang)
       end.
Proof.
  intros res r. subst r.
  assert (env_engine env (ncall w) (CNewPage ctx) = res) as Hres by reflexivity.
  clearbody res.
  destruct (job_try env fuel req outDir ctx w) as [rr w'] eqn:Hrun. cbn [fst snd].
  unfold job_try in Hrun.
  unfold bind at 1, try_catch at 1, bind at 1, call in Hrun. rewrite Hres in Hrun.
  unfold ret in Hrun.
  destruct res as [e|]; cbv beta iota in Hrun.
  - inversion Hrun; subst. cbn [log].
    exists [], []. rewrite map_app. simpl. auto.
  - set (w1 := mkWorld _ _ _ _ _) in Hrun.
    unfold bind, try_finally, try_catch at 1 in Hrun. unfold bind in Hrun.
    cbv beta iota in Hrun.
    destruct (work_page_steps env fuel req outDir w1) as (evs & Hl & Hp).
    assert (forallb page_work (map fst evs) = true) as Hp'.
    { clear -Hp. induction evs as [|x evs IH]; simpl in *; auto.
      apply andb_true_iff in Hp as [-> Hp]. auto. }
    assert (map fst (log w1 ++ evs)
            = map fst (log w) ++ ECall (CNewPage ctx) None :: map fst evs) as Hpre.
    { unfold w1; cbn [log]. rewrite !map_app, <- !app_assoc. reflexivity. }
    revert Hrun Hl.
    destruct (page_steps env fuel req outDir w1) as [[[] | e | ] w2]; cbn [fst snd];
      intros Hrun Hl; cbv beta iota in Hrun.
    + unfold ret, attempt, try_catch, call in Hrun.
      exists (map fst evs), [ECall CClosePage (env_engine env (ncall w2) CClosePage)].
      destruct (env_engine env (ncall w2) CClosePage) eqn:Hc; inversion Hrun; subst;
        cbn [log]; rewrite map_app, Hl, Hpre, <- !app_assoc; simpl;
        (split; [reflexivity|]); (split; [assumption|]); left; eauto.
    + unfold ret, attempt, try_catch, call in Hrun.
      exists (map fst evs), [ECall CClosePage (env_engine env (ncall w2) CClosePage)].
      destruct (env_engine env (ncall w2) CClosePage) eqn:Hc; inversion Hrun; subst;
        cbn [log]; rewrite map_app, Hl, Hpre, <- !app_assoc; simpl;
        (split; [reflexivity|]); (split; [assumption|]); left; eauto.
    + inversion Hrun; subst. exists (map fst evs), [].
      rewrite Hl, Hpre, app_nil_r.
      split; [reflexivity|]. split; [assumption|]. right. auto.
Qed.

End JobShape.



(** ** worker.js: the closing writes of a job *)

Section ClosingWrites.
Import Js Sys Engine Files Num Worker Job Trace Confined Liveness.
Variable env : Env.

Lemma forallb_map_fst (P : Event -> bool) (evs : list (Event * gmap string File)) :
  forallb (fun ef => P (fst ef)) evs = true -> forallb P (map fst evs) = true.
Proof.
  induction evs as [|x evs IH]; simpl; auto.
  intros [-> H]%andb_true_iff. auto.
Qed.


End ClosingWrites.


(** ** worker.js: a page that cannot be loaded *)

Section FailedNavigation.
Import Js Sys Engine Files Num Worker Job Trace Confined Navigation.
Variable env : Env.

Lemma calls_only_refl w : calls_only w w.
Proof. split; [reflexivity|]. exists []. now rewrite app_nil_r. Qed.

Lemma calls_only_trans w1 w2 w3 : calls_only w1 w2 -> calls_only w2 w3 -> calls_only w1 w3.
Proof.
  intros (F1 & e1 & L1 & P1) (F2 & e2 & L2 & P2). split; [congruence|].
  exists (e1 ++ e2). rewrite L2, L1, app_assoc, forallb_app, P1, P2. auto.
Qed.

Lemma talks_call c : talks (call env c).
Proof.
  intros w. unfold call.
  destruct (env_engine env (ncall w) c); cbn [fst snd];
    (split; [discriminate|]); (split; [reflexivity|]); eexists; split; reflexivity.
Qed.

Lemma talks_when b m : talks m -> talks (when b m).
Proof.
  intros H. destruct b; [exact H|].
  intros w. split; [discriminate | apply calls_only_refl].
Qed.

Lemma fails_after {A B} (m : M A) (k : A -> M B) :
  talks m -> (forall a, talks_then_fails (k a)) -> talks_then_fails (bind m k).
Proof.
  intros Hm Hk w. unfold bind. destruct (Hm w) as [Hs Hc].
  destruct (m w) as [[a | e | ] w1]; cbn [fst snd] in *.
  - destruct (Hk a w1) as [He Hc2]. split; [assumption|]. eapply calls_only_trans; eauto.
  - split; eauto.
  - congruence.
Qed.

Lemma fails_here {A B} (m : M A) (k : A -> M B) :
  talks_then_fails m -> talks_then_fails (bind m k).
Proof.
  intros Hm w. unfold bind. destruct (Hm w) as [[e He] Hc].
  destruct (m w) as [[a | e' | ] w1]; cbn [fst snd] in *; try discriminate.
  split; eauto.
Qed.

Lemma fails_throw {A} msg : talks_then_fails (@throw A msg).
Proof. intros w. split; [eexists; reflexivity | apply calls_only_refl]. Qed.

Lemma fails_navigation c :
  navigation_fails env -> is_navigation c = true -> talks_then_fails (call env c).
Proof.
  intros Hnav Hc w. unfold call. destruct (Hnav (ncall w) c Hc) as [e ->]. cbn [fst snd].
  split; [eauto|]. split; [reflexivity|]. eexists; split; reflexivity.
Qed.

Lemma page_steps_fail fuel req outDir :
  navigation_fails env -> talks_then_fails (page_steps env fuel req outDir).
Proof.
  intros Hnav. unfold page_steps.
  apply fails_after; [apply talks_when, talks_call | intros _].
  apply fails_after; [apply talks_when, talks_call | intros _].
  apply fails_after; [apply talks_call | intros _].
  apply fails_after; [apply talks_call | intros _].
  apply fails_after; [apply talks_call | intros _].
  apply fails_here.
  repeat match goal with
  | |- talks_then_fails (if ?b then _ else _) => destruct b
  end; auto using @fails_throw, fails_navigation.
Qed.

(** X17. When the page cannot be loaded (every navigation call rejects), a
    job's [try] statement ends with an error message whatever else the
    engine does, and all it did was talk to the engine: no file is created
    or changed, so the job leaves no content snapshot, no image and no
    extraction result, only what the closing writes add. *)
Theorem X17_failed_navigation_leaves_no_artifact
    (fuel : nat) (req : RenderRequest) (outDir : string) (ctx : option nat) (w : World) :
  navigation_fails env ->
  exists e opened w',
    job_try env fuel req outDir ctx w = (Ok (Some e, opened), w')
    /\ fs w' = fs w
    /\ exists evs, log w' = log w ++ evs
                   /\ forallb (fun ef => is_call (fst ef)) evs = true.
Proof.
  intros Hnav. unfold job_try.
  unfold bind at 1, try_catch at 1, bind at 1, call.
  unfold ret.
  destruct (env_engine env (ncall w) (CNewPage ctx)) as [e|]; cbv beta iota.
  - exists e, false. eexists. split; [reflexivity|]. split; [reflexivity|].
    eexists; split; reflexivity.
  - set (w1 := mkWorld _ _ _ _ _).
    assert (calls_only w w1) as H1
      by (split; [reflexivity|]; eexists; split; reflexivity).
    unfold bind, try_finally, try_catch at 1. unfold bind. cbv beta iota.
    destruct (page_steps_fail fuel req outDir Hnav w1) as [[e He] H2].
    destruct (page_steps env fuel req outDir w1) as [[[] | e' | ] w2];
      cbn [fst snd] in *; try discriminate.
    inversion He; subst e'. unfold ret.
    destruct (talks_call CClosePage w2) as [_ H3].
    unfold attempt, try_catch, ret, call in *.
    destruct (env_engine env (ncall w2) CClosePage); cbn [fst snd] in *; cbv beta iota;
      exists e, true; eexists; (split; [reflexivity|]);
      exact (calls_only_trans _ _ _ H1 (calls_only_trans _ _ _ H2 H3)).
Qed.

End FailedNavigation.

Lemma X17_failed_navigation_witness :
  exists e opened w',
    Job.job_try Fixtures.env_nav_fails 5 (Fixtures.html_req "job-9" "<p>hi</p>")
      "/srv/app/responses/job-9" None (Sys.world0 ∅) = (Sys.Ok (Some e, opened), w')
    /\ Sys.fs w' = Sys.fs (Sys.world0 ∅)
    /\ exists evs, Sys.log w' = Sys.log (Sys.world0 ∅) ++ evs
                   /\ forallb (fun ef => Confined.is_call (fst ef)) evs = true.
Proof.
  apply (X17_failed_navigation_leaves_no_artifact Fixtures.env_nav_fails 5
           (Fixtures.html_req "job-9" "<p>hi</p>") "/srv/app/responses/job-9" None
           (Sys.world0 ∅)).
  intros k c Hc. destruct c; try discriminate Hc; eexists; reflexivity.
Defined.


(** ** watcher.js: what the handler does with one file *)

Section HandlerAlone.
Import Js Sys Engine Files Num Worker Job Watcher Trace Validation Alone.
Variable env : Env.
Variable cwd : string.

Lemma readJSON_at p f w :
  fs w !! p = Some f ->
  readJSON p w
  = (match f with
     | Complete (DJson v) => Ok v
     | _ => Throw "Unexpected token in JSON"
     end,
     mkWorld (fs w) (log w ++ [(ERead p true, fs w)]) (nuuid w) (nclock w) (ncall w)).
Proof.
  intros H. unfold readJSON, fs_readFile, bind, get_fs, emit, ret, throw. rewrite H.
  cbn [fs log nuuid nclock ncall]. destruct f as [|[| |]]; reflexivity.
Qed.

(** [normalizeRequest] leaves the files, the log and the engine alone; it
    takes the id of the raw value, or a fresh identifier. *)
Lemma normalizeRequest_quiet (raw : JsVal) (w : World) :
  let '(r, w') := normalizeRequest env raw w in
  fs w' = fs w /\ log w' = log w /\ nclock w' = nclock w /\ ncall w' = ncall w
  /\ (accepted raw = true ->
      exists req, r = Ok req
        /\ req_id req = if truthy (get raw "id") then toStr (get raw "id")
                        else env_uuid env (nuuid w))
  /\ (accepted raw = false -> exists msg, r = Throw msg).
Proof.
  unfold normalizeRequest, accepted, payload_present.
  destruct raw; cbn [fst snd];
    try (repeat split; auto; try discriminate; eauto; fail);
    unfold bind, ret, throw, randomUUID;
    try match goal with
        | |- context [is_str (get ?r "op") "render_url"] =>
            destruct (is_str (get r "op") "render_url") eqn:Eu,
                     (is_str (get r "op") "render_html") eqn:Eh,
                     (truthy (get r "url")), (truthy (get r "html")),
                     (truthy (get r "id"))
        end;
    try (apply is_str_eq in Eu; apply is_str_eq in Eh; congruence);
    cbn; repeat split; auto; try discriminate; eauto.
Qed.

(** The first await of the handler on a file it refuses. *)
Lemma refused_first_step p f (m : Main) :
  shuttingDown m = false ->
  fs (world m) !! p = Some f -> refused f = true ->
  exists msg w1,
    handler_step env cwd (on_add m p) m = (HReport p msg, with_world m w1)
    /\ fs w1 = fs (world m)
    /\ log w1 = log (world m) ++ [(ERead p true, fs (world m))].
Proof.
  intros Hup Hf Href. unfold on_add. rewrite Hup. cbn [handler_step].
  unfold bind at 1. rewrite (readJSON_at p f _ Hf).
  set (w0 := mkWorld _ _ _ _ _).
  destruct f as [|[s|raw|s]]; try (exists "Unexpected token in JSON", w0; repeat split; reflexivity).
  simpl in Href. apply negb_true_iff in Href.
  pose proof (normalizeRequest_quiet raw w0) as Hq. revert Hq. cbv beta iota.
  destruct (normalizeRequest env raw w0) as [r w1].
  intros (Hfs & Hlog & _ & _ & _ & Hrej).
  destruct (Hrej Href) as [msg ->]. exists msg, w1. auto.
Qed.

(** The [catch] block when the id it finds is a string or absent. *)
Lemma report_run p f msg w :
  fs w !! p = Some f ->
  (truthy (get (parsed f) "id") = true -> exists s, get (parsed f) "id" = JStr s) ->
  exists id u1 u2 meta ok w',
    report env cwd p msg w = (Ok tt, w')
    /\ (truthy (get (parsed f) "id") = true -> get (parsed f) "id" = JStr id)
    /\ map fst (log w')
       = map fst (log w)
         ++ [ERead p true; EMkdir (Path.join (RESPONSES_DIR cwd) id)]
         ++ atomic_write (Path.join (Path.join (RESPONSES_DIR cwd) id) "meta.json") u1
              (DJson meta)
         ++ atomic_write (Path.join (Path.join (RESPONSES_DIR cwd) id) "done.json") u2
              (DJson (done_error msg))
         ++ [EUnlink p ok]
    /\ get meta "id" = JStr id /\ get meta "hadError" = JBool true
    /\ get meta "errorMessage" = JStr msg
    /\ fs w' !! p = None.
Proof.
  intros Hf Hid. unfold report.
  assert (forall w3, exists ok w4,
            attempt (fs_unlink p) w3 = (Ok tt, w4)
            /\ map fst (log w4) = map fst (log w3) ++ [EUnlink p ok]
            /\ fs w4 !! p = None) as Hunlink.
  { intros w3. unfold attempt, try_catch, fs_unlink, bind, get_fs, emit, ret, throw.
    destruct (fs w3 !! p) eqn:E; cbn [fs log].
    - exists true. eexists. split; [reflexivity|]. cbn [fs log].
      rewrite map_app. split; [reflexivity|]. apply lookup_delete_eq.
    - exists false. eexists. split; [reflexivity|]. cbn [fs log].
      rewrite map_app. split; [reflexivity|]. exact E. }
  assert (exists id w1,
            (let* raw := try_catch (readJSON p) (fun _ => ret (JObj [])) in
             let* id := (if truthy (get raw "id") then ret (get raw "id")
                         else let* u := randomUUID env in ret (JStr u)) in
             ret (raw, id))%eff w = (Ok (parsed f, JStr id), w1)
            /\ (truthy (get (parsed f) "id") = true -> get (parsed f) "id" = JStr id)
            /\ log w1 = log w ++ [(ERead p true, fs w)]) as (id & w1 & Hhead & Hsame & Hlog1).
  { unfold bind at 1, try_catch. rewrite (readJSON_at p f _ Hf).
    set (w0 := mkWorld _ _ _ _ _).
    assert ((match f with
             | Complete (DJson v) => (Ok v, w0)
             | _ => ret (JObj []) w0
             end) = (Ok (parsed f), w0)) as Hp by (destruct f as [|[| |]]; reflexivity).
    assert (forall (r : Res JsVal),
              r = match f with
                  | Complete (DJson v) => Ok v
                  | _ => Throw "Unexpected token in JSON"
                  end ->
              match r with
              | Ok a => (Ok a, w0)
              | Throw e => ret (JObj []) w0
              | Hang => (Hang, w0)
              end = (Ok (parsed f), w0)) as Hr.
    { intros r ->. destruct f as [|[| |]]; reflexivity. }
    rewrite (Hr _ eq_refl). clear Hp Hr.
    destruct (truthy (get (parsed f) "id")) eqn:Et.
    - destruct (Hid eq_refl) as [s Hs]. exists s, w0.
      unfold bind, ret. rewrite Hs. auto.
    - exists (env_uuid env (nuuid w0)). eexists.
      unfold bind, ret, randomUUID. split; [reflexivity|]. split; [discriminate|reflexivity]. }
  set (outDir := Path.join (RESPONSES_DIR cwd) id).
  set (meta := fun t0 t1 : Z =>
                 JObj [("id", JStr id); ("op", get (parsed f) "op");
                       ("startedAt", JStr (env_iso env t0));
                       ("finishedAt", JStr (env_iso env t1));
                       ("durationMs", JNum 0);
                       ("url", get (parsed f) "url"); ("viewport", get (parsed f) "viewport");
                       ("fullPage", get (parsed f) "fullPage");
                       ("waitUntil", get (parsed f) "waitUntil");
                       ("hadError", JBool true); ("errorMessage", JStr msg)]).
  set (w2 := mkWorld (fs w1) (log w1 ++ [(EMkdir outDir, fs w1)]) (nuuid w1)
                     (S (S (nclock w1))) (ncall w1)).
  destruct (writeFileAtomic_events env (Path.join outDir "meta.json")
              (DJson (meta (env_now env (nclock w1)) (env_now env (S (nclock w1))))) w2)
    as (w3 & Hrun3 & Hlog3 & _).
  destruct (writeFileAtomic_events env (Path.join outDir "done.json")
              (DJson (done_error msg)) w3) as (w4 & Hrun4 & Hlog4 & _).
  destruct (Hunlink w4) as (ok & w5 & Hrun5 & Hlog5 & Hgone).
  exists id, (env_uuid env (nuuid w2)), (env_uuid env (nuuid w3)),
         (meta (env_now env (nclock w1)) (env_now env (S (nclock w1)))), ok, w5.
  split.
  { unfold bind at 1, attempt at 1, try_catch at 1.
    unfold bind at 1, bind at 1 in Hhead.
    unfold bind at 1.
    destruct (try_catch (readJSON p) (fun _ => ret (JObj [])) w) as [[raw | e | ] wa];
      try discriminate Hhead.
    unfold bind at 1.
    destruct ((if truthy (get raw "id") then ret (get raw "id")
               else let* u := randomUUID env in ret (JStr u))%eff wa) as [[idv | e | ] wb];
      try discriminate Hhead.
    unfold ret in Hhead. inversion Hhead; subst raw idv wb. fold outDir.
    unfold ensureDir, fs_mkdir, bind at 1, bind at 1, get_fs, emit.
    unfold bind at 1, now at 1. unfold bind at 1, now at 1.
    cbn [fs log nuuid nclock ncall]. fold w2.
    unfold writeJSONAtomic. fold (meta (env_now env (nclock w1)) (env_now env (S (nclock w1)))).
    unfold bind at 1. rewrite Hrun3, Hrun4. exact Hrun5. }
  split; [exact Hsame|]. split.
  { rewrite Hlog5, Hlog4, Hlog3. unfold w2; cbn [log]. rewrite map_app, Hlog1, map_app.
    simpl. rewrite <- !app_assoc. reflexivity. }
  repeat split; auto.
Qed.

(** The [catch] block when the id it finds is there but not a string. *)
Lemma report_silent p f msg w :
  fs w !! p = Some f ->
  truthy (get (parsed f) "id") = true ->
  (forall s, get (parsed f) "id" <> JStr s) ->
  report env cwd p msg w
  = (Ok tt,
     mkWorld (delete p (fs w))
       (log w ++ [(ERead p true, fs w); (EUnlink p true, delete p (fs w))])
       (nuuid w) (nclock w) (ncall w)).
Proof.
  intros Hf Ht Hns. unfold report.
  unfold bind at 1, attempt at 1, try_catch at 1, bind at 1, try_catch at 1.
  rewrite (readJSON_at p f _ Hf).
  set (w0 := mkWorld _ _ _ _ _).
  assert (forall (r : Res JsVal) (k : JsVal -> M unit),
            r = match f with
                | Complete (DJson v) => Ok v
                | _ => Throw "Unexpected token in JSON"
                end ->
            (let (r0, w') := match r with
                             | Ok a => (Ok a, w0)
                             | Throw e => ret (JObj []) w0
                             | Hang => (Hang, w0)
                             end in
             match r0 with
             | Ok a => k a w'
             | Throw e => (Throw e, w')
             | Hang => (Hang, w')
             end) = k (parsed f) w0) as Hr.
  { intros r k ->. destruct f as [|[| |]]; reflexivity. }
  rewrite (Hr _ _ eq_refl). clear Hr.
  rewrite Ht. unfold bind at 1, ret at 1.
  destruct (get (parsed f) "id") eqn:Hidv; try (exfalso; eapply Hns; reflexivity);
    unfold throw, ret, attempt, try_catch, fs_unlink, bind, get_fs, emit;
    cbn [fs log nuuid nclock ncall]; unfold w0; cbn [fs log nuuid nclock ncall];
    rewrite Hf; cbn [fs log nuuid nclock ncall]; rewrite <- app_assoc; reflexivity.
Qed.

End HandlerAlone.



(** X19. A refused file whose id is there but is not a string (a number,
    true, an array, an object) gets no answer at all: building the response
    directory name throws inside the [catch] block, the error is swallowed,
    and the handler just deletes the file.  Nothing is enqueued, no
    directory is created, no metadata and no completion marker is written:
    the request disappears without a trace. *)
Theorem X19_refused_request_without_string_id_vanishes
    (env : Engine.Env) (cwd p : string) (f : Sys.File) (m : Watcher.Main) :
  Watcher.shuttingDown m = false ->
  Sys.fs (Watcher.world m) !! p = Some f ->
  Alone.refused f = true ->
  Js.truthy (Js.get (Alone.parsed f) "id") = true ->
  (forall s, Js.get (Alone.parsed f) "id" <> Js.JStr s) ->
  exists m',
    Alone.handle env cwd p m = (Watcher.HDone, m')
    /\ Watcher.enqueued m' = Watcher.enqueued m
    /\ map fst (Sys.log (Watcher.world m'))
       = map fst (Sys.log (Watcher.world m))
         ++ [Sys.ERead p true; Sys.ERead p true; Sys.EUnlink p true]
    /\ Sys.fs (Watcher.world m') = delete p (Sys.fs (Watcher.world m)).
Proof.
  intros Hup Hf Href Ht Hns. unfold Alone.handle.
  destruct (refused_first_step env cwd p f m Hup Hf Href) as (msg & w1 & -> & Hfs1 & Hlog1).
  cbn [Watcher.handler_step Watcher.with_world Watcher.world].
  assert (Sys.fs w1 !! p = Some f) as Hf1 by (rewrite Hfs1; exact Hf).
  rewrite (report_silent env cwd p f msg w1 Hf1 Ht Hns).
  eexists. split; [reflexivity|].
  cbn [Watcher.with_world Watcher.world Watcher.enqueued Sys.log Sys.fs].
  split; [reflexivity|]. split; [|now rewrite Hfs1].
  rewrite map_app, Hlog1, map_app. simpl. rewrite <- !app_assoc. reflexivity.
Qed.

Lemma X19_refused_request_witness :
  exists m',
    Alone.handle Fixtures.env0 "/srv/app" "/srv/app/requests/a.json"
      (Watcher.main0
         {[ "/srv/app/requests/a.json"
            := Sys.Complete (Sys.DJson (Js.JObj [("id", Js.JNum 7)])) ]})
    = (Watcher.HDone, m')
    /\ Watcher.enqueued m'
       = Watcher.enqueued
           (Watcher.main0
              {[ "/srv/app/requests/a.json"
                 := Sys.Complete (Sys.DJson (Js.JObj [("id", Js.JNum 7)])) ]})
    /\ map fst (Sys.log (Watcher.world m'))
       = map fst (Sys.log (Watcher.world
           (Watcher.main0
              {[ "/srv/app/requests/a.json"
                 := Sys.Complete (Sys.DJson (Js.JObj [("id", Js.JNum 7)])) ]})))
         ++ [Sys.ERead "/srv/app/requests/a.json" true;
             Sys.ERead "/srv/app/requests/a.json" true;
             Sys.EUnlink "/srv/app/requests/a.json" true]
    /\ Sys.fs (Watcher.world m')
       = delete "/srv/app/requests/a.json"
           (Sys.fs (Watcher.world
              (Watcher.main0
                 {[ "/srv/app/requests/a.json"
                    := Sys.Complete (Sys.DJson (Js.JObj [("id", Js.JNum 7)])) ]}))).
Proof.
  apply (X19_refused_request_without_string_id_vanishes Fixtures.env0 "/srv/app"
           "/srv/app/requests/a.json"
           (Sys.Complete (Sys.DJson (Js.JObj [("id", Js.JNum 7)])))
           (Watcher.main0
              {[ "/srv/app/requests/a.json"
                 := Sys.Complete (Sys.DJson (Js.JObj [("id", Js.JNum 7)])) ]})).
  - reflexivity.
  - apply lookup_singleton_eq.
  - reflexivity.
  - reflexivity.
  - intros s. simpl. discriminate.
Defined.





(** ** watcher.js: a task from its start to its end *)

Section TaskAlone.
Import Js Sys Engine Files Num Worker Job Watcher Trace Liveness Alone.
Variable env : Env.
Variable fuel : nat.
Variable cwd : string.

(** The status line and the [finally] block. *)
Lemma task_end_run t w :
  exists ok w',
    task_end env t w = (Ok tt, w')
    /\ map fst (log w') = map fst (log w) ++ [EUnlink (t_claimed t) ok]
    /\ fs w' !! t_claimed t = None.
Proof.
  unfold task_end, bind at 1, now.
  unfold attempt, try_catch, fs_unlink, bind, get_fs, emit, ret, throw.
  cbn [fs log nuuid nclock ncall].
  destruct (fs w !! t_claimed t) eqn:E; cbn [fs log].
  - exists true. eexists. split; [reflexivity|]. cbn [fs log].
    rewrite map_app. split; [reflexivity|]. apply lookup_delete_eq.
  - exists false. eexists. split; [reflexivity|]. cbn [fs log].
    rewrite map_app. split; [reflexivity|]. exact E.
Qed.

Hypothesis clock : clock_advances env.

(** A job settles, and the write of its completion marker is the last
    thing it does. *)
Lemma processRequest_ends_with_marker req root ctx w :
  deadlines_set (actions_of req) ->
  (patience (actions_of req) <= fuel)%nat ->
  exists em pre u w',
    processRequest env fuel req root ctx w = (outcome_of em, w')
    /\ map fst (log w')
       = map fst (log w) ++ pre
         ++ atomic_write (Path.join (Path.join root (req_id req)) "done.json") u
              (DJson (marker_of em)).
Proof.
  intros Hd Hp. unfold processRequest.
  set (outDir := Path.join root (req_id req)).
  unfold bind at 1, ensureDir, fs_mkdir, bind at 1, get_fs, emit.
  cbn [fs log nuuid nclock ncall].
  unfold bind at 1, now at 1.
  cbn [fs log nuuid nclock ncall].
  set (w2 := mkWorld _ _ _ _ _).
  set (meta := meta_started env req _).
  destruct (writeFileAtomic_events env (Path.join outDir "meta.json") (DJson meta) w2)
    as (w3 & Hrun3 & Hlog3 & _).
  unfold writeJSONAtomic at 1. rewrite (bind_ok _ _ _ _ _ Hrun3).
  destruct (job_try_resolves env clock fuel req outDir ctx w3 Hd Hp) as (r & w4 & Hrun4).
  destruct (grows_job_try env fuel req outDir ctx w3) as [evs Hevs].
  rewrite Hrun4 in Hevs. simpl in Hevs.
  rewrite (bind_ok _ _ _ _ _ Hrun4).
  destruct (finish_writes_marker_last env req outDir (Path.join outDir "meta.json") meta
              (env_now env (nclock w)) (fst r) (snd r) w4)
    as (pre & u & w5 & Hrun5 & Hlog5).
  exists (fst r),
         (EMkdir outDir
          :: atomic_write (Path.join outDir "meta.json") (env_uuid env (nuuid w2)) (DJson meta)
          ++ map fst evs ++ pre),
         u, w5.
  split; [exact Hrun5|].
  rewrite Hlog5, Hevs, map_app, Hlog3. unfold w2; simpl.
  rewrite map_app. simpl. rewrite <- !app_assoc. simpl. reflexivity.
Qed.

(** The last await of a task: the job, then the release of the claim. *)
Lemma run_job_step t ctx m :
  deadlines_set (actions_of (t_req t)) ->
  (patience (actions_of (t_req t)) <= fuel)%nat ->
  exists m' pre u em ok,
    task_step env fuel cwd t (TRun ctx) m = (TDone, m')
    /\ map fst (log (world m'))
       = map fst (log (world m))
         ++ (pre ++ atomic_write
                      (Path.join (Path.join (RESPONSES_DIR cwd) (req_id (t_req t))) "done.json")
                      u (DJson (marker_of em)))
         ++ [EUnlink (t_claimed t) ok]
    /\ fs (world m') !! t_claimed t = None
    /\ enqueued m' = enqueued m.
Proof.
  intros Hd Hp. cbn [task_step].
  destruct (processRequest_ends_with_marker (t_req t) (RESPONSES_DIR cwd) ctx (world m) Hd Hp)
    as (em & pre & u & w1 & -> & Hlog1).
  destruct (task_end_run t w1) as (ok & w2 & -> & Hlog2 & Hgone).
  exists (with_world m w2), pre, u, em, ok.
  cbn [with_world world enqueued]. split; [reflexivity|].
  split; [|auto]. rewrite Hlog2, Hlog1, <- !app_assoc. reflexivity.
Qed.

End TaskAlone.




(** ** watcher.js: the session registry when tasks run in turn *)

Section RegistryInTurn.
Import Js Sys Engine Worker Job Watcher Alone.
Variable env : Env.
Variable fuel : nat.
Variable cwd : string.

Lemma in_turn_step t s m :
  in_turn t s m ->
  in_turn t (fst (task_step env fuel cwd t s m)) (snd (task_step env fuel cwd t s m))
  /\ keeps m (snd (task_step env fuel cwd t s m)).
Proof.
  intros [Hsize Hs]. destruct s as [|sid|ctx|]; cbn [task_step].
  - destruct (now env (world m)) as [r w].
    destruct (session_wanted (t_req t)) as [sid|] eqn:Hw.
    + destruct (sessionContexts m !! sid) as [c|] eqn:Hl; cbn [fst snd].
      * split; [|intros ? ? ?; assumption]. split; [exact Hsize|]. eauto.
      * split; [|intros ? ? ?; assumption]. split; [exact Hsize|]. auto.
    + cbn [fst snd]. split; [|intros ? ? ?; assumption]. split; [exact Hsize|exact I].
  - destruct Hs as [Hw Hnone].
    destruct (call env CCreateContext (world m)) as [[[] | e | ] w].
    + cbn [fst snd]. split.
      * split.
        -- cbn [nctx sessionContexts]. rewrite map_size_insert_None by exact Hnone.
           now rewrite Hsize.
        -- exists sid. split; [exact Hw|]. cbn [sessionContexts]. apply lookup_insert_eq.
      * intros sid' c Hl. cbn [sessionContexts].
        rewrite lookup_insert_ne; [exact Hl|]. intros ->. congruence.
    + destruct (task_end env t w) as [r' w']. cbn [fst snd].
      split; [|intros ? ? ?; assumption]. split; [exact Hsize|exact I].
    + destruct (task_end env t w) as [r' w']. cbn [fst snd].
      split; [|intros ? ? ?; assumption]. split; [exact Hsize|exact I].
  - destruct (processRequest env fuel (t_req t) (RESPONSES_DIR cwd) ctx (world m)) as [r w].
    destruct (task_end env t w) as [r' w']. cbn [fst snd].
    split; [|intros ? ? ?; assumption]. split; [exact Hsize|exact I].
  - cbn [fst snd]. split; [|intros ? ? ?; assumption]. split; [exact Hsize|exact I].
Qed.

Lemma in_turn_steps t k : forall s m,
  in_turn t s m ->
  in_turn t (fst (run_steps env fuel cwd k t s m)) (snd (run_steps env fuel cwd k t s m))
  /\ keeps m (snd (run_steps env fuel cwd k t s m)).
Proof.
  induction k as [|k IH]; intros s m H; cbn [run_steps].
  - split; [exact H|]. intros ? ? ?; assumption.
  - destruct (in_turn_step t s m H) as [H1 K1].
    destruct (task_step env fuel cwd t s m) as [s' m']. cbn [fst snd] in *.
    destruct (IH s' m' H1) as [H2 K2]. split; [exact H2|].
    intros sid c Hl. apply K2, K1, Hl.
Qed.

Lemma in_turn_tasks tasks : forall m,
  nctx m = size (sessionContexts m) ->
  nctx (run_in_turn env fuel cwd tasks m)
  = size (sessionContexts (run_in_turn env fuel cwd tasks m))
  /\ keeps m (run_in_turn env fuel cwd tasks m).
Proof.
  induction tasks as [|t rest IH]; intros m H.
  - split; [exact H|]. intros ? ? ?; assumption.
  - unfold run_in_turn. cbn [fold_left]. fold (run_in_turn env fuel cwd rest).
    destruct (in_turn_steps t 3 TStart m (conj H I)) as [[H1 _] K1].
    unfold run_task.
    destruct (IH _ H1) as [H2 K2]. split; [exact H2|].
    intros sid c Hl. apply K2, K1, Hl.
Qed.

End RegistryInTurn.

(** X22. When tasks run one after the other (as the limiter makes them with
    the bound 1), the session registry stays exact at every await: after
    any number of finished tasks and any number of steps of the next one,
    as many contexts were created as session identifiers are registered, so
    no identifier ever got a second context; a context once registered for
    an identifier stays registered for it; and a task that is about to run
    in a context runs in the one registered for its session. *)
Theorem X22_one_context_per_session_in_turn
    (env : Engine.Env) (fuel : nat) (cwd : string)
    (tasks : list Watcher.Task) (t : Watcher.Task) (k : nat) (m0 : Watcher.Main) :
  Watcher.nctx m0 = size (Watcher.sessionContexts m0) ->
  let m := Alone.run_in_turn env fuel cwd tasks m0 in
  let s' := fst (Alone.run_steps env fuel cwd k t Watcher.TStart m) in
  let m' := snd (Alone.run_steps env fuel cwd k t Watcher.TStart m) in
  Watcher.nctx m' = size (Watcher.sessionContexts m')
  /\ (forall sid c, Watcher.sessionContexts m0 !! sid = Some c ->
                    Watcher.sessionContexts m' !! sid = Some c)
  /\ (forall c, s' = Watcher.TRun (Some c) ->
        exists sid, Watcher.session_wanted (Watcher.t_req t) = Some sid
                    /\ Watcher.sessionContexts m' !! sid = Some c).
Proof.
  intros H0 m s' m'.
  destruct (in_turn_tasks env fuel cwd tasks m0 H0) as [H1 K1]. fold m in H1, K1.
  destruct (in_turn_steps env fuel cwd t k Watcher.TStart m (conj H1 I)) as [[H2 Hs] K2].
  fold s' m' in H2, Hs, K2.
  split; [exact H2|]. split.
  - intros sid c Hl. apply K2, K1, Hl.
  - intros c Hc. rewrite Hc in Hs. exact Hs.
Qed.

Lemma X22_one_context_per_session_witness :
  let m := Alone.run_in_turn Fixtures.env0 5 "/srv/app"
             [Fixtures.session_task "job-a" "s"] (Watcher.main0 ∅) in
  let s' := fst (Alone.run_steps Fixtures.env0 5 "/srv/app" 1
                   (Fixtures.session_task "job-b" "s") Watcher.TStart m) in
  let m' := snd (Alone.run_steps Fixtures.env0 5 "/srv/app" 1
                   (Fixtures.session_task "job-b" "s") Watcher.TStart m) in
  Watcher.nctx m' = size (Watcher.sessionContexts m')
  /\ (forall sid c, Watcher.sessionContexts (Watcher.main0 ∅) !! sid = Some c ->
                    Watcher.sessionContexts m' !! sid = Some c)
  /\ (forall c, s' = Watcher.TRun (Some c) ->
        exists sid,
          Watcher.session_wanted (Watcher.t_req (Fixtures.session_task "job-b" "s")) = Some sid
          /\ Watcher.sessionContexts m' !! sid = Some c).
Proof.
  apply (X22_one_context_per_session_in_turn Fixtures.env0 5 "/srv/app"
           [Fixtures.session_task "job-a" "s"] (Fixtures.session_task "job-b" "s") 1
           (Watcher.main0 ∅)).
  reflexivity.
Defined.


(** ** worker.js: a paint wait without a deadline *)

Section PaintForever.
Import Js Sys Engine Num Worker Confined Liveness.
Variable env : Env.

Lemma paint_loop_pending T I t0 :
  toNumber T = None ->
  (forall k, env_engine env k (CEvaluate "canvasPaint") = None) ->
  (forall k, PageFns.painted (env_doc env k) = false) ->
  forall fuel w,
    exists w', paint_loop env fuel t0 T I w = (Hang, w')
               /\ ncall w' = (ncall w + fuel)%nat.
Proof.
  intros HT Heng Hblank. induction fuel as [|fuel IH]; intros w.
  - exists w. simpl. split; [reflexivity | lia].
  - cbn [paint_loop]. unfold bind at 1, evaluate, call.
    rewrite Heng, Hblank. cbv beta iota.
    unfold bind at 1, now at 1. cbn [nclock fs log nuuid ncall].
    unfold lt_val. rewrite HT.
    unfold bind at 1, sleep, bind at 1, get_fs, emit. cbn [nclock fs log nuuid ncall].
    match goal with
    | |- context [paint_loop env fuel t0 T I ?w1] => destruct (IH w1) as (w' & Hh & Hn)
    end.
    exists w'. split; [exact Hh|]. rewrite Hn. cbn [ncall]. lia.
Qed.


End PaintForever.



(** ** worker.js: where an element screenshot goes *)

Section ElementScreenshot.
Import Js Sys Engine Files Num Worker.
Variable env : Env.


End ElementScreenshot.


(** The path of that example lies outside the output directory, and
    outside the responses directory. *)
Example element_screenshot_escapes :
  Path.join "/srv/app/responses/job-1" "../../../etc/x.png" = "/srv/etc/x.png"
  /\ Trace.inside "/srv/app/responses" "/srv/etc/x.png" = false.
Proof. split; reflexivity. Qed.


(** ** worker.js: the wait after navigation *)

Section PostWaitBound.
Import Js Sys Engine Files Num Worker Job Confined PostWait.
Variable env : Env.

Create HintDb only.

#[local] Hint Resolve @only_ret @only_throw @only_bind @only_try_catch @only_try_finally
  only_attempt only_when only_get_fs only_emit only_randomUUID only_now only_call
  @only_evaluate only_content : only.
#[local] Hint Extern 1 (_ = true) => reflexivity : only.
#[local] Hint Extern 1 (forall _, _ = true) => intros; reflexivity : only.

Lemma wait_fs_writeFile p d : only bounded_wait (fs_writeFile p d).
Proof. unfold fs_writeFile. auto 10 with only. Qed.

Lemma wait_writeFileAtomic p d : only bounded_wait (writeFileAtomic env p d).
Proof.
  intros w. rewrite writeFileAtomic_run. cbn [snd log]. eexists. split; reflexivity.
Qed.

Lemma wait_screenshot p b : only bounded_wait (screenshot env p b).
Proof. pose proof wait_fs_writeFile. unfold screenshot. auto with only. Qed.

Lemma wait_extract_loop specs acc : only bounded_wait (extract_loop env specs acc).
Proof.
  intros w. destruct (only_extract_loop env specs acc w) as (evs & Hl & Hp).
  exists evs. split; [assumption|].
  rewrite forallb_forall in *. intros ef Hin. specialize (Hp ef Hin).
  destruct (fst ef); try discriminate. reflexivity.
Qed.

Lemma wait_post v :
  only bounded_wait
    (match toNumber v with
     | Some ms => when (truthy v && (0 <? ms)) (sleep (JNum (Z.min ms (5 * 60000))))
     | None => ret tt
     end).
Proof.
  destruct (toNumber v) as [ms|]; [|apply only_ret].
  destruct (truthy v && (0 <? ms)) eqn:E; [|apply only_ret].
  apply andb_true_iff in E as [_ Hpos]. apply Z.ltb_lt in Hpos.
  cbn [when]. unfold sleep. apply only_bind; [apply only_get_fs|].
  intros f. apply only_emit. cbn [bounded_wait].
  apply andb_true_iff. split; [apply Z.ltb_lt | apply Z.leb_le]; lia.
Qed.


End PostWaitBound.



(** ** files.js: safeJoin on a plain name *)

Section SafeJoinPlain.
Import Sys Files Path Names.

Lemma str_cons_app x (a b : string) : String x a +:+ b = String x (a +:+ b).
Proof. reflexivity. Qed.

Lemma str_app_assoc (a b c : string) : (a +:+ b) +:+ c = a +:+ (b +:+ c).
Proof.
  induction a as [|x a IH]; [reflexivity|]. now rewrite !str_cons_app, IH.
Qed.

Lemma str_app_nil_r (a : string) : a +:+ "" = a.
Proof.
  induction a as [|x a IH]; [reflexivity|]. now rewrite str_cons_app, IH.
Qed.

Lemma rev_app_spec (s : string) : forall acc,
  String.rev_app s acc = String.rev_app s "" +:+ acc.
Proof.
  induction s as [|c s IH]; intros acc; [reflexivity|].
  cbn [String.rev_app]. rewrite (IH (String c acc)), (IH (String c "")).
  now rewrite str_app_assoc.
Qed.

Lemma rev_cons c (s : string) : String.rev (String c s) = String.rev s +:+ String c "".
Proof. unfold String.rev. cbn [String.rev_app]. apply rev_app_spec. Qed.

Lemma split_go_app (s1 s2 : string) : forall cur,
  split_go cur (s1 +:+ String slash s2) = split_go cur s1 ++ split_go "" s2.
Proof.
  induction s1 as [|c s1 IH]; intros cur.
  - change ("" +:+ String slash s2) with (String slash s2).
    cbn [split_go]. now rewrite Ascii.eqb_refl.
  - rewrite str_cons_app. cbn [split_go].
    destruct (Ascii.eqb c slash); rewrite IH; reflexivity.
Qed.

Lemma split_go_plain (n : string) : forall cur,
  no_slash n = true -> split_go cur n = [String.rev cur +:+ n].
Proof.
  induction n as [|c n IH]; intros cur H.
  - cbn [split_go]. now rewrite str_app_nil_r.
  - cbn [no_slash] in H. apply andb_true_iff in H as [Hc Hn].
    apply negb_true_iff in Hc. cbn [split_go]. rewrite Hc, (IH _ Hn).
    rewrite rev_cons. now rewrite str_app_assoc.
Qed.

Lemma norm_step_nonempty acc seg :
  Forall (fun s => s <> "") acc -> Forall (fun s => s <> "") (norm_step false acc seg).
Proof.
  intros H. unfold norm_step.
  destruct (String.eqb seg "") eqn:E1; [exact H|].
  destruct (String.eqb seg ".") eqn:E2; [exact H|]. cbn [orb].
  destruct (String.eqb seg "..").
  - destruct acc as [|top rest]; [constructor|].
    destruct (String.eqb top ".."); [exact H|]. now inversion H.
  - constructor; [|exact H]. now apply String.eqb_neq.
Qed.

Lemma fold_norm_nonempty segs : forall acc,
  Forall (fun s => s <> "") acc ->
  Forall (fun s => s <> "") (fold_left (norm_step false) segs acc).
Proof.
  induction segs as [|s segs IH]; intros acc H; simpl; auto using norm_step_nonempty.
Qed.

Lemma unsplit_from (rest : list string) : forall x,
  exists t, fold_left (fun acc y => acc +:+ "/" +:+ y) rest x = x +:+ t.
Proof.
  induction rest as [|y rest IH]; intros x; cbn [fold_left].
  - exists "". now rewrite str_app_nil_r.
  - destruct (IH (x +:+ "/" +:+ y)) as [t ->]. exists ("/" +:+ y +:+ t).
    now rewrite !str_app_assoc.
Qed.

Lemma unsplit_nonempty (l : list string) :
  l <> [] -> Forall (fun s => s <> "") l -> unsplit l <> "".
Proof.
  destruct l as [|x rest]; [congruence|]. intros _ H. inversion H as [|? ? Hx _]; subst.
  unfold unsplit. destruct (unsplit_from rest x) as [t ->].
  destruct x; [congruence|]. rewrite str_cons_app. discriminate.
Qed.

Lemma unsplit_snoc (l : list string) (name : string) :
  l <> [] -> unsplit (l ++ [name]) = unsplit l +:+ "/" +:+ name.
Proof.
  destruct l as [|x rest]; [congruence|]. intros _.
  unfold unsplit. cbn [app]. now rewrite fold_left_app.
Qed.

Lemma starts_with_app (p s : string) : Text.starts_with p (p +:+ s) = true.
Proof.
  induction p as [|c p IH]; [reflexivity|].
  rewrite str_cons_app. cbn [Text.starts_with]. now rewrite Ascii.eqb_refl, IH.
Qed.

(** What [normalizeString] makes of a path followed by one more segment. *)
Lemma normalizeString_snoc (P x : string) :
  no_slash x = true ->
  normalizeString (P +:+ String slash x) false
  = unsplit (rev (norm_step false (fold_left (norm_step false) (split P) []) x)).
Proof.
  intros Hx. unfold normalizeString, split. rewrite split_go_app, fold_left_app.
  rewrite (split_go_plain x "" Hx). reflexivity.
Qed.

(** Under the root the test of [safeJoin] fails for every plain name. *)
Lemma root_rejects (name : string) :
  no_slash name = true -> String.eqb name "" = false ->
  negb (Text.starts_with "//" (String slash name))
  && negb (String.eqb (String slash name) "/") = true.
Proof.
  intros Hns Hne. destruct name as [|c n]; [discriminate|].
  cbn [no_slash] in Hns. apply andb_true_iff in Hns as [Hc _].
  apply negb_true_iff in Hc.
  assert (Text.starts_with "//" (String slash (String c n)) = false) as ->.
  { cbn [Text.starts_with].
    match goal with
    | |- context [Ascii.eqb ?x c] =>
        replace (Ascii.eqb x c) with false by (symmetry; rewrite Ascii.eqb_sym; exact Hc)
    end.
    now rewrite andb_false_r. }
  cbn [String.eqb]. destruct (Ascii.eqb _ _); reflexivity.
Qed.

(** X26. On a plain name (one segment, not empty, not a dot name)
    [safeJoin] gives the file of that name directly under the resolved
    base, for any base directory but one: when the base resolves to the
    root, every plain name is rejected as unsafe, because the prefix the
    test looks for is then two separators. *)
Theorem X26_safeJoin_plain_name (cwd baseDir name : string) :
  plain name = true ->
  safeJoin cwd baseDir name
  = if String.eqb (resolve cwd baseDir "") "/"
    then Throw ("Unsafe path resolution: /" +:+ name)
    else Ok (resolve cwd baseDir "" +:+ "/" +:+ name).
Proof.
  intros Hplain. unfold plain in Hplain.
  apply andb_true_iff in Hplain as [Hplain Hdd].
  apply andb_true_iff in Hplain as [Hplain Hd].
  apply andb_true_iff in Hplain as [Hns Hne].
  apply negb_true_iff in Hne, Hd, Hdd.
  assert (isAbsolute name = false) as Hrel.
  { destruct name as [|c n]; [reflexivity|]. cbn [no_slash] in Hns.
    apply andb_true_iff in Hns as [Hc _]. now apply negb_true_iff in Hc. }
  set (P := if isAbsolute baseDir then baseDir else cwd +:+ "/" +:+ baseDir).
  assert (forall x, (if isAbsolute baseDir then baseDir +:+ "/" +:+ x
                     else cwd +:+ "/" +:+ baseDir +:+ "/" +:+ x)
                    = P +:+ String slash x) as Hjoin.
  { intros x. unfold P. destruct (isAbsolute baseDir); [reflexivity|].
    rewrite !str_app_assoc. reflexivity. }
  set (acc := fold_left (norm_step false) (split P) []).
  assert (Forall (fun s => s <> "") acc) as Hacc
    by (apply fold_norm_nonempty; constructor).
  assert (resolve cwd baseDir "" = "/" +:+ unsplit (rev acc)) as Hbase.
  { unfold resolve. cbn [isAbsolute]. rewrite Hjoin.
    rewrite normalizeString_snoc by reflexivity. reflexivity. }
  assert (resolve cwd baseDir name = "/" +:+ unsplit (rev acc ++ [name])) as Hres.
  { unfold resolve. rewrite Hrel, Hjoin.
    rewrite normalizeString_snoc by exact Hns. fold acc.
    unfold norm_step. rewrite Hne, Hd. cbn [orb]. rewrite Hdd. reflexivity. }
  unfold safeJoin. rewrite Hres, Hbase.
  destruct acc as [|a acc'] eqn:Eacc.
  - pose proof (root_rejects name Hns Hne) as Hroot.
    change (negb (Text.starts_with (("/" +:+ unsplit (rev [])) +:+ "/")
                    ("/" +:+ unsplit (rev [] ++ [name])))
            && negb (String.eqb ("/" +:+ unsplit (rev [] ++ [name]))
                       ("/" +:+ unsplit (rev []))) = true) in Hroot.
    rewrite Hroot. reflexivity.
  - assert (rev (a :: acc') <> []) as Hnil.
    { intros Hn. apply (f_equal (@length string)) in Hn.
      rewrite length_rev in Hn. discriminate. }
    assert (Forall (fun s => s <> "") (rev (a :: acc'))) as Hrevne.
    { apply List.Forall_rev. exact Hacc. }
    pose proof (unsplit_nonempty _ Hnil Hrevne) as Hq.
    rewrite (unsplit_snoc _ name Hnil).
    set (q := unsplit (rev (a :: acc'))) in *.
    assert (String.eqb ("/" +:+ q) "/" = false) as ->.
    { destruct q; [congruence | reflexivity]. }
    assert (Text.starts_with (("/" +:+ q) +:+ "/") ("/" +:+ q +:+ "/" +:+ name) = true)
      as ->.
    { replace ("/" +:+ q +:+ "/" +:+ name) with ((("/" +:+ q) +:+ "/") +:+ name)
        by (rewrite !str_app_assoc; reflexivity).
      apply starts_with_app. }
    cbn [negb andb]. rewrite !str_app_assoc. reflexivity.
Qed.

End SafeJoinPlain.

Lemma X26_safeJoin_plain_witness :
  Files.safeJoin "/srv/app" "responses" "job-1"
  = if String.eqb (Path.resolve "/srv/app" "responses" "") "/"
    then Sys.Throw ("Unsafe path resolution: /" +:+ "job-1")
    else Sys.Ok (Path.resolve "/srv/app" "responses" "" +:+ "/" +:+ "job-1").
Proof.
  apply (X26_safeJoin_plain_name "/srv/app" "responses" "job-1"). reflexivity.
Defined.

Example safeJoin_under_base :
  Files.safeJoin "/srv/app" "responses" "job-1" = Sys.Ok "/srv/app/responses/job-1".
Proof. reflexivity. Qed.

Example safeJoin_under_root :
  Files.safeJoin "/srv/app" "/" "etc" = Sys.Throw "Unsafe path resolution: /etc".
Proof. reflexivity. Qed.


(** ** worker.js: the marker a job leaves on disk *)

Section MarkerOnDisk.
Import Js Sys Engine Files Num Worker Job Trace Liveness.
Variable env : Env.

Lemma finish_leaves_marker req outDir metaPath meta t0 em l w :
  exists w',
    finish env req outDir metaPath meta t0 em l w = (outcome_of em, w')
    /\ fs w' !! Path.join outDir "done.json" = Some (Complete (DJson (marker_of em))).
Proof.
  unfold finish.
  unfold bind at 1, now at 1.
  set (w1 := mkWorld _ _ _ (S (nclock w)) _).
  set (meta' := meta_finished env meta t0 (env_now env (nclock w)) em).
  destruct (writeFileAtomic_events env metaPath (DJson meta') w1)
    as (w2 & Hrun2 & _).
  unfold writeJSONAtomic at 1. rewrite (bind_ok _ _ _ _ _ Hrun2).
  match goal with
  | |- context [bind (attempt ?body) _ w2] =>
      destruct (attempt_resolves body w2) as (w3 & evs & Hrun3 & _)
  end.
  { pose proof (settles_writeFileAtomic env).
    apply settles_bind; [apply settles_when; auto | intros; apply settles_when; auto]. }
  { pose proof (grows_writeFileAtomic env).
    apply grows_bind; [apply grows_when; auto | intros; apply grows_when; auto]. }
  rewrite (bind_ok _ _ _ _ _ Hrun3).
  unfold outcome_of, marker_of.
  destruct (error_set em) as [e|]; unfold writeJSONAtomic.
  - unfold bind. rewrite writeFileAtomic_run. unfold throw.
    eexists. split; [reflexivity|]. cbn [fs]. apply lookup_insert_eq.
  - rewrite writeFileAtomic_run.
    eexists. split; [reflexivity|]. cbn [fs]. apply lookup_insert_eq.
Qed.

Hypothesis clock : clock_advances env.

Lemma processRequest_leaves_marker fuel req root ctx w :
  deadlines_set (actions_of req) ->
  (patience (actions_of req) <= fuel)%nat ->
  exists em w',
    processRequest env fuel req root ctx w = (outcome_of em, w')
    /\ fs w' !! Path.join (Path.join root (req_id req)) "done.json"
       = Some (Complete (DJson (marker_of em))).
Proof.
  intros Hd Hp. unfold processRequest.
  set (outDir := Path.join root (req_id req)).
  unfold bind at 1, ensureDir, fs_mkdir, bind at 1, get_fs, emit.
  cbn [fs log nuuid nclock ncall].
  unfold bind at 1, now at 1.
  cbn [fs log nuuid nclock ncall].
  set (w2 := mkWorld _ _ _ _ _).
  set (meta := meta_started env req _).
  destruct (writeFileAtomic_events env (Path.join outDir "meta.json") (DJson meta) w2)
    as (w3 & Hrun3 & _).
  unfold writeJSONAtomic at 1. rewrite (bind_ok _ _ _ _ _ Hrun3).
  destruct (job_try_resolves env clock fuel req outDir ctx w3 Hd Hp) as (r & w4 & Hrun4).
  rewrite (bind_ok _ _ _ _ _ Hrun4).
  destruct (finish_leaves_marker req outDir (Path.join outDir "meta.json") meta
              (env_now env (nclock w)) (fst r) (snd r) w4) as (w5 & Hrun5 & Hfs).
  exists (fst r), w5. auto.
Qed.

End MarkerOnDisk.


